(** * ProofPilot DOCX generator: markdown to branded document nodes

    A shallow embedding of [backend/utils/docx-generator.js]: the inline
    emphasis tokenizer ([parseInline]), the table parser
    ([parseMarkdownTable]), the row, table and callout builders and the
    line scanner ([renderMarkdown]), followed by the properties of these
    functions.

    JavaScript strings are sequences of UTF-16 code units; a string is a
    [list N] here and [lit] turns a literal into its code units.  The
    objects of the [docx] library ([TextRun], [Paragraph], [TableCell],
    [TableRow], [Table]) are records holding the options the generator
    passes to their constructors. *)

From Stdlib Require Import String Ascii.
From Stdlib Require Import List NArith ZArith Bool Arith Lia.
Import ListNotations.

(* ================================================================= *)
(** ** JavaScript strings *)

Module JS.

Definition char := N.
Definition str := list char.

Definition lit (s : string) : str :=
  List.map N_of_ascii (list_ascii_of_string s).

Definition ch (s : string) : char :=
  match lit s with
  | c :: _ => c
  | [] => 0%N
  end.

Definition char_eqb (a b : char) : bool := N.eqb a b.

Fixpoint str_eqb (a b : str) : bool :=
  match a, b with
  | [], [] => true
  | x :: a', y :: b' => char_eqb x y && str_eqb a' b'
  | _, _ => false
  end.

(** ECMAScript WhiteSpace and LineTerminator code points: the characters
    removed by [String.prototype.trim] and matched by [\s]. *)
Definition is_space (c : char) : bool :=
  ((9 <=? c) && (c <=? 13) || (c =? 32) || (c =? 160) || (c =? 5760)
   || (8192 <=? c) && (c <=? 8202) || (c =? 8232) || (c =? 8233)
   || (c =? 8239) || (c =? 8287) || (c =? 12288) || (c =? 65279))%N.

(** [\d] *)
Definition is_digit (c : char) : bool := ((48 <=? c) && (c <=? 57))%N.

Fixpoint drop_while {A} (p : A -> bool) (s : list A) : list A :=
  match s with
  | c :: s' => if p c then drop_while p s' else s
  | [] => []
  end.

Fixpoint take_while {A} (p : A -> bool) (s : list A) : list A :=
  match s with
  | c :: s' => if p c then c :: take_while p s' else []
  | [] => []
  end.

(** [s.trim()] *)
Definition trim (s : str) : str :=
  rev (drop_while is_space (rev (drop_while is_space s))).

(** [s.startsWith(p)] *)
Fixpoint startsWith (s p : str) : bool :=
  match p, s with
  | [], _ => true
  | x :: p', y :: s' => char_eqb x y && startsWith s' p'
  | _ :: _, [] => false
  end.

(** [s.endsWith(p)] *)
Definition endsWith (s p : str) : bool := startsWith (rev s) (rev p).

(** [s.slice(n)] for [0 <= n] *)
Definition slice_from (n : nat) (s : str) : str := skipn n s.

(** [s.slice(a, -b)]: from index [a] up to [b] characters before the end *)
Definition slice_between (a b : nat) (s : str) : str :=
  firstn (length s - b - a) (skipn a s).

(** [s.includes(p)] *)
Fixpoint includes (s p : str) : bool :=
  startsWith s p ||
  match s with
  | _ :: s' => includes s' p
  | [] => false
  end.

(** A matcher stands for a pattern (a string separator or a regular
    expression): at the front of the rest of the subject it answers the
    length of the match, if there is one.  None of the generator's
    patterns matches the empty string. *)
Definition matcher := str -> option nat.

Definition match_str (sep : str) : matcher :=
  fun s => if startsWith s sep then Some (length sep) else None.

(** [String.prototype.split]: the subject is scanned from the left; where
    the pattern matches, the piece read so far is pushed, then (for a
    regular expression whose capture group is the whole pattern, [cap])
    the matched text, and the scan resumes after the match.  The last
    piece is always pushed.  [fuel] bounds the scan positions. *)
Fixpoint split_go (m : matcher) (cap : bool) (fuel : nat) (piece : str) (s : str)
  : list str :=
  match fuel with
  | O => [rev piece ++ s]
  | S fuel' =>
    match s with
    | [] => [rev piece]
    | c :: s' =>
      match m s with
      | Some (S n) =>
          rev piece :: (if cap then [firstn (S n) s] else [])
            ++ split_go m cap fuel' [] (skipn (S n) s)
      | _ => split_go m cap fuel' (c :: piece) s'
      end
    end
  end.

Definition split_with (m : matcher) (cap : bool) (s : str) : list str :=
  split_go m cap (S (length s)) [] s.

(** [s.split(sep)] for a non-empty string [sep] *)
Definition split (s sep : str) : list str := split_with (match_str sep) false s.

(** [s.split(sep, limit)]: the first [limit] pieces of [s.split(sep)] *)
Definition split_limit (s sep : str) (limit : nat) : list str :=
  firstn limit (split s sep).

(** [s.replace(re, f)] with the [g] flag: every match, left to right, is
    replaced by [f] of the matched text. *)
Fixpoint replace_go (m : matcher) (f : str -> str) (fuel : nat) (s : str) : str :=
  match fuel with
  | O => s
  | S fuel' =>
    match s with
    | [] => []
    | c :: s' =>
      match m s with
      | Some (S n) => f (firstn (S n) s) ++ replace_go m f fuel' (skipn (S n) s)
      | _ => c :: replace_go m f fuel' s'
      end
    end
  end.

Definition replace_all (m : matcher) (f : str -> str) (s : str) : str :=
  replace_go m f (S (length s)) s.

(** [arr.slice(1, -1)] *)
Definition slice_inner {A} (l : list A) : list A := removelast (tl l).

End JS.

Import JS.

(* ================================================================= *)
(** ** The regular expressions of the generator *)

Definition STAR : char := ch "*".
Definition PIPE : char := ch "|".

Definition not_star (c : char) : bool := negb (char_eqb c STAR).

(** A delimiter of [k] stars, one or more characters other than a star,
    and the delimiter again: the italic pattern for [k = 1] and the bold
    pattern for [k = 2].  The greedy character class stops at the first
    star, and giving characters back cannot help, since the closing
    delimiter starts with a star. *)
Definition match_emph (k : nat) : matcher :=
  fun s =>
    let stars := repeat STAR k in
    if startsWith s stars then
      let body := take_while not_star (skipn k s) in
      match body with
      | [] => None
      | _ :: _ =>
          if startsWith (skipn (k + length body) s) stars
          then Some (k + length body + k)
          else None
      end
    else None.

(** The bold pattern of [parseInline] and [createCTABox], captured whole. *)
Definition re_bold : matcher := match_emph 2.
(** The italic pattern of [parseInline], captured whole. *)
Definition re_italic : matcher := match_emph 1.

(** The separator-row test: a pipe, one or more of hyphen, colon,
    white space and pipe, and a last pipe at the end of the string. *)
Definition sep_char (c : char) : bool :=
  char_eqb c (ch "-") || char_eqb c (ch ":") || is_space c || char_eqb c PIPE.

Definition is_separator_row (s : str) : bool :=
  match s with
  | c :: s' =>
      char_eqb c PIPE &&
      match rev s' with
      | d :: mid => char_eqb d PIPE && negb (Nat.eqb (length mid) 0) && forallb sep_char mid
      | [] => false
      end
  | [] => false
  end.

(** The headline test: the whole string is one bold span. *)
Definition is_bold_line (s : str) : bool :=
  match re_bold s with
  | Some n => Nat.eqb n (length s)
  | None => false
  end.

(** The numbered-item pattern (digits, a period, a white space): the
    length of its match at the start of the line. *)
Definition re_numbered (s : str) : option nat :=
  let digits := take_while is_digit s in
  match digits with
  | [] => None
  | _ :: _ =>
      match skipn (length digits) s with
      | dot :: sp :: _ =>
          if char_eqb dot (ch ".") && is_space sp then Some (length digits + 2) else None
      | _ => None
      end
  end.

(* ================================================================= *)
(** ** The objects of the docx library *)

Inductive AlignmentType := LEFT | CENTER | RIGHT.

Record TextRun := mkTextRun {
  text : str;
  bold : option bool;
  italics : option bool;
  color : str;
  size : Z;
  font : str
}.

Inductive ParagraphChild :=
| Run (r : TextRun)
| PageBreak.

(** [{ color, space, style: BorderStyle.SINGLE, size }] *)
Record Border := mkBorder {
  border_color : str;
  border_space : Z;
  border_size : Z
}.

Record Paragraph := mkParagraph {
  heading : option str;
  alignment : option AlignmentType;
  spacing : option (Z * Z);          (* before, after *)
  bullet : option Z;                 (* level *)
  numbering : option (str * Z);      (* reference, level *)
  indent : option Z;                 (* left *)
  border_bottom : option Border;
  children : list ParagraphChild
}.

Record Margins := mkMargins { m_top : Z; m_bottom : Z; m_left : Z; m_right : Z }.

(** Every cell carries the module's [cellBorders]; the other options vary. *)
Record TableCell := mkTableCell {
  fill : str;
  width : option Z;                  (* [None]: the width given is undefined *)
  margins : option Margins;
  cell_children : list Paragraph
}.

Record TableRow := mkTableRow { cells : list TableCell }.

(** Every table is declared 100 percent wide. *)
Record Table := mkTable {
  columnWidths : list Z;
  tbl_rows : list TableRow
}.

Inductive Node :=
| NParagraph (p : Paragraph)
| NTable (t : Table).

(** A paragraph with none of the options set. *)
Definition plain_paragraph (kids : list ParagraphChild) : Paragraph :=
  {| heading := None; alignment := None; spacing := None; bullet := None;
     numbering := None; indent := None; border_bottom := None; children := kids |}.

(* ================================================================= *)
(** ** Brand colours and constants *)

Definition ELECTRIC_BLUE : str := lit "0051FF".
Definition DARK_BLUE : str := lit "00184D".
Definition NEON_GREEN : str := lit "C8FF00".
Definition BLACK : str := lit "000000".
Definition LIGHT_GRAY : str := lit "F4F4F4".
Definition MEDIUM_GRAY : str := lit "666666".
Definition WHITE : str := lit "FFFFFF".

Definition STATUS_PREFIXES : list str :=
  map lit ["Pulling"; "Fetching"; "Researching"; "Building"; "Loading";
           "Analyzing"; "Computing"; "Gathering"; "Checking"]%string.

(** The bullet glyph of callout lines, U+2022, and a space. *)
Definition BULLET_GLYPH : str := [8226%N; 32%N].

Definition is_empty (s : str) : bool :=
  match s with
  | [] => true
  | _ :: _ => false
  end.

(** [arr.map((x, i) => f(x, i))] *)
Fixpoint mapi_from {A B} (i : nat) (f : A -> nat -> B) (l : list A) : list B :=
  match l with
  | [] => []
  | x :: l' => f x i :: mapi_from (S i) f l'
  end.

Definition mapi {A B} (f : A -> nat -> B) (l : list A) : list B := mapi_from 0 f l.

(* ================================================================= *)
(** ** Inline text formatting *)

(** The [opts] argument of [parseInline]; an absent property takes its
    default. *)
Record InlineOpts := mkInlineOpts {
  o_color : option str;
  o_size : option Z;
  o_font : option str;
  o_bold : option bool;
  o_italic : option bool
}.

Definition no_opts : InlineOpts :=
  {| o_color := None; o_size := None; o_font := None; o_bold := None; o_italic := None |}.

Definition or_default {A} (d : A) (o : option A) : A :=
  match o with
  | Some x => x
  | None => d
  end.

(** [part.startsWith(d) && part.endsWith(d) && part.length > 2 * d.length]
    for the delimiter [d] of [k] stars *)
Definition is_emph_part (k : nat) (part : str) : bool :=
  startsWith part (repeat STAR k) && endsWith part (repeat STAR k)
  && (2 * k <? length part).

Definition parseInline (text : str) (opts : InlineOpts) : list TextRun :=
  let color := or_default BLACK (o_color opts) in
  let size := or_default 22%Z (o_size opts) in
  let font := or_default (lit "Calibri") (o_font opts) in
  let bold := or_default false (o_bold opts) in
  let italic := or_default false (o_italic opts) in
  flat_map (fun part =>
    if is_emph_part 2 part then
      [mkTextRun (slice_between 2 2 part) (Some true) (Some italic) color size font]
    else
      flat_map (fun sub =>
        if is_emph_part 1 sub then
          [mkTextRun (slice_between 1 1 sub) (Some bold) (Some true) color size font]
        else if negb (is_empty sub) then
          [mkTextRun sub (Some bold) (Some italic) color size font]
        else [])
        (split_with re_italic true part))
    (split_with re_bold true text).

(** [stripMd]: the bold and italic delimiters are removed, then the text
    is trimmed. *)
Definition stripMd (text : str) : str :=
  trim (replace_all re_italic (slice_between 1 1)
          (replace_all re_bold (slice_between 2 2) text)).

(* ================================================================= *)
(** ** Row builders *)

Definition createHeaderRow (headers : list str) (colWidths : list Z) (bgColor : str)
  : TableRow :=
  mkTableRow (mapi (fun h i =>
    {| fill := bgColor;
       width := nth_error colWidths i;
       margins := None;
       cell_children :=
         [ {| heading := None; alignment := None; spacing := Some (80, 80)%Z;
              bullet := None; numbering := None; indent := None;
              border_bottom := None;
              children := [Run (mkTextRun (stripMd h) (Some true) None WHITE 20%Z
                                  (lit "Calibri"))] |} ] |}) headers).

(** [colWidths[i] || 2000] *)
Definition width_or_2000 (colWidths : list Z) (i : nat) : Z :=
  match nth_error colWidths i with
  | Some w => if (w =? 0)%Z then 2000%Z else w
  | None => 2000%Z
  end.

Record RowOptions := mkRowOptions {
  bgColor : option str;
  textColor : option str
}.

Definition createDataRow (cells : list str) (colWidths : list Z) (options : RowOptions)
  : TableRow :=
  let bg := or_default WHITE (bgColor options) in
  let fg := or_default BLACK (textColor options) in
  mkTableRow (mapi (fun cell i =>
    {| fill := bg;
       width := Some (width_or_2000 colWidths i);
       margins := None;
       cell_children :=
         [ {| heading := None; alignment := None; spacing := Some (60, 60)%Z;
              bullet := None; numbering := None; indent := None;
              border_bottom := None;
              children :=
                map Run (parseInline (stripMd cell)
                           {| o_color := Some fg; o_size := Some 20%Z; o_font := None;
                              o_bold := None; o_italic := None |}) |} ] |}) cells).

(* ================================================================= *)
(** ** The callout box *)

(** The truth value of the [headline] argument: [null], [undefined] and
    the empty string are falsy. *)
Definition truthy (headline : option str) : bool :=
  match headline with
  | Some (_ :: _) => true
  | _ => false
  end.

Definition cta_line_runs (raw : str) : list TextRun :=
  flat_map (fun part =>
    if is_emph_part 2 part then
      [mkTextRun (slice_between 2 2 part) (Some true) None NEON_GREEN 20%Z (lit "Calibri")]
    else if negb (is_empty part) then
      [mkTextRun part None None WHITE 20%Z (lit "Calibri")]
    else [])
    (split_with re_bold true raw).

Definition cta_body_line (line : str) : list Paragraph :=
  if is_empty (trim line) then []
  else
    let isBullet := startsWith line (lit "- ") in
    let raw := if isBullet then slice_from 2 line else line in
    let lineRuns :=
      (if isBullet
       then [mkTextRun BULLET_GLYPH None None NEON_GREEN 20%Z (lit "Calibri")]
       else []) ++ cta_line_runs raw in
    [ {| heading := None; alignment := None; spacing := Some (40, 40)%Z;
         bullet := None; numbering := None;
         indent := if isBullet then Some 180%Z else None;
         border_bottom := None;
         children := map Run lineRuns |} ].

Definition cta_children (headline : option str) (bodyLines : list str) : list Paragraph :=
  (if truthy headline then
     [ {| heading := None; alignment := Some LEFT; spacing := Some (160, 80)%Z;
          bullet := None; numbering := None; indent := None; border_bottom := None;
          children := [Run (mkTextRun (or_default [] headline) (Some true) None
                              NEON_GREEN 26%Z (lit "Bebas Neue"))] |} ]
   else [])
  ++ flat_map cta_body_line bodyLines.

(** [createCTABox] answers [null] ([None]) when it has no paragraph to
    put in the box. *)
Definition createCTABox (headline : option str) (bodyLines : list str) : option Table :=
  let children := cta_children headline bodyLines in
  if Nat.eqb (length children) 0 then None
  else Some {| columnWidths := [9360%Z];
               tbl_rows :=
                 [ mkTableRow
                     [ {| fill := DARK_BLUE; width := Some 9360%Z;
                          margins := Some (mkMargins 120 120 160 160);
                          cell_children := children |} ] ] |}.

(* ================================================================= *)
(** ** The markdown table parser *)

Record ParsedTable := mkParsedTable {
  headers : list str;
  rows : list (list str);
  isInfoTable : bool
}.

(** The cells of a table line: the line split at the pipes, without the
    pieces outside the outer pipes, each cell trimmed. *)
Definition table_cells (trimmed : str) : list str :=
  map trim (slice_inner (split trimmed (lit "|"))).

(** One turn of the loop of [parseMarkdownTable] over [tableLines]. *)
Definition table_line (acc : list str * list (list str)) (line : str)
  : list str * list (list str) :=
  let '(hs, rs) := acc in
  let trimmed := trim line in
  if negb (startsWith trimmed (lit "|")) then acc
  else if is_separator_row trimmed then acc
  else
    let cells := table_cells trimmed in
    if Nat.eqb (length hs) 0 then (hs ++ cells, rs) else (hs, rs ++ [cells]).

Definition parseMarkdownTable (tableLines : list str) : ParsedTable :=
  let '(hs, rs) := fold_left table_line tableLines ([], []) in
  {| headers := hs;
     rows := rs;
     isInfoTable := Nat.eqb (length hs) 2 && forallb is_empty hs |}.

(* ================================================================= *)
(** ** Info tables and brand tables *)

Definition info_cell (bg : str) (w : Z) (run : TextRun) : TableCell :=
  {| fill := bg; width := Some w;
     margins := Some (mkMargins 60 60 80 80);
     cell_children := [plain_paragraph [Run run]] |}.

Definition buildInfoTable (rows : list (list str)) : Table :=
  {| columnWidths := [2500; 6860]%Z;
     tbl_rows :=
       map (fun row =>
         let label := stripMd (nth 0 row []) in
         let value := stripMd (nth 1 row []) in
         mkTableRow
           [ info_cell LIGHT_GRAY 2500
               (mkTextRun label (Some true) None BLACK 22%Z (lit "Calibri"));
             info_cell WHITE 6860
               (mkTextRun value None None BLACK 22%Z (lit "Calibri")) ]) rows |}.

Definition totalWidth : Z := 9360.

(** The widths of the columns of a brand table with header cells
    [headers]: [Math.floor(totalWidth / n)] each, the last one taking what
    is left.  All values are integers far below 2^53, where the division
    and [Math.floor] of JavaScript numbers are those of the integers. *)
Definition brandColWidths {A} (headers : list A) : list Z :=
  let n := length headers in
  let colWidth := (totalWidth / Z.of_nat n)%Z in
  mapi (fun _ i =>
    if Nat.eqb i (n - 1) then (totalWidth - colWidth * (Z.of_nat n - 1))%Z
    else colWidth) headers.

(** [paddedRow]: empty cells are pushed while the row is shorter than the
    header list. *)
Definition padRow (row : list str) (n : nat) : list str :=
  row ++ repeat [] (n - length row).

Definition buildBrandTable (headers : list str) (rows : list (list str))
  (headerColor : str) : option Table :=
  if Nat.eqb (length headers) 0 then None
  else
    let colWidths := brandColWidths headers in
    Some {| columnWidths := colWidths;
            tbl_rows :=
              createHeaderRow headers colWidths headerColor
              :: mapi (fun row idx =>
                   let bg := if Nat.eqb (idx mod 2) 1 then LIGHT_GRAY else WHITE in
                   createDataRow (padRow row (length headers)) colWidths
                     {| bgColor := Some bg; textColor := None |}) rows |}.

(* ================================================================= *)
(** ** The markdown renderer *)

(** The variables of [renderMarkdown] that live across iterations. *)
Record ScanState := mkScanState {
  h2Count : nat;
  inCover : bool;
  coverH1Done : bool;
  coverSubtitleDone : bool
}.

Definition initial_state : ScanState :=
  {| h2Count := 0; inCover := true; coverH1Done := false; coverSubtitleDone := false |}.

(** [addSpacer(before, after)] *)
Definition spacer (before after : Z) : Node :=
  NParagraph {| heading := None; alignment := None; spacing := Some (before, after);
                bullet := None; numbering := None; indent := None;
                border_bottom := None; children := [] |}.

Definition pageBreakParagraph : Node :=
  NParagraph {| heading := None; alignment := None; spacing := Some (0, 0)%Z;
                bullet := None; numbering := None; indent := None;
                border_bottom := None; children := [PageBreak] |}.

Definition headingRun (t : str) (c : str) (sz : Z) : ParagraphChild :=
  Run (mkTextRun t (Some true) None c sz (lit "Bebas Neue")).

(** Cover title, line 1: Electric Blue, centered. *)
Definition coverLine1 (preAmp : str) : Node :=
  NParagraph {| heading := None; alignment := Some CENTER; spacing := Some (480, 0)%Z;
                bullet := None; numbering := None; indent := None;
                border_bottom := None;
                children := [headingRun preAmp ELECTRIC_BLUE 48] |}.

(** Cover title, line 2: Dark Blue, centered, the ampersand put back. *)
Definition coverLine2 (postAmp : str) : Node :=
  NParagraph {| heading := None; alignment := Some CENTER; spacing := Some (0, 120)%Z;
                bullet := None; numbering := None; indent := None;
                border_bottom := None;
                children := [headingRun (lit "& " ++ postAmp) DARK_BLUE 76] |}.

Definition headingParagraph (style : string) (before after : Z) (t c : str) (sz : Z)
  : Node :=
  NParagraph {| heading := Some (lit style); alignment := None;
                spacing := Some (before, after);
                bullet := None; numbering := None; indent := None;
                border_bottom := None;
                children := [headingRun t c sz] |}.

Definition bodyH1 (title : str) : Node :=
  headingParagraph "Heading1" 360 160 title DARK_BLUE 40.

Definition size22 : InlineOpts :=
  {| o_color := None; o_size := Some 22%Z; o_font := None; o_bold := None;
     o_italic := None |}.

Definition bulletParagraph (t : str) : Node :=
  NParagraph {| heading := None; alignment := None; spacing := Some (40, 40)%Z;
                bullet := Some 0%Z; numbering := None; indent := Some 360%Z;
                border_bottom := None;
                children := map Run (parseInline t size22) |}.

Definition numberedParagraph (t : str) : Node :=
  NParagraph {| heading := None; alignment := None; spacing := Some (40, 40)%Z;
                bullet := None; numbering := Some (lit "num-list-1", 0%Z);
                indent := Some 360%Z; border_bottom := None;
                children := map Run (parseInline t size22) |}.

Definition horizontalRule : Node :=
  NParagraph {| heading := None; alignment := None; spacing := Some (120, 120)%Z;
                bullet := None; numbering := None; indent := None;
                border_bottom := Some (mkBorder ELECTRIC_BLUE 1 6);
                children := [] |}.

Definition subtitleParagraph (trimmed : str) : Node :=
  NParagraph {| heading := None; alignment := Some CENTER; spacing := Some (0, 200)%Z;
                bullet := None; numbering := None; indent := None;
                border_bottom := None;
                children := [Run (mkTextRun trimmed None (Some true) MEDIUM_GRAY 26%Z
                                    (lit "Calibri"))] |}.

Definition bodyParagraph (trimmed : str) : Node :=
  NParagraph {| heading := None; alignment := None; spacing := Some (0, 80)%Z;
                bullet := None; numbering := None; indent := None;
                border_bottom := None;
                children := map Run (parseInline trimmed size22) |}.

Definition is_quote_line (l : str) : bool := startsWith (trim l) (lit "> ").
Definition is_pipe_line (l : str) : bool := startsWith (trim l) (lit "|").

(** The headline and the body lines of a collected callout. *)
Definition callout_parts (calloutLines : list str) : str * list str :=
  match calloutLines with
  | first :: others =>
      if is_bold_line first then (slice_between 2 2 first, others)
      else ([], calloutLines)
  | [] => ([], [])
  end.

(** What the blockquote branch pushes: a spacer, the box unless it is
    [null], a spacer. *)
Definition calloutNodes (headline : str) (bodyLines : list str) : list Node :=
  [spacer 80 0]
  ++ match createCTABox (Some headline) bodyLines with
     | Some box => [NTable box]
     | None => []
     end
  ++ [spacer 0 120].

(** What the table branch pushes for the collected [tableLines]. *)
Definition tableNodes (h2Count : nat) (tableLines : list str) : list Node :=
  let t := parseMarkdownTable tableLines in
  if isInfoTable t then [NTable (buildInfoTable (rows t)); spacer 0 120]
  else if 0 <? length (headers t) then
    let headerColor := if Nat.eqb (h2Count mod 2) 1 then DARK_BLUE else ELECTRIC_BLUE in
    match buildBrandTable (headers t) (rows t) headerColor with
    | Some tbl => [NTable tbl; spacer 0 120]
    | None => []
    end
  else [].

(** One iteration of the [while] loop, at [line] with the lines [rest]
    after it: the nodes pushed, the new state and the lines left. *)
Definition step (st : ScanState) (line : str) (rest : list str)
  : list Node * ScanState * list str :=
  let trimmed := trim line in
  if str_eqb trimmed (lit "[COVER_END]") then
    ([pageBreakParagraph],
     {| h2Count := h2Count st; inCover := false; coverH1Done := coverH1Done st;
        coverSubtitleDone := coverSubtitleDone st |},
     rest)
  else if startsWith trimmed (lit "> ") then
    let rawContent := trim (slice_from 2 trimmed) in
    if existsb (fun pfx => startsWith rawContent pfx) STATUS_PREFIXES then
      ([], st, rest)
    else
      let calloutLines :=
        map (fun l => trim (slice_from 2 (trim l)))
            (line :: take_while is_quote_line rest) in
      let '(headline, bodyLines) := callout_parts calloutLines in
      (calloutNodes headline bodyLines, st, drop_while is_quote_line rest)
  else if startsWith trimmed (lit "|") && negb (is_separator_row trimmed) then
    (tableNodes (h2Count st) (line :: take_while is_pipe_line rest), st,
     drop_while is_pipe_line rest)
  else if startsWith line (lit "# ") then
    let title := trim (slice_from 2 line) in
    if inCover st && negb (coverH1Done st) && includes title (lit " & ") then
      let parts := split_limit title (lit " & ") 2 in
      let preAmp := nth 0 parts [] in
      let postAmp := nth 1 parts (lit "undefined") in
      ([coverLine1 preAmp; coverLine2 postAmp],
       {| h2Count := h2Count st; inCover := inCover st; coverH1Done := true;
          coverSubtitleDone := coverSubtitleDone st |},
       rest)
    else ([bodyH1 title], st, rest)
  else if startsWith line (lit "## ") then
    let n := S (h2Count st) in
    let c := if Nat.eqb (n mod 2) 1 then DARK_BLUE else ELECTRIC_BLUE in
    ([headingParagraph "Heading2" 300 100 (trim (slice_from 3 line)) c 36],
     {| h2Count := n; inCover := false; coverH1Done := coverH1Done st;
        coverSubtitleDone := coverSubtitleDone st |},
     rest)
  else if startsWith line (lit "### ") then
    ([headingParagraph "Heading3" 200 80 (trim (slice_from 4 line)) BLACK 26], st, rest)
  else if startsWith line (lit "- ") || startsWith line (lit "* ") then
    ([bulletParagraph (trim (slice_from 2 line))], st, rest)
  else
    match re_numbered line with
    | Some n => ([numberedParagraph (trim (skipn n line))], st, rest)
    | None =>
        if str_eqb trimmed (lit "---") then ([horizontalRule], st, rest)
        else if str_eqb trimmed [] then ([spacer 0 60], st, rest)
        else if inCover st && coverH1Done st && negb (coverSubtitleDone st) then
          ([subtitleParagraph trimmed],
           {| h2Count := h2Count st; inCover := inCover st;
              coverH1Done := coverH1Done st; coverSubtitleDone := true |},
           rest)
        else ([bodyParagraph trimmed], st, rest)
    end.

(** The [while (i < lines.length)] loop.  Every iteration moves past at
    least one line, so [fuel] as large as the number of lines runs the
    loop to its end ([scan_fuel] below). *)
Fixpoint scan (fuel : nat) (st : ScanState) (lines : list str) : list Node :=
  match fuel, lines with
  | S fuel', line :: rest =>
      let '(out, st', rest') := step st line rest in
      out ++ scan fuel' st' rest'
  | _, _ => []
  end.

Definition renderLines (lines : list str) : list Node :=
  scan (length lines) initial_state lines.

Definition renderMarkdown (content : str) : list Node :=
  renderLines (split content (lit (String "010" EmptyString))).

(* ================================================================= *)
(** ** Notions used by the properties *)

(** The text has no star. *)
Definition no_star (s : str) : bool := forallb not_star s.

(** The base style of a call of [parseInline]: [opts] with its defaults. *)
Definition base_run (text : str) (opts : InlineOpts) : TextRun :=
  mkTextRun text
    (Some (or_default false (o_bold opts)))
    (Some (or_default false (o_italic opts)))
    (or_default BLACK (o_color opts))
    (or_default 22%Z (o_size opts))
    (or_default (lit "Calibri") (o_font opts)).

Definition sumZ (l : list Z) : Z := fold_right Z.add 0%Z l.

Definition cell_count (r : TableRow) : nat := length (cells r).

(** A line that [parseMarkdownTable] reads as a row, and its cells. *)
Definition is_table_row (line : str) : bool :=
  startsWith (trim line) (lit "|") && negb (is_separator_row (trim line)).

Definition row_cells (line : str) : list str := table_cells (trim line).

(** A line that gives the parser no header cell: it is skipped, or it has
    no cell between its outer pipes. *)
Definition no_header_cells (line : str) : bool :=
  negb (is_table_row line) || Nat.eqb (length (row_cells line)) 0.

(** The string is made of hyphens only. *)
Definition all_hyphens (s : str) : bool := forallb (fun c => char_eqb c (ch "-")) s.

(** None of the rules that come before the horizontal rule applies to the
    line: the conditions of those branches of [renderMarkdown], in order. *)
Definition no_earlier_marker (line : str) : bool :=
  let trimmed := trim line in
  negb (str_eqb trimmed (lit "[COVER_END]"))
  && negb (startsWith trimmed (lit "> "))
  && negb (startsWith trimmed (lit "|") && negb (is_separator_row trimmed))
  && negb (startsWith line (lit "# "))
  && negb (startsWith line (lit "## "))
  && negb (startsWith line (lit "### "))
  && negb (startsWith line (lit "- ") || startsWith line (lit "* "))
  && match re_numbered line with Some _ => false | None => true end.

(** None of the block markers applies to the line. *)
Definition no_marker (line : str) : bool :=
  no_earlier_marker line && negb (str_eqb (trim line) (lit "---")).

(** What a line without marker is rendered as. *)
Definition plain_line_node (line : str) : Node :=
  if is_empty (trim line) then spacer 0 60 else bodyParagraph (trim line).

(** The first line of a split cover title: the centered paragraph whose
    only run has size 48. *)
Definition is_coverLine1 (n : Node) : bool :=
  match n with
  | NParagraph p =>
      match alignment p, children p with
      | Some CENTER, [Run r] => (size r =? 48)%Z
      | _, _ => false
      end
  | NTable _ => false
  end.

Definition count_cover_splits (nodes : list Node) : nat :=
  length (filter is_coverLine1 nodes).

Definition is_table_node (n : Node) : bool :=
  match n with
  | NTable _ => true
  | NParagraph _ => false
  end.

(** Splitting at one character, by recursion on the string: the form of
    [s.split(c)] that the proofs about table lines use ([split_single]). *)
Fixpoint split_char (c : char) (s : str) : list str :=
  match s with
  | [] => [[]]
  | x :: s' =>
      if char_eqb c x then [] :: split_char c s'
      else match split_char c s' with
           | p :: ps => (x :: p) :: ps
           | [] => [[x]]
           end
  end.

(** The text has no ampersand. *)
Definition no_amp (s : str) : bool := forallb (fun c => negb (char_eqb c (ch "&"))) s.

(** The right end of [trim]: the string without its trailing white space. *)
Definition rtrim (s : str) : str := rev (drop_while is_space (rev s)).

(* ================================================================= *)
(** ** Notions used by the further properties *)

(** The emphasis delimiter of [k] stars. *)
Definition stars (k : nat) : str := repeat STAR k.

(** The pattern [m] matches at no position of [s]. *)
Fixpoint nowhere (m : matcher) (s : str) : bool :=
  match m s with
  | Some _ => false
  | None =>
      match s with
      | [] => true
      | _ :: s' => nowhere m s'
      end
  end.

Definition no_pipe (s : str) : bool := forallb (fun c => negb (char_eqb c PIPE)) s.

(** A table row written out: a pipe, then every cell followed by a pipe. *)
Definition pipe_row (cs : list str) : str :=
  PIPE :: flat_map (fun c => c ++ [PIPE]) cs.

(** Some cell holds a character that a separator row cannot hold. *)
Definition has_content (cs : list str) : bool :=
  existsb (existsb (fun x => negb (sep_char x))) cs.

(** The paragraphs inside a table, row by row and cell by cell. *)
Definition table_paragraphs (t : Table) : list Paragraph :=
  flat_map (fun r => flat_map cell_children (cells r)) (tbl_rows t).

Definition row_fills (r : TableRow) : list str := map fill (cells r).
Definition row_widths (r : TableRow) : list (option Z) := map width (cells r).

(** The zebra fill of the data row of index [i]. *)
Definition zebra (i : nat) : str := if Nat.eqb (i mod 2) 1 then LIGHT_GRAY else WHITE.

(** A blank body line of a callout. *)
Definition is_blank (l : str) : bool := is_empty (trim l).

(** A centered paragraph: the cover title lines and the cover subtitle. *)
Definition is_centered (n : Node) : bool :=
  match n with
  | NParagraph p =>
      match alignment p with
      | Some CENTER => true
      | _ => false
      end
  | NTable _ => false
  end.

(** The cover subtitle: the centered paragraph whose only run has size 26. *)
Definition is_subtitle (n : Node) : bool :=
  match n with
  | NParagraph p =>
      match alignment p, children p with
      | Some CENTER, [Run r] => (size r =? 26)%Z
      | _, _ => false
      end
  | NTable _ => false
  end.

Definition count_subtitles (nodes : list Node) : nat :=
  length (filter is_subtitle nodes).

(** The colour of a Heading2 paragraph, for each such node in order. *)
Definition h2_color (n : Node) : list str :=
  match n with
  | NParagraph p =>
      match heading p, children p with
      | Some h, [Run r] => if str_eqb h (lit "Heading2") then [color r] else []
      | _, _ => []
      end
  | NTable _ => []
  end.

Definition h2_colors (nodes : list Node) : list str := flat_map h2_color nodes.

Definition is_h2_line (l : str) : bool := startsWith l (lit "## ").

Definition count_h2_lines (lines : list str) : nat := length (filter is_h2_line lines).

(** The colour of the [k]-th H2 heading of a document, counted from 1. *)
Definition h2_palette (k : nat) : str :=
  if Nat.eqb (k mod 2) 1 then DARK_BLUE else ELECTRIC_BLUE.

(** The colours of [n] successive H2 headings after [k] earlier ones. *)
Fixpoint alternation (k n : nat) : list str :=
  match n with
  | O => []
  | S n' => h2_palette (S k) :: alternation (S k) n'
  end.

(** The line starts with one of the status prefixes after its quote marker. *)
Definition is_status_line (line : str) : bool :=
  startsWith (trim line) (lit "> ")
  && existsb (fun pfx => startsWith (trim (slice_from 2 (trim line))) pfx) STATUS_PREFIXES.

(* ================================================================= *)
(** * Properties *)

(** ** Strings *)

Ltac lit_norm :=
  repeat match goal with
  | |- context [lit ?s] =>
      let v := eval vm_compute in (lit s) in change (lit s) with v
  | |- context [ch ?s] =>
      let v := eval vm_compute in (ch s) in change (ch s) with v
  end.

(** A literal prefix test on a string whose first characters are known. *)
Ltac decide_prefix := lit_norm; vm_compute; reflexivity.

Lemma char_eqb_eq (a b : char) : char_eqb a b = true <-> a = b.
Proof. apply N.eqb_eq. Qed.

Lemma str_eqb_eq (a b : str) : str_eqb a b = true <-> a = b.
Proof.
  revert b; induction a as [|x a IH]; intros [|y b]; simpl; split; intro H;
    try reflexivity; try discriminate.
  - apply andb_true_iff in H as [H1 H2].
    apply char_eqb_eq in H1; apply IH in H2; congruence.
  - injection H as -> ->. apply andb_true_iff; split.
    + now apply char_eqb_eq.
    + now apply IH.
Qed.

Lemma str_eqb_refl (a : str) : str_eqb a a = true.
Proof. now apply str_eqb_eq. Qed.

Lemma str_eqb_nil (s : str) : str_eqb s [] = is_empty s.
Proof. destruct s; reflexivity. Qed.

Lemma is_empty_eq (s : str) : is_empty s = true <-> s = [].
Proof. destruct s; simpl; split; intro H; congruence. Qed.

Lemma startsWith_nil (s : str) : startsWith s [] = true.
Proof. destruct s; reflexivity. Qed.

Lemma startsWith_cons_inv (s p : str) (c : char) :
  startsWith s (c :: p) = true -> exists s', s = c :: s' /\ startsWith s' p = true.
Proof.
  destruct s as [|d s]; cbn [startsWith]; [discriminate|].
  intro H. apply andb_true_iff in H as [H1 H2].
  apply char_eqb_eq in H1. subst d. now exists s.
Qed.

Lemma endsWith_single (s : str) (c : char) :
  endsWith s [c] = true -> exists s0, s = s0 ++ [c].
Proof.
  unfold endsWith. cbn [rev app]. intro H.
  apply startsWith_cons_inv in H as [r [E _]].
  exists (rev r). apply (f_equal (@rev _)) in E. rewrite rev_involutive in E.
  exact E.
Qed.

Lemma drop_while_app_stop {A} (p : A -> bool) (a : list A) (c : A) :
  p c = false -> drop_while p (a ++ [c]) = drop_while p a ++ [c].
Proof.
  intro Hc; induction a as [|x a IH]; simpl.
  - now rewrite Hc.
  - destruct (p x); [exact IH | reflexivity].
Qed.

Lemma drop_while_head {A} (p : A -> bool) (l r : list A) (c : A) :
  drop_while p l = c :: r -> p c = false.
Proof.
  induction l as [|x l IH]; simpl; [discriminate|].
  destruct (p x) eqn:Hx; [exact IH|]. intro E. injection E as -> _. exact Hx.
Qed.

Lemma drop_while_nil {A} (p : A -> bool) (l : list A) :
  drop_while p l = [] -> forallb p l = true.
Proof.
  induction l as [|x l IH]; [reflexivity|]. cbn [drop_while forallb].
  destruct (p x); [exact IH | discriminate].
Qed.

Lemma drop_while_length {A} (p : A -> bool) (l : list A) :
  length (drop_while p l) <= length l.
Proof.
  induction l as [|x l IH]; simpl; [lia|]. destruct (p x); simpl; lia.
Qed.

Lemma drop_while_suffix {A} (p : A -> bool) (l : list A) :
  exists pre, l = pre ++ drop_while p l /\ forallb p pre = true.
Proof.
  induction l as [|x l [pre [IH1 IH2]]]; simpl.
  - exists []; split; reflexivity.
  - destruct (p x) eqn:Hx.
    + exists (x :: pre); split; simpl; [now f_equal | now rewrite Hx].
    + exists []; split; reflexivity.
Qed.

(** Trimming a line that starts with a character other than white space
    only touches its right end. *)
Lemma trim_cons (c : char) (l : str) :
  is_space c = false -> trim (c :: l) = c :: rtrim l.
Proof.
  intro Hc. unfold trim, rtrim. simpl drop_while at 2. rewrite Hc.
  simpl rev at 2. rewrite drop_while_app_stop by exact Hc.
  rewrite rev_app_distr. reflexivity.
Qed.

(** [rtrim] keeps a prefix and removes white space only. *)
Lemma rtrim_prefix (l : str) :
  exists suf, l = rtrim l ++ suf /\ forallb is_space suf = true.
Proof.
  unfold rtrim. destruct (drop_while_suffix is_space (rev l)) as [pre [H1 H2]].
  exists (rev pre). split.
  - rewrite <- rev_app_distr, <- H1. now rewrite rev_involutive.
  - rewrite forallb_forall in *. intros x Hx. apply H2. now apply in_rev.
Qed.

Lemma rtrim_cons_space (c : char) (l : str) :
  is_space c = true -> rtrim (c :: l) = [] \/ exists t, rtrim (c :: l) = c :: t.
Proof.
  intros Hc. destruct (rtrim_prefix (c :: l)) as [suf [H _]].
  destruct (rtrim (c :: l)) as [|d t] eqn:E; [now left | right].
  simpl in H. injection H as <- _. now exists t.
Qed.

(** The first character of a line, when it is no white space, is the
    first character of the trimmed line. *)
Lemma trim_head (line p : str) (c : char) :
  startsWith line (c :: p) = true -> is_space c = false ->
  exists t, trim line = c :: t.
Proof.
  intros H Hc. apply startsWith_cons_inv in H as [s' [-> _]].
  rewrite (trim_cons c s' Hc). now eexists.
Qed.

(** After such a first character, a white space either ends the trimmed
    line or is its second character. *)
Lemma trim_head2 (line p : str) (c d : char) :
  startsWith line (c :: d :: p) = true -> is_space c = false -> is_space d = true ->
  trim line = [c] \/ exists t, trim line = c :: d :: t.
Proof.
  intros H Hc Hd. apply startsWith_cons_inv in H as [s' [-> H]].
  apply startsWith_cons_inv in H as [s'' [-> _]].
  rewrite (trim_cons c (d :: s'') Hc).
  destruct (rtrim_cons_space d s'' Hd) as [E | [t E]]; rewrite E; [now left | right].
  now exists t.
Qed.

(** A trimmed string is empty or ends with a character other than white
    space. *)
Lemma trim_last (l : str) :
  trim l = [] \/ exists t c, trim l = t ++ [c] /\ is_space c = false.
Proof.
  unfold trim. destruct (drop_while is_space (rev (drop_while is_space l))) as [|c r] eqn:E.
  - now left.
  - right. exists (rev r), c. split; [reflexivity|].
    exact (drop_while_head is_space _ r c E).
Qed.

Lemma trim_snoc (a : str) (c : char) :
  is_space c = false -> trim (a ++ [c]) = drop_while is_space a ++ [c].
Proof.
  intro Hc. unfold trim. rewrite (drop_while_app_stop is_space a c Hc).
  rewrite rev_app_distr. cbn [rev app drop_while]. rewrite Hc.
  change (c :: rev (drop_while is_space a)) with ([c] ++ rev (drop_while is_space a)).
  rewrite rev_app_distr, rev_involutive. reflexivity.
Qed.

Lemma trim_nil (s : str) : trim s = [] -> forallb is_space s = true.
Proof.
  unfold trim. intro H. apply (f_equal (@rev _)) in H. rewrite rev_involutive in H.
  cbn [rev] in H. apply drop_while_nil in H.
  destruct (drop_while is_space s) as [|x r] eqn:E; [now apply drop_while_nil|].
  pose proof (drop_while_head is_space s r x E) as Hx.
  rewrite forallb_forall in H. rewrite (H x) in Hx; [discriminate|].
  apply -> in_rev. now left.
Qed.

Lemma is_digit_not_space (c : char) : is_digit c = true -> is_space c = false.
Proof.
  unfold is_digit, is_space. intro H. apply andb_true_iff in H as [H1 H2].
  apply N.leb_le in H1, H2.
  repeat match goal with
  | |- context [(?a <=? ?b)%N] => destruct (N.leb_spec a b)
  | |- context [(?a =? ?b)%N] => destruct (N.eqb_spec a b)
  end; try reflexivity; lia.
Qed.

(* ================================================================= *)
(** ** Splitting *)

Lemma split_go_fuel (m : matcher) (cap : bool) (f1 : nat) :
  forall f2 piece s, length s < f1 -> length s < f2 ->
  split_go m cap f1 piece s = split_go m cap f2 piece s.
Proof.
  induction f1 as [|f1 IH]; intros f2 piece s H1 H2; [lia|].
  destruct f2 as [|f2]; [lia|].
  destruct s as [|c s]; [reflexivity|]. cbn [split_go].
  cbn [length] in H1, H2.
  destruct (m (c :: s)) as [[|n]|].
  - apply IH; lia.
  - f_equal. f_equal. apply IH; cbn [skipn]; rewrite length_skipn; lia.
  - apply IH; lia.
Qed.

Lemma replace_go_fuel (m : matcher) (f : str -> str) (f1 : nat) :
  forall f2 s, length s < f1 -> length s < f2 ->
  replace_go m f f1 s = replace_go m f f2 s.
Proof.
  induction f1 as [|f1 IH]; intros f2 s H1 H2; [lia|].
  destruct f2 as [|f2]; [lia|].
  destruct s as [|c s]; [reflexivity|]. cbn [replace_go].
  cbn [length] in H1, H2.
  destruct (m (c :: s)) as [[|n]|].
  - f_equal. apply IH; lia.
  - f_equal. apply IH; cbn [skipn]; rewrite length_skipn; lia.
  - f_equal. apply IH; lia.
Qed.

(** A pattern that matches nowhere leaves the subject in one piece. *)
Lemma split_go_no_match (m : matcher) (cap : bool) (s : str) :
  forall fuel piece,
  (forall k, m (skipn k s) = None) ->
  split_go m cap fuel piece s = [rev piece ++ s].
Proof.
  induction s as [|c s IH]; intros fuel piece Hm.
  - destruct fuel; simpl; now rewrite ?app_nil_r.
  - destruct fuel as [|fuel]; [reflexivity|].
    pose proof (Hm 0) as H0. simpl in H0. simpl. rewrite H0. rewrite IH.
    + simpl. now rewrite <- app_assoc.
    + intro k. exact (Hm (S k)).
Qed.

(** Where the pattern matches nowhere in [a], the scan reads [a] into the
    current piece. *)
Lemma split_go_skip (m : matcher) (cap : bool) (a r : str) :
  forall fuel piece,
  (forall k, k < length a -> m (skipn k (a ++ r)) = None) ->
  split_go m cap fuel piece (a ++ r) = split_go m cap (fuel - length a) (rev a ++ piece) r.
Proof.
  induction a as [|x a IH]; intros fuel piece Hm.
  - cbn [app length rev]. now rewrite Nat.sub_0_r.
  - destruct fuel as [|fuel].
    + cbn [split_go Nat.sub]. rewrite rev_app_distr, rev_involutive, <- app_assoc.
      reflexivity.
    + cbn [app length Nat.sub split_go].
      pose proof (Hm 0 (Nat.lt_0_succ _)) as H0. cbn [skipn app] in H0. rewrite H0.
      rewrite IH.
      * cbn [rev]. now rewrite <- app_assoc.
      * intros k Hk. apply (Hm (S k)). cbn [length]. lia.
Qed.

Lemma split_char_not_nil (c : char) (s : str) : split_char c s <> [].
Proof.
  induction s as [|x s IH]; cbn [split_char]; [discriminate|].
  destruct (char_eqb c x); [discriminate|].
  destruct (split_char c s); discriminate.
Qed.

Lemma split_go_single (c : char) (s : str) :
  forall fuel piece, length s < fuel ->
  split_go (match_str [c]) false fuel piece s
  = match split_char c s with
    | p :: ps => (rev piece ++ p) :: ps
    | [] => []
    end.
Proof.
  induction s as [|x s IH]; intros fuel piece Hf.
  - destruct fuel; [simpl in Hf; lia|]. cbn [split_go split_char].
    now rewrite app_nil_r.
  - destruct fuel as [|fuel]; [simpl in Hf; lia|]. cbn [length] in Hf.
    cbn [split_go split_char].
    assert (Em : match_str [c] (x :: s) = if char_eqb c x then Some 1 else None).
    { unfold match_str. cbn [startsWith length].
      now rewrite startsWith_nil, andb_true_r. }
    rewrite Em. destruct (char_eqb c x).
    + cbn [skipn app]. rewrite (IH fuel []) by lia.
      rewrite app_nil_r. f_equal.
      pose proof (split_char_not_nil c s) as Hn.
      destruct (split_char c s); [congruence | reflexivity].
    + rewrite (IH fuel (x :: piece)) by lia.
      pose proof (split_char_not_nil c s) as Hn.
      destruct (split_char c s) as [|p ps]; [congruence|].
      cbn [rev]. now rewrite <- app_assoc.
Qed.

(** [s.split(c)] for a separator of one character. *)
Lemma split_single (c : char) (s : str) : split s [c] = split_char c s.
Proof.
  unfold split, split_with. rewrite split_go_single by lia.
  pose proof (split_char_not_nil c s) as Hn.
  destruct (split_char c s); [congruence | reflexivity].
Qed.

Lemma split_char_snoc (c : char) (s : str) :
  split_char c (s ++ [c]) = split_char c s ++ [[]].
Proof.
  induction s as [|x s IH]; cbn [app split_char].
  - unfold char_eqb. rewrite N.eqb_refl. reflexivity.
  - rewrite IH. destruct (char_eqb c x); [reflexivity|].
    pose proof (split_char_not_nil c s) as Hn.
    destruct (split_char c s); [congruence | reflexivity].
Qed.

(** When every piece is made of characters in [q], the string is made of
    such characters and separators. *)
Lemma split_char_pieces (q : char -> bool) (c : char) (s : str) :
  forallb (forallb q) (split_char c s) = true ->
  forallb (fun x => q x || char_eqb x c) s = true.
Proof.
  induction s as [|x s IH]; [reflexivity|]. cbn [split_char forallb].
  destruct (char_eqb c x) eqn:E.
  - cbn [forallb]. intro H.
    unfold char_eqb in *. rewrite N.eqb_sym, E, orb_true_r. now apply IH.
  - destruct (split_char c s) as [|p ps]; cbn [forallb] in *.
    + intro H. rewrite andb_true_r in H. apply andb_true_iff in H as [-> _].
      now rewrite IH.
    + intro H. apply andb_true_iff in H as [H1 H2].
      apply andb_true_iff in H1 as [-> H1].
      rewrite IH; [reflexivity|]. apply andb_true_iff. now split.
Qed.

(* ================================================================= *)
(** ** The inline tokenizer *)

Lemma no_star_skipn (s : str) (k : nat) : no_star s = true -> no_star (skipn k s) = true.
Proof.
  unfold no_star. rewrite !forallb_forall. intros H x Hx. apply H.
  rewrite <- (firstn_skipn k s). apply in_or_app. now right.
Qed.

Lemma no_star_startsWith (s : str) (k : nat) :
  no_star s = true -> startsWith s (repeat STAR (S k)) = false.
Proof.
  intro H. destruct s as [|c s]; [reflexivity|].
  unfold no_star in H. cbn [forallb] in H. apply andb_true_iff in H as [H _].
  unfold not_star in H. apply negb_true_iff in H.
  cbn [repeat startsWith].
  replace (char_eqb STAR c) with false; [reflexivity|].
  symmetry. unfold char_eqb in *. now rewrite N.eqb_sym.
Qed.

Lemma match_emph_no_star (k : nat) (s : str) :
  no_star s = true -> match_emph (S k) s = None.
Proof.
  intro H. unfold match_emph. now rewrite no_star_startsWith.
Qed.

Lemma split_emph_no_star (k : nat) (s : str) :
  no_star s = true -> split_with (match_emph (S k)) true s = [s].
Proof.
  intro H. unfold split_with. rewrite split_go_no_match; [reflexivity|].
  intro j. apply match_emph_no_star. now apply no_star_skipn.
Qed.

Lemma is_emph_part_no_star (k : nat) (s : str) :
  no_star s = true -> is_emph_part (S k) s = false.
Proof.
  intro H. unfold is_emph_part. now rewrite no_star_startsWith.
Qed.

Lemma parseInline_no_star (text : str) (opts : InlineOpts) :
  no_star text = true ->
  parseInline text opts = if is_empty text then [] else [base_run text opts].
Proof.
  intro H. unfold parseInline.
  change re_bold with (match_emph 2). change re_italic with (match_emph 1).
  rewrite (split_emph_no_star 1 text H). cbn [flat_map].
  rewrite (is_emph_part_no_star 1 text H).
  rewrite (split_emph_no_star 0 text H). cbn [flat_map].
  rewrite (is_emph_part_no_star 0 text H).
  destruct text; reflexivity.
Qed.

(** C6, as stated, fails: the empty text has no star and yields no run. *)
Lemma parseInline_empty_text_counterexample :
  ~ (forall text opts, no_star text = true ->
       parseInline text opts = [base_run text opts]).
Proof.
  intro H. specialize (H [] no_opts eq_refl). discriminate H.
Qed.

(** C6 (amended): for a non-empty text without star [parseInline] returns
    exactly one run, holding the whole text in the caller's base style
    (bold, italic, colour, size and font as given or defaulted); for the
    empty text it returns no run. *)
Theorem parseInline_plain_text (text : str) (opts : InlineOpts) :
  no_star text = true ->
  (text <> [] -> parseInline text opts = [base_run text opts])
  /\ (text = [] -> parseInline text opts = []).
Proof.
  intro H. rewrite (parseInline_no_star text opts H). split.
  - destruct text; [congruence | reflexivity].
  - intros ->. reflexivity.
Qed.

Lemma parseInline_plain_text_witness :
  no_star (lit "Total leads: 42") = true
  /\ parseInline (lit "Total leads: 42") size22
     = [mkTextRun (lit "Total leads: 42") (Some false) (Some false) BLACK 22%Z
          (lit "Calibri")].
Proof.
  split; [vm_compute; reflexivity|].
  apply (parseInline_plain_text (lit "Total leads: 42") size22).
  - vm_compute. reflexivity.
  - vm_compute. discriminate.
Defined.

(* ================================================================= *)
(** ** The table parser *)

Lemma table_line_no_header (rs : list (list str)) (line : str) :
  no_header_cells line = true -> table_line ([], rs) line = ([], rs).
Proof.
  unfold no_header_cells, is_table_row, row_cells, table_line. intro H.
  destruct (startsWith (trim line) (lit "|")); [|reflexivity].
  destruct (is_separator_row (trim line)); [reflexivity|].
  cbn [negb andb orb] in H. cbn [negb length Nat.eqb].
  destruct (table_cells (trim line)); [reflexivity | discriminate H].
Qed.

Lemma table_line_header (rs : list (list str)) (line : str) :
  is_table_row line = true -> table_line ([], rs) line = (row_cells line, rs).
Proof.
  unfold is_table_row, row_cells, table_line. intro H.
  apply andb_true_iff in H as [H1 H2]. apply negb_true_iff in H2.
  rewrite H1, H2. reflexivity.
Qed.

Lemma table_line_keeps_headers (hs : list str) (rs : list (list str)) (line : str) :
  hs <> [] -> fst (table_line (hs, rs) line) = hs.
Proof.
  intro H. unfold table_line.
  destruct (negb (startsWith (trim line) (lit "|"))); [reflexivity|].
  destruct (is_separator_row (trim line)); [reflexivity|].
  destruct hs; [congruence | reflexivity].
Qed.

Lemma fold_table_line_no_header (pre : list str) (rs : list (list str)) :
  Forall (fun l => no_header_cells l = true) pre ->
  fold_left table_line pre ([], rs) = ([], rs).
Proof.
  induction 1 as [|l pre Hl _ IH]; [reflexivity|].
  cbn [fold_left]. rewrite (table_line_no_header rs l Hl). exact IH.
Qed.

Lemma fold_table_line_keeps_headers (post : list str) :
  forall hs rs, hs <> [] -> fst (fold_left table_line post (hs, rs)) = hs.
Proof.
  induction post as [|l post IH]; intros hs rs H; [reflexivity|].
  cbn [fold_left]. pose proof (table_line_keeps_headers hs rs l H) as E.
  destruct (table_line (hs, rs) l) as [hs' rs']. cbn [fst] in E. subst hs'.
  now apply IH.
Qed.

(** The header list of a parsed table is the cell list of the first row
    that has a cell. *)
Lemma parseMarkdownTable_headers (pre post : list str) (hdr : str) :
  Forall (fun l => no_header_cells l = true) pre ->
  is_table_row hdr = true ->
  row_cells hdr <> [] ->
  headers (parseMarkdownTable (pre ++ hdr :: post)) = row_cells hdr.
Proof.
  intros Hpre Hrow Hne. unfold parseMarkdownTable.
  rewrite fold_left_app, (fold_table_line_no_header pre [] Hpre).
  cbn [fold_left]. rewrite (table_line_header [] hdr Hrow).
  pose proof (fold_table_line_keeps_headers post (row_cells hdr) [] Hne) as E.
  destruct (fold_left table_line post (row_cells hdr, [])) as [hs rs].
  cbn [fst] in E. cbn [headers]. exact E.
Qed.

Lemma isInfoTable_spec (tableLines : list str) :
  isInfoTable (parseMarkdownTable tableLines) = true
  <-> headers (parseMarkdownTable tableLines) = [[]; []].
Proof.
  unfold parseMarkdownTable.
  destruct (fold_left table_line tableLines ([], [])) as [hs rs].
  cbn [isInfoTable headers]. split.
  - intro H. apply andb_true_iff in H as [H1 H2].
    destruct hs as [|a [|b [|c hs]]]; try discriminate H1.
    cbn [forallb] in H2. apply andb_true_iff in H2 as [Ha H2].
    apply andb_true_iff in H2 as [Hb _].
    apply is_empty_eq in Ha, Hb. now subst.
  - intros ->. reflexivity.
Qed.

(** C1: when the header row of a list of table lines (the first line that
    is read as a row, that is, whose trimmed form starts with a pipe and
    is no separator row, and that has a cell; the lines before it are
    skipped or have no cell) consists of exactly two empty cells,
    [parseMarkdownTable] reports [isInfoTable = true]; for any other
    non-empty header list it reports [isInfoTable = false].  The header
    list reported is the cell list of that row, and for every input
    [isInfoTable] is true exactly when the reported header list is two
    empty strings. *)
Theorem parseMarkdownTable_isInfoTable (pre post : list str) (hdr : str)
  (tableLines : list str) :
  (Forall (fun l => no_header_cells l = true) pre ->
   is_table_row hdr = true ->
   row_cells hdr <> [] ->
   let t := parseMarkdownTable (pre ++ hdr :: post) in
   headers t = row_cells hdr
   /\ (row_cells hdr = [[]; []] -> isInfoTable t = true)
   /\ (row_cells hdr <> [[]; []] -> isInfoTable t = false))
  /\ (isInfoTable (parseMarkdownTable tableLines) = true
      <-> headers (parseMarkdownTable tableLines) = [[]; []]).
Proof.
  split; [|apply isInfoTable_spec].
  intros Hpre Hrow Hne t. subst t.
  pose proof (parseMarkdownTable_headers pre post hdr Hpre Hrow Hne) as Hh.
  split; [exact Hh|]. split.
  - intro E. apply isInfoTable_spec. congruence.
  - intro E. destruct (isInfoTable (parseMarkdownTable (pre ++ hdr :: post))) eqn:Hi;
      [|reflexivity].
    apply isInfoTable_spec in Hi. congruence.
Qed.

Lemma parseMarkdownTable_isInfoTable_witness :
  Forall (fun l => no_header_cells l = true) [lit "|---|---|"]
  /\ is_table_row (lit "| | | Company") = true
  /\ row_cells (lit "| | | Company") <> []
  /\ row_cells (lit "| | | Company") = [[]; []]
  /\ isInfoTable (parseMarkdownTable
                    ([lit "|---|---|"] ++ lit "| | | Company"
                       :: [lit "| Client | Acme Electric |"])) = true
  /\ is_table_row (lit "| Client | Acme Electric |") = true
  /\ row_cells (lit "| Client | Acme Electric |") <> [[]; []]
  /\ isInfoTable (parseMarkdownTable
                    ([lit "|  |  |"; lit "|---|---|"] ++ lit "| Client | Acme Electric |"
                       :: [])) = false.
Proof.
  assert (H1 : Forall (fun l => no_header_cells l = true) [lit "|---|---|"])
    by (constructor; [vm_compute; reflexivity | constructor]).
  assert (H2 : is_table_row (lit "| | | Company") = true) by (vm_compute; reflexivity).
  assert (H3 : row_cells (lit "| | | Company") <> []) by (vm_compute; discriminate).
  assert (H4 : row_cells (lit "| | | Company") = [[]; []]) by (vm_compute; reflexivity).
  assert (G1 : Forall (fun l => no_header_cells l = true) [lit "|  |  |"; lit "|---|---|"])
    by (repeat (constructor; [vm_compute; reflexivity|]); constructor).
  assert (G2 : is_table_row (lit "| Client | Acme Electric |") = true)
    by (vm_compute; reflexivity).
  assert (G3 : row_cells (lit "| Client | Acme Electric |") <> [])
    by (vm_compute; discriminate).
  assert (G4 : row_cells (lit "| Client | Acme Electric |") <> [[]; []])
    by (vm_compute; discriminate).
  split; [exact H1|]. split; [exact H2|]. split; [exact H3|]. split; [exact H4|].
  split.
  - exact (proj1 (proj2 (proj1 (parseMarkdownTable_isInfoTable [lit "|---|---|"]
                                  [lit "| Client | Acme Electric |"]
                                  (lit "| | | Company") []) H1 H2 H3)) H4).
  - split; [exact G2|]. split; [exact G4|].
    exact (proj2 (proj2 (proj1 (parseMarkdownTable_isInfoTable
                                  [lit "|  |  |"; lit "|---|---|"] []
                                  (lit "| Client | Acme Electric |") []) G1 G2 G3)) G4).
Defined.

(** A line of pipes and white space only is read as a separator row, so
    it never is the header row. *)
Lemma blank_cells_line_is_separator :
  is_table_row (lit "|  |  |") = false.
Proof. vm_compute. reflexivity. Qed.

(** A row closed by a pipe whose cells are two empty cells is made of
    pipes and white space only, so the separator test takes it: the
    parser skips it, and no such row ever becomes the header row. *)
Lemma blank_header_row_is_separator (line : str) :
  startsWith (trim line) (lit "|") = true ->
  endsWith (trim line) (lit "|") = true ->
  row_cells line = [[]; []] ->
  is_separator_row (trim line) = true /\ is_table_row line = false.
Proof.
  unfold row_cells, is_table_row, table_cells. intros Hs He Hc.
  cut (is_separator_row (trim line) = true).
  { intros ->. split; [reflexivity|]. now rewrite andb_false_r. }
  change (lit "|") with [PIPE] in *.
  rewrite split_single in Hc.
  apply startsWith_cons_inv in Hs as [s [E _]]. rewrite E in *. clear E.
  cbn [split_char] in Hc. unfold char_eqb in Hc at 1. rewrite N.eqb_refl in Hc.
  unfold slice_inner in Hc. cbn [tl] in Hc.
  apply endsWith_single in He as [s0 E].
  destruct s0 as [|x s0]; cbn [app] in E.
  - injection E as ->. vm_compute in Hc. discriminate Hc.
  - injection E as <- ->.
    rewrite split_char_snoc, removelast_last in Hc.
    unfold is_separator_row. unfold char_eqb at 1. rewrite N.eqb_refl. cbn [andb].
    rewrite rev_app_distr. cbn [rev app]. unfold char_eqb at 1.
    rewrite N.eqb_refl. cbn [andb].
    destruct (rev s0) as [|y r] eqn:Er.
    + apply (f_equal (@rev _)) in Er. rewrite rev_involutive in Er. subst s0.
      vm_compute in Hc. discriminate Hc.
    + cbn [length Nat.eqb negb andb]. rewrite <- Er.
      rewrite forallb_forall. intros z Hz. apply in_rev in Hz. revert z Hz.
      rewrite <- forallb_forall.
      assert (Hp : forallb (forallb is_space) (split_char PIPE s0) = true).
      { destruct (split_char PIPE s0) as [|p1 [|p2 [|p3 ps]]]; try discriminate Hc.
        cbn [map] in Hc. injection Hc as H1 H2.
        cbn [forallb]. now rewrite (trim_nil p1 H1), (trim_nil p2 H2). }
      apply (split_char_pieces is_space PIPE s0) in Hp.
      rewrite forallb_forall in *. intros z Hz. specialize (Hp z Hz).
      unfold sep_char. apply orb_true_iff in Hp as [-> | ->];
        now rewrite ?orb_true_r.
Qed.

(** A first row of two blank cells, followed by a separator row and one
    row of text: the parser takes the first row for a separator row and
    skips it, so the row of text is the header row and the table is no
    info table. *)
Lemma info_table_blank_header_row_skipped :
  let t := parseMarkdownTable
             [lit "|  |  |"; lit "|---|---|"; lit "| Client | Acme Electric |"] in
  isInfoTable t = false
  /\ headers t = [lit "Client"; lit "Acme Electric"]
  /\ rows t = []
  /\ row_cells (lit "|  |  |") = [[]; []]
  /\ is_separator_row (trim (lit "|  |  |")) = true.
Proof. vm_compute. repeat split; reflexivity. Qed.

(* ================================================================= *)
(** ** Column widths and rows of brand tables *)

Lemma mapi_from_length {A B} (f : A -> nat -> B) (l : list A) :
  forall i, length (mapi_from i f l) = length l.
Proof. induction l as [|x l IH]; intro i; simpl; [reflexivity | now rewrite IH]. Qed.

Lemma mapi_length {A B} (f : A -> nat -> B) (l : list A) :
  length (mapi f l) = length l.
Proof. apply mapi_from_length. Qed.

Lemma mapi_from_seq {A B} (g : nat -> B) (l : list A) :
  forall i, mapi_from i (fun _ j => g j) l = map g (seq i (length l)).
Proof. induction l as [|x l IH]; intro i; simpl; [reflexivity | now rewrite IH]. Qed.

Lemma map_mapi_from {A B C} (g : B -> C) (f : A -> nat -> B) (l : list A) :
  forall i, map g (mapi_from i f l) = mapi_from i (fun x j => g (f x j)) l.
Proof. induction l as [|x l IH]; intro i; simpl; [reflexivity | now rewrite IH]. Qed.


Lemma mapi_from_const_index {A B} (f : A -> B) (l : list A) :
  forall i, mapi_from i (fun x _ => f x) l = map f l.
Proof. induction l as [|x l IH]; intro i; simpl; [reflexivity | now rewrite IH]. Qed.

Lemma sumZ_app (a b : list Z) : sumZ (a ++ b) = (sumZ a + sumZ b)%Z.
Proof. induction a as [|x a IH]; simpl; [reflexivity | rewrite IH; lia]. Qed.

Lemma sumZ_repeat (q : Z) (n : nat) : sumZ (repeat q n) = (q * Z.of_nat n)%Z.
Proof. induction n as [|n IH]; [simpl; lia | cbn [repeat sumZ fold_right] in *; fold (sumZ (repeat q n)); rewrite IH; lia]. Qed.

(** The widths are [n - 1] times the quotient, then the rest. *)
Lemma brandColWidths_shape {A} (hs : list A) :
  hs <> [] ->
  let n := length hs in
  let q := (totalWidth / Z.of_nat n)%Z in
  brandColWidths hs = repeat q (n - 1) ++ [(totalWidth - q * (Z.of_nat n - 1))%Z].
Proof.
  intros Hne n q. unfold brandColWidths, mapi. fold n. fold q.
  rewrite (mapi_from_seq
             (fun i => if Nat.eqb i (n - 1) then (totalWidth - q * (Z.of_nat n - 1))%Z else q)).
  fold n. assert (Hn : n = S (n - 1)) by (destruct hs; [congruence | simpl in n; lia]).
  rewrite Hn at 1. rewrite seq_S, map_app. cbn [map Nat.add]. rewrite Nat.eqb_refl.
  f_equal. generalize (n - 1) as k. intro k.
  assert (G : forall j, map (fun i => if Nat.eqb i (j + k) then (totalWidth - q * (Z.of_nat n - 1))%Z else q)
                (seq j k) = repeat q k).
  { induction k as [|k IH]; intro j; [reflexivity|].
    cbn [seq map repeat]. destruct (Nat.eqb_spec j (j + S k)); [lia|].
    f_equal. specialize (IH (S j)). replace (S j + k) with (j + S k) in IH by lia. exact IH. }
  exact (G 0).
Qed.

Lemma buildBrandTable_some (hs : list str) (rs : list (list str)) (c : str) :
  hs <> [] ->
  buildBrandTable hs rs c
  = Some {| columnWidths := brandColWidths hs;
            tbl_rows :=
              createHeaderRow hs (brandColWidths hs) c
              :: mapi (fun row idx =>
                   let bg := if Nat.eqb (idx mod 2) 1 then LIGHT_GRAY else WHITE in
                   createDataRow (padRow row (length hs)) (brandColWidths hs)
                     {| bgColor := Some bg; textColor := None |}) rs |}.
Proof.
  intro H. unfold buildBrandTable. destruct hs; [congruence | reflexivity].
Qed.

Lemma buildBrandTable_headers (hs : list str) (rs : list (list str)) (c : str) (t : Table) :
  buildBrandTable hs rs c = Some t -> hs <> [].
Proof. destruct hs; [discriminate | discriminate]. Qed.

(** C5: in every brand table of [n >= 1] columns the column widths sum to
    the total width, 9360, exactly: each column but the last gets the
    integer quotient of the total width by [n], and the last column gets
    the total width less what the others took. *)
Theorem brand_table_widths_sum (hs : list str) (rs : list (list str)) (c : str) :
  1 <= length hs ->
  exists t, buildBrandTable hs rs c = Some t
  /\ sumZ (columnWidths t) = totalWidth
  /\ length (columnWidths t) = length hs
  /\ (forall i, i < length hs - 1 ->
        nth_error (columnWidths t) i = Some (totalWidth / Z.of_nat (length hs))%Z)
  /\ nth_error (columnWidths t) (length hs - 1)
     = Some (totalWidth
             - (totalWidth / Z.of_nat (length hs)) * (Z.of_nat (length hs) - 1))%Z.
Proof.
  intro Hn. assert (Hne : hs <> []) by (destruct hs; [simpl in Hn; lia | discriminate]).
  eexists. split; [apply (buildBrandTable_some hs rs c Hne)|]. cbn [columnWidths].
  rewrite (brandColWidths_shape hs Hne). cbv zeta.
  set (q := (totalWidth / Z.of_nat (length hs))%Z).
  repeat split.
  - rewrite sumZ_app, sumZ_repeat. cbn [sumZ fold_right].
    rewrite Nat2Z.inj_sub by exact Hn. change (Z.of_nat 1) with 1%Z. lia.
  - rewrite length_app, repeat_length. simpl. lia.
  - intros i Hi. rewrite nth_error_app1 by (rewrite repeat_length; exact Hi).
    apply nth_error_repeat. exact Hi.
  - rewrite nth_error_app2 by (rewrite repeat_length; lia).
    rewrite repeat_length, Nat.sub_diag. reflexivity.
Qed.

Lemma brand_table_widths_sum_witness :
  1 <= length [lit "Keyword"; lit "Volume"; lit "Rank"; lit "URL"; lit "Intent";
               lit "CPC"; lit "Trend"]
  /\ exists t,
       buildBrandTable [lit "Keyword"; lit "Volume"; lit "Rank"; lit "URL"; lit "Intent";
                        lit "CPC"; lit "Trend"] [] DARK_BLUE = Some t
       /\ sumZ (columnWidths t) = totalWidth.
Proof.
  split; [simpl; lia|].
  destruct (brand_table_widths_sum
              [lit "Keyword"; lit "Volume"; lit "Rank"; lit "URL"; lit "Intent";
               lit "CPC"; lit "Trend"] [] DARK_BLUE) as [t [H1 [H2 _]]].
  - simpl; lia.
  - exists t. split; assumption.
Defined.

Lemma padRow_length (row : list str) (n : nat) :
  length (padRow row n) = Nat.max (length row) n.
Proof. unfold padRow. rewrite length_app, repeat_length. lia. Qed.







(* ================================================================= *)
(** ** Callout boxes *)

Lemma cta_body_blank (bodyLines : list str) :
  forallb (fun l => is_empty (trim l)) bodyLines = true ->
  flat_map cta_body_line bodyLines = [].
Proof.
  induction bodyLines as [|l ls IH]; [reflexivity|].
  cbn [forallb flat_map]. intro H. apply andb_true_iff in H as [H1 H2].
  unfold cta_body_line at 1. rewrite H1. now apply IH.
Qed.

Lemma calloutNodes_cases (headline : str) (bodyLines : list str) :
  (createCTABox (Some headline) bodyLines = None ->
     calloutNodes headline bodyLines = [spacer 80 0; spacer 0 120])
  /\ (forall box, createCTABox (Some headline) bodyLines = Some box ->
        calloutNodes headline bodyLines = [spacer 80 0; NTable box; spacer 0 120]).
Proof.
  unfold calloutNodes. split.
  - intros ->. reflexivity.
  - intros box ->. reflexivity.
Qed.

(** C9: with no headline (none given, or the empty string the scanner
    passes when the callout has no headline) and every body line blank,
    [createCTABox] returns [null]; it is a total function, so no error is
    raised.  The scanner then pushes no box at that position: the nodes of
    the blockquote branch are the two spacers only. *)
Theorem createCTABox_nothing_to_render (headline : option str) (bodyLines : list str) :
  truthy headline = false ->
  forallb (fun l => is_empty (trim l)) bodyLines = true ->
  createCTABox headline bodyLines = None
  /\ (forall h, headline = Some h ->
        calloutNodes h bodyLines = [spacer 80 0; spacer 0 120]
        /\ filter is_table_node (calloutNodes h bodyLines) = []).
Proof.
  intros Hh Hb.
  assert (E : createCTABox headline bodyLines = None).
  { unfold createCTABox, cta_children. rewrite Hh, (cta_body_blank bodyLines Hb).
    reflexivity. }
  split; [exact E|]. intros h ->.
  rewrite (proj1 (calloutNodes_cases h bodyLines) E). split; reflexivity.
Qed.

Lemma createCTABox_nothing_to_render_witness :
  truthy (Some []) = false
  /\ forallb (fun l => is_empty (trim l)) [lit ""; lit "   "] = true
  /\ createCTABox (Some []) [lit ""; lit "   "] = None
  /\ calloutNodes [] [lit ""; lit "   "] = [spacer 80 0; spacer 0 120].
Proof.
  assert (H1 : truthy (Some []) = false) by reflexivity.
  assert (H2 : forallb (fun l => is_empty (trim l)) [lit ""; lit "   "] = true)
    by (vm_compute; reflexivity).
  destruct (createCTABox_nothing_to_render (Some []) [lit ""; lit "   "] H1 H2)
    as [E F].
  split; [exact H1|]. split; [exact H2|]. split; [exact E|].
  exact (proj1 (F [] eq_refl)).
Defined.

Lemma is_bold_line_inner (s : str) :
  is_bold_line s = true -> slice_between 2 2 s <> [].
Proof.
  unfold is_bold_line, re_bold, match_emph.
  destruct (startsWith s (repeat STAR 2)); [|discriminate].
  destruct (take_while not_star (skipn 2 s)) as [|x body] eqn:Eb; [discriminate|].
  destruct (startsWith _ (repeat STAR 2)); [|discriminate].
  intro H. apply Nat.eqb_eq in H. cbn [length] in H.
  intro E. apply (f_equal (@length _)) in E.
  unfold slice_between in E. rewrite length_firstn, length_skipn in E.
  cbn [length] in E. lia.
Qed.

Lemma cta_body_line_not_blank (u : str) (c : char) :
  is_space c = false -> exists p, cta_body_line (u ++ [c]) = [p].
Proof.
  intro Hc. unfold cta_body_line. rewrite (trim_snoc u c Hc).
  destruct (drop_while is_space u); cbn [app is_empty]; now eexists.
Qed.

(* ================================================================= *)
(** ** The scanner loop *)

(** An iteration leaves no more lines than the ones after its line. *)
Lemma step_rest_length (st : ScanState) (line : str) (rest : list str) :
  length (snd (step st line rest)) <= length rest.
Proof.
  unfold step.
  repeat match goal with
  | |- context [if ?c then _ else _] => destruct c
  | |- context [match re_numbered ?l with _ => _ end] => destruct (re_numbered l)
  | |- context [let '(_, _) := ?p in _] => destruct p
  end; cbn [snd]; auto using drop_while_length.
Qed.

(** Fuel beyond the number of lines changes nothing: [renderLines] runs
    the loop until no line is left. *)
Lemma scan_fuel_eq (n : nat) :
  forall m st lines, length lines <= n -> length lines <= m ->
  scan n st lines = scan m st lines.
Proof.
  induction n as [|n IH]; intros m st lines Hn Hm.
  - destruct lines; [destruct m; reflexivity | simpl in Hn; lia].
  - destruct lines as [|line rest]; [destruct m; reflexivity|].
    destruct m as [|m]; [simpl in Hm; lia|].
    cbn [scan]. pose proof (step_rest_length st line rest) as Hr.
    destruct (step st line rest) as [[out st'] rest']. cbn [snd] in Hr.
    simpl in Hn, Hm. f_equal. apply IH; lia.
Qed.

Lemma scan_fuel (fuel : nat) (st : ScanState) (lines : list str) :
  length lines <= fuel -> scan fuel st lines = scan (length lines) st lines.
Proof. intro H. apply scan_fuel_eq; [exact H | lia]. Qed.

(** The loop, one iteration unrolled. *)
Lemma scan_cons (st : ScanState) (line : str) (rest : list str) :
  scan (S (length rest)) st (line :: rest)
  = fst (fst (step st line rest))
    ++ scan (length (snd (step st line rest))) (snd (fst (step st line rest)))
         (snd (step st line rest)).
Proof.
  cbn [scan]. pose proof (step_rest_length st line rest) as Hr.
  destruct (step st line rest) as [[out st'] rest']. cbn [fst snd] in *.
  f_equal. now apply scan_fuel.
Qed.

(* ================================================================= *)
(** ** Lines without marker *)

(** A line without marker, met before any cover title: one paragraph, the
    state and the lines after it untouched. *)
Lemma step_no_marker (st : ScanState) (line : str) (rest : list str) :
  no_marker line = true ->
  coverH1Done st = false ->
  step st line rest = ([plain_line_node line], st, rest).
Proof.
  unfold no_marker, no_earlier_marker. cbv zeta. intros H Hc.
  repeat (apply andb_true_iff in H as [H ?]).
  repeat match goal with
  | H : negb _ = true |- _ => apply negb_true_iff in H
  end.
  unfold step, plain_line_node. cbv zeta.
  destruct (re_numbered line); [discriminate|].
  repeat match goal with
  | H : ?c = false |- context [if ?c then _ else _] => rewrite H
  end.
  rewrite str_eqb_nil, Hc, andb_false_r. cbn [andb].
  destruct (is_empty (trim line)); reflexivity.
Qed.

Lemma scan_no_marker (lines : list str) :
  forall st, coverH1Done st = false ->
  Forall (fun l => no_marker l = true) lines ->
  scan (length lines) st lines = map plain_line_node lines.
Proof.
  induction lines as [|line rest IH]; intros st Hc Hall; [reflexivity|].
  inversion Hall as [|? ? Hl Hrest]; subst.
  cbn [length]. rewrite scan_cons, (step_no_marker st line rest Hl Hc).
  cbn [fst snd app map]. f_equal. now apply IH.
Qed.

(** The pieces of a split with a captured pattern, put together, give the
    subject back. *)
Lemma split_go_concat (m : matcher) (fuel : nat) :
  forall piece s, concat (split_go m true fuel piece s) = rev piece ++ s.
Proof.
  induction fuel as [|fuel IH]; intros piece s; cbn [split_go].
  - cbn [concat]. now rewrite app_nil_r.
  - destruct s as [|c s]; [reflexivity|].
    destruct (m (c :: s)) as [[|n]|].
    + rewrite IH. cbn [rev]. now rewrite <- app_assoc.
    + cbn [app concat]. rewrite IH. cbn [rev app].
      now rewrite (firstn_skipn (S n) (c :: s)).
    + rewrite IH. cbn [rev]. now rewrite <- app_assoc.
Qed.

Lemma split_with_concat (m : matcher) (s : str) : concat (split_with m true s) = s.
Proof. unfold split_with. now rewrite split_go_concat. Qed.

Lemma flat_map_nil_inv {A B} (f : A -> list B) (l : list A) :
  flat_map f l = [] -> forall x, In x l -> f x = [].
Proof.
  induction l as [|y l IH]; intros H x Hx; [contradiction|].
  cbn [flat_map] in H. apply app_eq_nil in H as [H1 H2].
  destruct Hx as [<- | Hx]; [exact H1 | now apply IH].
Qed.

Lemma concat_all_nil {A} (l : list (list A)) :
  (forall x, In x l -> x = []) -> concat l = [].
Proof.
  induction l as [|y l IH]; intro H; [reflexivity|].
  cbn [concat]. rewrite (H y (or_introl eq_refl)). apply IH.
  intros x Hx. apply H. now right.
Qed.

(** A text that is not empty gives at least one run. *)
Lemma parseInline_not_nil (txt : str) (opts : InlineOpts) :
  txt <> [] -> parseInline txt opts <> [].
Proof.
  intros Hne H. apply Hne. unfold parseInline in H.
  rewrite <- (split_with_concat re_bold txt). apply concat_all_nil.
  intros part Hpart. pose proof (flat_map_nil_inv _ _ H part Hpart) as Hp.
  cbv beta in Hp. destruct (is_emph_part 2 part); [discriminate Hp|].
  rewrite <- (split_with_concat re_italic part). apply concat_all_nil.
  intros sub Hsub. pose proof (flat_map_nil_inv _ _ Hp sub Hsub) as Hs.
  cbv beta in Hs. destruct (is_emph_part 1 sub); [discriminate Hs|].
  destruct sub; [reflexivity | discriminate Hs].
Qed.

(** C7: when no line of the input matches a block marker, the scanner
    emits one node per line, in order, so that there are as many nodes as
    lines.  A blank line gives the spacer paragraph: spacing 0 and 60, no
    run, no other option.  Any other line gives a body paragraph: spacing
    0 and 80, no other option, holding the runs of the trimmed line
    tokenized at size 22; these runs are never none, and for a line
    without star they are the single plain run of the trimmed line
    (black, size 22, Calibri). *)
Theorem renderMarkdown_plain_lines (content : str) :
  let lines := split content (lit (String "010" EmptyString)) in
  Forall (fun l => no_marker l = true) lines ->
  renderMarkdown content
  = map (fun l =>
           if is_empty (trim l) then
             NParagraph {| heading := None; alignment := None; spacing := Some (0, 60)%Z;
                           bullet := None; numbering := None; indent := None;
                           border_bottom := None; children := [] |}
           else
             NParagraph {| heading := None; alignment := None; spacing := Some (0, 80)%Z;
                           bullet := None; numbering := None; indent := None;
                           border_bottom := None;
                           children :=
                             map Run (parseInline (trim l)
                                        {| o_color := None; o_size := Some 22%Z;
                                           o_font := None; o_bold := None;
                                           o_italic := None |}) |}) lines
  /\ length (renderMarkdown content) = length lines
  /\ Forall (fun l =>
               is_empty (trim l) = false ->
               parseInline (trim l)
                 {| o_color := None; o_size := Some 22%Z; o_font := None;
                    o_bold := None; o_italic := None |} <> []
               /\ (no_star (trim l) = true ->
                   parseInline (trim l)
                     {| o_color := None; o_size := Some 22%Z; o_font := None;
                        o_bold := None; o_italic := None |}
                   = [mkTextRun (trim l) (Some false) (Some false) (lit "000000") 22%Z
                        (lit "Calibri")])) lines.
Proof.
  intros lines H. unfold renderMarkdown, renderLines. fold lines.
  rewrite (scan_no_marker lines initial_state eq_refl H).
  split; [reflexivity|]. split; [apply length_map|].
  apply Forall_forall. intros l _ Hl. split.
  - apply parseInline_not_nil. intro E. rewrite E in Hl. discriminate Hl.
  - intro Hs. rewrite (parseInline_no_star _ _ Hs), Hl. reflexivity.
Qed.

Lemma renderMarkdown_plain_lines_witness :
  let content := lit ("Prepared for Acme Electric" ++ String "010" "" ++ ""
                      ++ String "010" "" ++ "Revenue gap: **$28,000** per month")%string in
  Forall (fun l => no_marker l = true) (split content (lit (String "010" EmptyString)))
  /\ renderMarkdown content
     = [NParagraph {| heading := None; alignment := None; spacing := Some (0, 80)%Z;
                      bullet := None; numbering := None; indent := None;
                      border_bottom := None;
                      children :=
                        [Run (mkTextRun (lit "Prepared for Acme Electric") (Some false)
                                (Some false) (lit "000000") 22%Z (lit "Calibri"))] |};
        NParagraph {| heading := None; alignment := None; spacing := Some (0, 60)%Z;
                      bullet := None; numbering := None; indent := None;
                      border_bottom := None; children := [] |};
        NParagraph {| heading := None; alignment := None; spacing := Some (0, 80)%Z;
                      bullet := None; numbering := None; indent := None;
                      border_bottom := None;
                      children :=
                        [Run (mkTextRun (lit "Revenue gap: ") (Some false) (Some false)
                                (lit "000000") 22%Z (lit "Calibri"));
                         Run (mkTextRun (lit "$28,000") (Some true) (Some false)
                                (lit "000000") 22%Z (lit "Calibri"));
                         Run (mkTextRun (lit " per month") (Some false) (Some false)
                                (lit "000000") 22%Z (lit "Calibri"))] |}].
Proof.
  intro content.
  assert (H : Forall (fun l => no_marker l = true)
                (split content (lit (String "010" EmptyString)))).
  { vm_compute. repeat constructor. }
  split; [exact H|].
  refine (eq_trans (proj1 (renderMarkdown_plain_lines content H)) _).
  vm_compute. reflexivity.
Defined.

(* ================================================================= *)
(** ** Horizontal rules *)

Lemma re_numbered_head (line : str) (n : nat) :
  re_numbered line = Some n ->
  exists d t, is_digit d = true /\ trim line = d :: t.
Proof.
  unfold re_numbered. destruct line as [|d l]; [discriminate|].
  cbn [take_while]. destruct (is_digit d) eqn:Hd; [|discriminate].
  intros _. exists d. rewrite (trim_cons d l (is_digit_not_space d Hd)). now eexists.
Qed.

(** C3, as stated, fails: a line of four hyphens is made of three or more
    hyphens only and matches no earlier rule, yet it is rendered as body
    text. *)
Lemma hr_four_hyphens_counterexample :
  ~ (forall st line rest,
       all_hyphens (trim line) = true -> 3 <= length (trim line) ->
       no_earlier_marker line = true ->
       fst (fst (step st line rest)) = [horizontalRule]).
Proof.
  intro H. specialize (H initial_state (lit "----") []).
  assert (E : fst (fst (step initial_state (lit "----") []))
              = [bodyParagraph (lit "----")]) by (vm_compute; reflexivity).
  rewrite E in H.
  assert (H1 : all_hyphens (trim (lit "----")) = true) by (vm_compute; reflexivity).
  assert (H2 : 3 <= length (trim (lit "----"))) by (vm_compute; lia).
  assert (H3 : no_earlier_marker (lit "----") = true) by (vm_compute; reflexivity).
  specialize (H H1 H2 H3). vm_compute in H. discriminate H.
Qed.

(** A line starts with none of the markers tested on the raw line when
    its trimmed form starts with another character. *)
Lemma startsWith_other_head (line t p : str) (c d : char) :
  trim line = c :: t -> is_space d = false -> d <> c ->
  startsWith line (d :: p) = false.
Proof.
  intros E Hd Hne. destruct (startsWith line (d :: p)) eqn:Es; [|reflexivity].
  apply trim_head in Es as [t' Es]; [|exact Hd]. rewrite E in Es. congruence.
Qed.

(** Four or more hyphens take none of the rules before the plain-text
    rule. *)
Lemma step_long_hyphens (st : ScanState) (line : str) (rest : list str) :
  all_hyphens (trim line) = true -> 4 <= length (trim line) ->
  step st line rest
  = if inCover st && coverH1Done st && negb (coverSubtitleDone st) then
      ([subtitleParagraph (trim line)],
       {| h2Count := h2Count st; inCover := inCover st;
          coverH1Done := coverH1Done st; coverSubtitleDone := true |},
       rest)
    else ([bodyParagraph (trim line)], st, rest).
Proof.
  intros Hh Hlen.
  destruct (trim line) as [|c1 [|c2 [|c3 [|c4 t]]]] eqn:E;
    try (cbn [length] in Hlen; lia).
  unfold all_hyphens in Hh. cbn [forallb] in Hh.
  apply andb_true_iff in Hh as [H1 Hh]. apply andb_true_iff in Hh as [H2 Hh].
  apply andb_true_iff in Hh as [H3 Hh]. apply andb_true_iff in Hh as [H4 _].
  apply char_eqb_eq in H1, H2, H3, H4. subst c1 c2 c3 c4.
  unfold step. cbv zeta. rewrite E.
  set (tr := ch "-" :: ch "-" :: ch "-" :: ch "-" :: t) in *.
  replace (str_eqb tr (lit "[COVER_END]")) with false by (vm_compute; reflexivity).
  replace (startsWith tr (lit "> ")) with false by (vm_compute; reflexivity).
  replace (startsWith tr (lit "|")) with false by (vm_compute; reflexivity).
  cbn [andb].
  assert (N1 : forall d p, is_space d = false -> d <> ch "-" ->
                 startsWith line (d :: p) = false).
  { intros d p Hd Hne. exact (startsWith_other_head line _ p (ch "-") d E Hd Hne). }
  change (lit "# ") with (ch "#" :: lit " ").
  rewrite (N1 (ch "#") (lit " ")) by (vm_compute; first [reflexivity | discriminate]).
  change (lit "## ") with (ch "#" :: lit "# ").
  rewrite (N1 (ch "#") (lit "# ")) by (vm_compute; first [reflexivity | discriminate]).
  change (lit "### ") with (ch "#" :: lit "## ").
  rewrite (N1 (ch "#") (lit "## ")) by (vm_compute; first [reflexivity | discriminate]).
  change (lit "* ") with (ch "*" :: lit " ").
  rewrite (N1 (ch "*") (lit " ")) by (vm_compute; first [reflexivity | discriminate]).
  assert (N2 : startsWith line (lit "- ") = false).
  { destruct (startsWith line (lit "- ")) eqn:Es; [|reflexivity].
    change (lit "- ") with (ch "-" :: ch " " :: []) in Es.
    apply trim_head2 in Es as [Es | [t' Es]];
      [ | | vm_compute; reflexivity | vm_compute; reflexivity ];
      rewrite E in Es; unfold tr in Es; vm_compute in Es; discriminate Es. }
  rewrite N2. cbn [orb].
  destruct (re_numbered line) as [n|] eqn:En.
  { apply re_numbered_head in En as [d [t' [Hd Et]]]. rewrite E in Et.
    unfold tr in Et. injection Et as <- _. vm_compute in Hd. discriminate Hd. }
  replace (str_eqb tr (lit "---")) with false by (vm_compute; reflexivity).
  replace (str_eqb tr []) with false by reflexivity.
  reflexivity.
Qed.

Lemma all_hyphens_no_star (s : str) : all_hyphens s = true -> no_star s = true.
Proof.
  unfold all_hyphens, no_star. rewrite !forallb_forall. intros H x Hx.
  specialize (H x Hx). apply char_eqb_eq in H. subst x. reflexivity.
Qed.

(** C3 (amended): for every input line that, after trimming, is exactly
    three hyphens, the scanner emits exactly one empty paragraph carrying
    only a bottom border in the accent colour (spacing 120 and 120, no
    run), and moves to the next line with its state unchanged; no earlier
    rule applies to such a line.  A line that, after trimming, is four or
    more hyphens is not a horizontal rule: it takes the plain-text rule
    and is emitted as one paragraph without border whose only run is the
    hyphens themselves (the cover subtitle when one is due, a body
    paragraph otherwise). *)
Theorem horizontal_rule_three_hyphens (st : ScanState) (line : str) (rest : list str) :
  (trim line = lit "---" ->
   step st line rest
   = ([NParagraph {| heading := None; alignment := None; spacing := Some (120, 120)%Z;
                     bullet := None; numbering := None; indent := None;
                     border_bottom := Some (mkBorder ELECTRIC_BLUE 1 6);
                     children := [] |}],
      st, rest))
  /\ (all_hyphens (trim line) = true -> 4 <= length (trim line) ->
      step st line rest
      = if inCover st && coverH1Done st && negb (coverSubtitleDone st) then
          ([NParagraph {| heading := None; alignment := Some CENTER;
                          spacing := Some (0, 200)%Z;
                          bullet := None; numbering := None; indent := None;
                          border_bottom := None;
                          children := [Run (mkTextRun (trim line) None (Some true)
                                              MEDIUM_GRAY 26%Z (lit "Calibri"))] |}],
           {| h2Count := h2Count st; inCover := inCover st;
              coverH1Done := coverH1Done st; coverSubtitleDone := true |},
           rest)
        else
          ([NParagraph {| heading := None; alignment := None;
                          spacing := Some (0, 80)%Z;
                          bullet := None; numbering := None; indent := None;
                          border_bottom := None;
                          children := [Run (mkTextRun (trim line) (Some false)
                                              (Some false) BLACK 22%Z
                                              (lit "Calibri"))] |}],
           st, rest)).
Proof.
  split.
  - intro H. unfold step. cbv zeta. rewrite H.
    replace (str_eqb (lit "---") (lit "[COVER_END]")) with false by decide_prefix.
    replace (startsWith (lit "---") (lit "> ")) with false by decide_prefix.
    replace (startsWith (lit "---") (lit "|")) with false by decide_prefix.
    cbn [andb].
    assert (N1 : forall p, startsWith line (ch "#" :: p) = false).
    { intro p. destruct (startsWith line (ch "#" :: p)) eqn:E; [|reflexivity].
      apply trim_head in E as [t E]; [|vm_compute; reflexivity].
      rewrite H in E. vm_compute in E. discriminate E. }
    assert (N2 : forall c p, is_space c = false ->
                   startsWith line (c :: ch " " :: p) = false).
    { intros c p Hc. destruct (startsWith line (c :: ch " " :: p)) eqn:E; [|reflexivity].
      apply trim_head2 in E as [E | [t E]];
        [ | | exact Hc | vm_compute; reflexivity ];
        rewrite H in E; vm_compute in E; discriminate E. }
    change (lit "# ") with (ch "#" :: lit " ").
    change (lit "## ") with (ch "#" :: lit "# ").
    change (lit "### ") with (ch "#" :: lit "## ").
    rewrite !N1.
    change (lit "- ") with (ch "-" :: ch " " :: []).
    change (lit "* ") with (ch "*" :: ch " " :: []).
    rewrite !N2 by (vm_compute; reflexivity). cbn [orb].
    destruct (re_numbered line) as [n|] eqn:En.
    { apply re_numbered_head in En as [d [t [Hd E]]]. rewrite H in E.
      vm_compute in E. injection E as <- _. vm_compute in Hd. discriminate Hd. }
    rewrite str_eqb_refl. reflexivity.
  - intros Hh Hlen. rewrite (step_long_hyphens st line rest Hh Hlen).
    unfold bodyParagraph, subtitleParagraph.
    rewrite (parseInline_no_star (trim line) size22 (all_hyphens_no_star _ Hh)).
    destruct (trim line) as [|c t]; [cbn [length] in Hlen; lia|]. reflexivity.
Qed.

Lemma horizontal_rule_three_hyphens_witness :
  trim (lit "  ---  ") = lit "---"
  /\ step initial_state (lit "  ---  ") [lit "Next"]
     = ([horizontalRule], initial_state, [lit "Next"])
  /\ all_hyphens (trim (lit " -----")) = true
  /\ 4 <= length (trim (lit " -----"))
  /\ step initial_state (lit " -----") [lit "Next"]
     = ([NParagraph {| heading := None; alignment := None; spacing := Some (0, 80)%Z;
                       bullet := None; numbering := None; indent := None;
                       border_bottom := None;
                       children := [Run (mkTextRun (lit "-----") (Some false)
                                           (Some false) BLACK 22%Z (lit "Calibri"))] |}],
        initial_state, [lit "Next"]).
Proof.
  assert (H1 : trim (lit "  ---  ") = lit "---") by (vm_compute; reflexivity).
  assert (H2 : all_hyphens (trim (lit " -----")) = true) by (vm_compute; reflexivity).
  assert (H3 : 4 <= length (trim (lit " -----"))) by (vm_compute; lia).
  split; [exact H1|]. split.
  - exact (proj1 (horizontal_rule_three_hyphens initial_state (lit "  ---  ")
                    [lit "Next"]) H1).
  - split; [exact H2|]. split; [exact H3|].
    exact (proj2 (horizontal_rule_three_hyphens initial_state (lit " -----")
                    [lit "Next"]) H2 H3).
Defined.

(* ================================================================= *)
(** ** The cover title *)

Lemma no_amp_no_delimiter (a r : str) :
  no_amp a = true ->
  forall k, k < length a ->
  match_str (lit " & ") (skipn k (a ++ lit " & " ++ r)) = None.
Proof.
  induction a as [|x a IH]; intros Ha k Hk; [simpl in Hk; lia|].
  unfold no_amp in Ha. cbn [forallb] in Ha. apply andb_true_iff in Ha as [Hx Ha].
  destruct k as [|k].
  - cbn [skipn app]. unfold match_str.
    change (lit " & ") with (ch " " :: ch "&" :: ch " " :: []).
    cbn [startsWith].
    destruct a as [|y a]; cbn [app startsWith].
    + replace (char_eqb (ch "&") (ch " ")) with false by (vm_compute; reflexivity).
      cbn [andb]. now rewrite andb_false_r.
    + cbn [forallb] in Ha. apply andb_true_iff in Ha as [Hy _].
      apply negb_true_iff in Hy. unfold char_eqb in *. rewrite N.eqb_sym in Hy.
      rewrite Hy. cbn [andb]. now rewrite andb_false_r.
  - cbn [skipn app]. apply IH; [exact Ha | cbn [length] in Hk; lia].
Qed.

Lemma split_go_delimiter (a r : str) (fuel : nat) (piece : str) :
  no_amp a = true -> length a < fuel ->
  split_go (match_str (lit " & ")) false fuel piece (a ++ lit " & " ++ r)
  = (rev piece ++ a)
    :: split_go (match_str (lit " & ")) false (fuel - length a - 1) [] r.
Proof.
  intros Ha Hf. rewrite split_go_skip by (apply no_amp_no_delimiter; exact Ha).
  destruct (fuel - length a) as [|f] eqn:Ef; [lia|].
  change (lit " & " ++ r) with (ch " " :: ch "&" :: ch " " :: r).
  cbn [split_go].
  replace (match_str (lit " & ") (ch " " :: ch "&" :: ch " " :: r)) with (Some 3).
  2:{ unfold match_str. change (lit " & ") with (ch " " :: ch "&" :: ch " " :: []).
      cbn [startsWith]. unfold char_eqb. rewrite !N.eqb_refl, startsWith_nil.
      reflexivity. }
  cbn [skipn app]. rewrite rev_app_distr, rev_involutive.
  replace (S f - 1) with f by lia. reflexivity.
Qed.

(** A title with two delimiters: [split] with limit 2 keeps the text
    before the first delimiter and the text between the two, and drops
    what follows the second delimiter. *)
Lemma split_limit_two_delimiters (a b c : str) :
  no_amp a = true -> no_amp b = true ->
  split_limit (a ++ lit " & " ++ b ++ lit " & " ++ c) (lit " & ") 2 = [a; b].
Proof.
  intros Ha Hb. unfold split_limit, split, split_with.
  rewrite (split_go_delimiter a (b ++ lit " & " ++ c) _ [] Ha)
    by (rewrite !length_app; lia).
  rewrite (split_go_delimiter b c _ [] Hb)
    by (rewrite !length_app; change (length (lit " & ")) with 3; lia).
  reflexivity.
Qed.

(** C2 (the code departs from it): a title with two delimiters.  The
    claim puts everything after the first delimiter in line 2, which
    would read "& Heating & Cooling"; [split] with limit 2 keeps the
    first two pieces only, so line 2 reads "& Heating" and the rest of
    the title is lost. *)
Theorem cover_title_later_parts_dropped :
  renderMarkdown (lit "# Plumbing & Heating & Cooling")
  = [coverLine1 (lit "Plumbing"); coverLine2 (lit "Heating")]
  /\ coverLine2 (lit "Heating") <> coverLine2 (lit "Heating & Cooling")
  /\ split_limit (lit "Plumbing & Heating & Cooling") (lit " & ") 2
     = [lit "Plumbing"; lit "Heating"].
Proof.
  split; [vm_compute; reflexivity|]. split; [|vm_compute; reflexivity].
  vm_compute. discriminate.
Qed.

(** The first line of a split title is recognised, the second is not. *)
Lemma is_coverLine1_lines (t : str) :
  is_coverLine1 (coverLine1 t) = true /\ is_coverLine1 (coverLine2 t) = false.
Proof. split; reflexivity. Qed.

Lemma count_cover_splits_app (a b : list Node) :
  count_cover_splits (a ++ b) = count_cover_splits a + count_cover_splits b.
Proof. unfold count_cover_splits. now rewrite filter_app, length_app. Qed.

(** One iteration: no split once the title is done, at most one before,
    and a split sets the flag, which is never cleared. *)
Lemma step_cover_split (st : ScanState) (line : str) (rest : list str) :
  (coverH1Done st = true ->
     count_cover_splits (fst (fst (step st line rest))) = 0
     /\ coverH1Done (snd (fst (step st line rest))) = true)
  /\ (count_cover_splits (fst (fst (step st line rest))) = 0
      \/ count_cover_splits (fst (fst (step st line rest))) = 1
         /\ coverH1Done st = false
         /\ coverH1Done (snd (fst (step st line rest))) = true).
Proof.
  unfold step. cbv zeta.
  destruct (coverH1Done st) eqn:Hd; cbn [negb]; rewrite ?andb_false_r; cbn [andb];
  repeat match goal with
  | |- context [if ?c then _ else _] => destruct c
  | |- context [match re_numbered ?l with _ => _ end] => destruct (re_numbered l)
  | |- context [let '(_, _) := ?p in _] => destruct p
  end; cbn [fst snd coverH1Done];
  unfold calloutNodes, tableNodes;
  repeat match goal with
  | |- context [if ?c then _ else _] => destruct c
  | |- context [match ?o with Some _ => _ | None => _ end] => destruct o
  end;
  (split;
   [ intro; try discriminate; split; first [reflexivity | assumption]
   | first [ left; reflexivity
           | right; repeat split; first [reflexivity | assumption] ] ]).
Qed.

Lemma scan_cover_done (fuel : nat) :
  forall st lines, coverH1Done st = true ->
  count_cover_splits (scan fuel st lines) = 0.
Proof.
  induction fuel as [|fuel IH]; intros st lines Hd; [reflexivity|].
  destruct lines as [|line rest]; [reflexivity|].
  cbn [scan]. destruct (step_cover_split st line rest) as [H _].
  destruct (H Hd) as [H0 H1].
  destruct (step st line rest) as [[out st'] rest']. cbn [fst snd] in *.
  rewrite count_cover_splits_app, H0, (IH st' rest' H1). reflexivity.
Qed.

Lemma scan_cover_at_most_once (fuel : nat) :
  forall st lines, count_cover_splits (scan fuel st lines) <= 1.
Proof.
  induction fuel as [|fuel IH]; intros st lines; [cbv; lia|].
  destruct lines as [|line rest]; [cbv; lia|].
  cbn [scan]. destruct (step_cover_split st line rest) as [_ H].
  destruct (step st line rest) as [[out st'] rest']. cbn [fst snd] in *.
  rewrite count_cover_splits_app.
  destruct H as [H0 | [H1 [_ Hd]]].
  - rewrite H0. apply IH.
  - rewrite H1, (scan_cover_done fuel st' rest' Hd). lia.
Qed.

(** A line that starts with the H1 marker reaches the H1 branch. *)
Lemma step_h1 (st : ScanState) (line : str) (rest : list str) :
  startsWith line (lit "# ") = true ->
  step st line rest
  = let title := trim (slice_from 2 line) in
    if inCover st && negb (coverH1Done st) && includes title (lit " & ") then
      ([coverLine1 (nth 0 (split_limit title (lit " & ") 2) []);
        coverLine2 (nth 1 (split_limit title (lit " & ") 2) (lit "undefined"))],
       {| h2Count := h2Count st; inCover := inCover st; coverH1Done := true;
          coverSubtitleDone := coverSubtitleDone st |},
       rest)
    else ([bodyH1 title], st, rest).
Proof.
  intro H. unfold step. cbv zeta. rewrite H.
  change (lit "# ") with (ch "#" :: lit " ") in H.
  apply trim_head in H as [t E]; [|vm_compute; reflexivity]. rewrite E.
  replace (str_eqb (ch "#" :: t) (lit "[COVER_END]")) with false by (vm_compute; reflexivity).
  replace (startsWith (ch "#" :: t) (lit "> ")) with false by (vm_compute; reflexivity).
  replace (startsWith (ch "#" :: t) (lit "|")) with false by (vm_compute; reflexivity).
  reflexivity.
Qed.

(** An H1 line with the delimiter, met in cover mode before any title,
    is split: the count of splits is about this branch. *)
Lemma step_cover_split_counts (st : ScanState) (line : str) (rest : list str) :
  startsWith line (lit "# ") = true ->
  inCover st = true -> coverH1Done st = false ->
  includes (trim (slice_from 2 line)) (lit " & ") = true ->
  count_cover_splits (fst (fst (step st line rest))) = 1.
Proof.
  intros Hh Hc Hd Hi. rewrite (step_h1 st line rest Hh). cbv zeta.
  rewrite Hc, Hd, Hi. reflexivity.
Qed.

Lemma take_drop_while_boundary {A} (p : A -> bool) (r l2 : list A) (b : A) :
  p b = false ->
  take_while p (r ++ b :: l2) = take_while p r
  /\ drop_while p (r ++ b :: l2) = drop_while p r ++ b :: l2.
Proof.
  intro Hb. induction r as [|x r [IH1 IH2]]; cbn [app take_while drop_while].
  - rewrite Hb. split; reflexivity.
  - destruct (p x); [rewrite IH1, IH2|]; split; reflexivity.
Qed.

(** A line that is neither a blockquote line nor a pipe line ends every
    run before it: an iteration does not look past it. *)
Lemma step_boundary (st : ScanState) (line : str) (r l2 : list str) (b : str) :
  is_quote_line b = false -> is_pipe_line b = false ->
  step st line (r ++ b :: l2)
  = (fst (fst (step st line r)), snd (fst (step st line r)),
     snd (step st line r) ++ b :: l2).
Proof.
  intros Hq Hp. unfold step. cbv zeta.
  destruct (take_drop_while_boundary is_quote_line r l2 b Hq) as [Eq1 Eq2].
  destruct (take_drop_while_boundary is_pipe_line r l2 b Hp) as [Ep1 Ep2].
  rewrite Eq1, Eq2, Ep1, Ep2.
  repeat match goal with
  | |- context [if ?c then _ else _] => destruct c
  | |- context [match re_numbered ?l with _ => _ end] => destruct (re_numbered l)
  | |- context [let '(_, _) := ?p in _] => destruct p
  end; reflexivity.
Qed.

Lemma h1_line_not_in_run (h : str) :
  startsWith h (lit "# ") = true -> is_quote_line h = false /\ is_pipe_line h = false.
Proof.
  intro H. change (lit "# ") with (ch "#" :: lit " ") in H.
  apply trim_head in H as [t E]; [|vm_compute; reflexivity].
  unfold is_quote_line, is_pipe_line. rewrite E. split; vm_compute; reflexivity.
Qed.

(** The scan of a document up to such a line, and from it: the nodes of
    the lines before it do not depend on what follows, and the title flag
    is set at that line when it was set at the start or a title was split
    before. *)
Lemma scan_boundary (fuel : nat) :
  forall st l1 b l2, length l1 <= fuel ->
  is_quote_line b = false -> is_pipe_line b = false ->
  exists st1,
    scan (length (l1 ++ b :: l2)) st (l1 ++ b :: l2)
    = scan (length l1) st l1 ++ scan (S (length l2)) st1 (b :: l2)
    /\ (coverH1Done st = true \/ count_cover_splits (scan (length l1) st l1) = 1 ->
        coverH1Done st1 = true).
Proof.
  induction fuel as [|fuel IH]; intros st l1 b l2 Hlen Hq Hp.
  - destruct l1; [|simpl in Hlen; lia]. exists st. split.
    + reflexivity.
    + intros [H | H]; [exact H | discriminate H].
  - destruct l1 as [|line r].
    { exists st. split; [reflexivity|]. intros [H | H]; [exact H | discriminate H]. }
    cbn [length] in Hlen.
    change ((line :: r) ++ b :: l2) with (line :: (r ++ b :: l2)).
    cbn [length]. rewrite !scan_cons.
    rewrite (step_boundary st line r l2 b Hq Hp). cbn [fst snd].
    pose proof (step_rest_length st line r) as Hr.
    destruct (step_cover_split st line r) as [Hdone Hcount].
    destruct (step st line r) as [[out st'] r']. cbn [fst snd] in *.
    destruct (IH st' r' b l2 ltac:(lia) Hq Hp) as [st1 [E Hf]].
    exists st1. split.
    + rewrite E. now rewrite app_assoc.
    + intros [H | H].
      * apply Hf. left. now apply Hdone.
      * rewrite count_cover_splits_app in H.
        destruct Hcount as [H0 | [H1 [_ Hd]]].
        -- apply Hf. right. lia.
        -- apply Hf. now left.
Qed.

(** C8: the two-line cover title split occurs at most once per document:
    the output of [renderMarkdown] holds at most one first line of a
    split title.  In a document, every H1 line that comes after the split
    of a title, with or without the delimiter and whatever the cover
    mode, is rendered as the ordinary body heading (style Heading1,
    spacing 360 and 160, one bold dark blue run of size 40 holding the
    whole title), and no title is split after it.  For one iteration: the
    split sets the title flag, no iteration clears it, and with the flag
    set an H1 line gives that heading and leaves the state unchanged. *)
Theorem cover_split_at_most_once (content : str) (st : ScanState) (line : str)
  (rest : list str) (lines1 lines2 : list str) :
  count_cover_splits (renderMarkdown content) <= 1
  /\ (count_cover_splits (fst (fst (step st line rest))) = 1 ->
      coverH1Done (snd (fst (step st line rest))) = true)
  /\ (coverH1Done st = true ->
      coverH1Done (snd (fst (step st line rest))) = true
      /\ (startsWith line (lit "# ") = true ->
          step st line rest
          = ([NParagraph
                {| heading := Some (lit "Heading1"); alignment := None;
                   spacing := Some (360, 160)%Z;
                   bullet := None; numbering := None; indent := None;
                   border_bottom := None;
                   children := [Run (mkTextRun (trim (slice_from 2 line)) (Some true)
                                       None (lit "00184D") 40%Z (lit "Bebas Neue"))] |}],
             st, rest)))
  /\ (startsWith line (lit "# ") = true ->
      count_cover_splits (renderLines lines1) = 1 ->
      exists tail,
        renderLines (lines1 ++ line :: lines2)
        = renderLines lines1
          ++ NParagraph
               {| heading := Some (lit "Heading1"); alignment := None;
                  spacing := Some (360, 160)%Z;
                  bullet := None; numbering := None; indent := None;
                  border_bottom := None;
                  children := [Run (mkTextRun (trim (slice_from 2 line)) (Some true)
                                      None (lit "00184D") 40%Z (lit "Bebas Neue"))] |}
             :: tail
        /\ count_cover_splits tail = 0).
Proof.
  split; [apply scan_cover_at_most_once|].
  assert (Hbody : forall s l r, coverH1Done s = true -> startsWith l (lit "# ") = true ->
            step s l r = ([bodyH1 (trim (slice_from 2 l))], s, r)).
  { intros s l r Hd Hh. rewrite (step_h1 s l r Hh). cbv zeta.
    rewrite Hd. cbn [negb]. rewrite andb_false_r. reflexivity. }
  destruct (step_cover_split st line rest) as [Hdone Hcount]. split; [|split].
  - intro H1. destruct Hcount as [H0 | [_ [_ Hd]]]; [congruence | exact Hd].
  - intro Hd. split; [apply (Hdone Hd)|].
    intro Hh. rewrite (Hbody st line rest Hd Hh). reflexivity.
  - intros Hh Hone. destruct (h1_line_not_in_run line Hh) as [Hq Hp].
    unfold renderLines in *.
    destruct (scan_boundary (length lines1) initial_state lines1 line lines2
                (le_n _) Hq Hp) as [st1 [E Hf]].
    assert (Hd : coverH1Done st1 = true) by (apply Hf; now right).
    rewrite E, scan_cons, (Hbody st1 line lines2 Hd Hh). cbn [fst snd app].
    exists (scan (length lines2) st1 lines2). split; [reflexivity|].
    now apply scan_cover_done.
Qed.

Lemma cover_split_at_most_once_witness :
  let lines1 := [lit "# Acme & Sons"; lit "> Ready?"; lit "> - Call us"] in
  let h := lit "# Audit & Plan" in
  let lines2 := [lit "# Costs & Returns"] in
  startsWith h (lit "# ") = true
  /\ count_cover_splits (renderLines lines1) = 1
  /\ count_cover_splits (renderLines (lines1 ++ h :: lines2)) = 1
  /\ exists tail,
       renderLines (lines1 ++ h :: lines2)
       = renderLines lines1
         ++ NParagraph
              {| heading := Some (lit "Heading1"); alignment := None;
                 spacing := Some (360, 160)%Z;
                 bullet := None; numbering := None; indent := None;
                 border_bottom := None;
                 children := [Run (mkTextRun (lit "Audit & Plan") (Some true)
                                     None (lit "00184D") 40%Z (lit "Bebas Neue"))] |}
            :: tail
       /\ count_cover_splits tail = 0.
Proof.
  intros lines1 h lines2.
  assert (Hh : startsWith h (lit "# ") = true) by (vm_compute; reflexivity).
  assert (H1 : count_cover_splits (renderLines lines1) = 1) by (vm_compute; reflexivity).
  split; [exact Hh|]. split; [exact H1|]. split; [vm_compute; reflexivity|].
  exact (proj2 (proj2 (proj2 (cover_split_at_most_once [] initial_state h []
                                lines1 lines2))) Hh H1).
Defined.

(* ================================================================= *)
(** ** Blockquote runs *)

(** A line whose trimmed form starts with the quote marker reaches the
    blockquote branch. *)
Lemma step_quote (st : ScanState) (line : str) (rest : list str) :
  startsWith (trim line) (lit "> ") = true ->
  step st line rest
  = if existsb (fun pfx => startsWith (trim (slice_from 2 (trim line))) pfx)
         STATUS_PREFIXES
    then ([], st, rest)
    else
      let calloutLines :=
        map (fun l => trim (slice_from 2 (trim l)))
            (line :: take_while is_quote_line rest) in
      (calloutNodes (fst (callout_parts calloutLines)) (snd (callout_parts calloutLines)),
       st, drop_while is_quote_line rest).
Proof.
  intro H. unfold step. cbv zeta. rewrite H.
  change (lit "> ") with (ch ">" :: lit " ") in H.
  apply startsWith_cons_inv in H as [t [E _]].
  replace (str_eqb (trim line) (lit "[COVER_END]")) with false
    by (rewrite E; vm_compute; reflexivity).
  destruct (existsb _ STATUS_PREFIXES); [reflexivity|].
  destruct (callout_parts _); reflexivity.
Qed.

(** The content of a blockquote line, as the scanner collects it, ends
    with a character other than white space. *)
Lemma quote_content_not_blank (line : str) :
  startsWith (trim line) (lit "> ") = true ->
  exists u c, trim (slice_from 2 (trim line)) = u ++ [c] /\ is_space c = false.
Proof.
  intro H. change (lit "> ") with (ch ">" :: ch " " :: []) in H.
  apply startsWith_cons_inv in H as [s1 [E1 H]].
  apply startsWith_cons_inv in H as [s2 [E2 _]]. subst s1.
  destruct (trim_last line) as [E | [t [c [E Hc]]]]; [congruence|].
  rewrite E in E1. unfold slice_from.
  destruct t as [|a [|b t]]; cbn [app] in E1.
  - discriminate E1.
  - injection E1 as _ Ec _. subst c. vm_compute in Hc. discriminate Hc.
  - injection E1 as _ _ E3. rewrite E. cbn [app skipn]. subst s2.
    rewrite (trim_snoc t c Hc). now eexists _, _.
Qed.

(** In [renderMarkdown] the callout builder always has something to
    render: the box of a blockquote run is never [null]. *)
Lemma scanner_callout_box_not_null (line : str) (rest : list str) :
  startsWith (trim line) (lit "> ") = true ->
  let calloutLines :=
    map (fun l => trim (slice_from 2 (trim l))) (line :: take_while is_quote_line rest) in
  createCTABox (Some (fst (callout_parts calloutLines))) (snd (callout_parts calloutLines))
  <> None.
Proof.
  intros Hq calloutLines. subst calloutLines. cbn [map].
  destruct (quote_content_not_blank line Hq) as [u [c [E Hc]]]. rewrite E.
  unfold callout_parts.
  destruct (is_bold_line (u ++ [c])) eqn:Hb; cbn [fst snd];
    unfold createCTABox, cta_children.
  - pose proof (is_bold_line_inner (u ++ [c]) Hb) as Hne.
    destruct (slice_between 2 2 (u ++ [c])); [congruence|].
    cbn [truthy app length Nat.eqb]. discriminate.
  - cbn [truthy flat_map app].
    destruct (cta_body_line_not_blank u c Hc) as [p ->].
    cbn [app length Nat.eqb]. discriminate.
Qed.

(** A line that is the quote mark alone, white space around it or not,
    takes none of the rules before the plain-text rule: its trimmed form
    does not start with the quote mark followed by a space. *)
Lemma step_lone_quote_mark (st : ScanState) (line : str) (rest : list str) :
  trim line = lit ">" ->
  step st line rest
  = if inCover st && coverH1Done st && negb (coverSubtitleDone st) then
      ([subtitleParagraph (lit ">")],
       {| h2Count := h2Count st; inCover := inCover st;
          coverH1Done := coverH1Done st; coverSubtitleDone := true |},
       rest)
    else ([bodyParagraph (lit ">")], st, rest).
Proof.
  intro E. change (lit ">") with (ch ">" :: []) in E.
  unfold step. cbv zeta. rewrite E.
  replace (str_eqb [ch ">"] (lit "[COVER_END]")) with false by (vm_compute; reflexivity).
  replace (startsWith [ch ">"] (lit "> ")) with false by (vm_compute; reflexivity).
  replace (startsWith [ch ">"] (lit "|")) with false by (vm_compute; reflexivity).
  cbn [andb].
  assert (N1 : forall d p, is_space d = false -> d <> ch ">" ->
                 startsWith line (d :: p) = false).
  { intros d p Hd Hne. exact (startsWith_other_head line _ p (ch ">") d E Hd Hne). }
  change (lit "# ") with (ch "#" :: lit " ").
  rewrite (N1 (ch "#") (lit " ")) by (vm_compute; first [reflexivity | discriminate]).
  change (lit "## ") with (ch "#" :: lit "# ").
  rewrite (N1 (ch "#") (lit "# ")) by (vm_compute; first [reflexivity | discriminate]).
  change (lit "### ") with (ch "#" :: lit "## ").
  rewrite (N1 (ch "#") (lit "## ")) by (vm_compute; first [reflexivity | discriminate]).
  change (lit "* ") with (ch "*" :: lit " ").
  rewrite (N1 (ch "*") (lit " ")) by (vm_compute; first [reflexivity | discriminate]).
  change (lit "- ") with (ch "-" :: lit " ").
  rewrite (N1 (ch "-") (lit " ")) by (vm_compute; first [reflexivity | discriminate]).
  cbn [orb].
  destruct (re_numbered line) as [n|] eqn:En.
  { apply re_numbered_head in En as [d [t' [Hd Et]]]. rewrite E in Et.
    injection Et as <- _. vm_compute in Hd. discriminate Hd. }
  replace (str_eqb [ch ">"] (lit "---")) with false by (vm_compute; reflexivity).
  replace (str_eqb [ch ">"] []) with false by reflexivity.
  reflexivity.
Qed.

(** C10, as stated, fails: a run of lines that start with the quote
    marker and are blank after it does not contribute exactly two spacer
    paragraphs; each of its lines is rendered as a paragraph of text. *)
Lemma blank_callout_run_counterexample :
  ~ (forall lines : list str,
       lines <> [] ->
       Forall (fun l => startsWith l (lit "> ") = true
                        /\ is_blank (slice_from 2 l) = true) lines ->
       renderLines lines
       = [NParagraph {| heading := None; alignment := None; spacing := Some (80, 0)%Z;
                   bullet := None; numbering := None; indent := None;
                   border_bottom := None; children := [] |};
          NParagraph {| heading := None; alignment := None; spacing := Some (0, 120)%Z;
                   bullet := None; numbering := None; indent := None;
                   border_bottom := None; children := [] |}]).
Proof.
  intro H. specialize (H [lit "> "; lit ">  "]).
  assert (E : renderLines [lit "> "; lit ">  "]
              = [bodyParagraph (lit ">"); bodyParagraph (lit ">")])
    by (vm_compute; reflexivity).
  rewrite E in H.
  assert (H1 : [lit "> "; lit ">  "] <> []) by discriminate.
  assert (H2 : Forall (fun l => startsWith l (lit "> ") = true
                               /\ is_blank (slice_from 2 l) = true)
                 [lit "> "; lit ">  "]).
  { repeat constructor. }
  specialize (H H1 H2). vm_compute in H. discriminate H.
Qed.

(** C10 (amended): for a blockquote run whose first line is not
    status-prefixed the scanner pushes a spacer paragraph (80 before, 0
    after, no run), then the callout box unless the builder returned
    [null], then a spacer paragraph (0 before, 120 after, no run), and
    moves past the run with its state unchanged: the two spacers are
    pushed outside the test of the box.  For such a run the builder never
    returns [null], so the run contributes exactly three nodes, never the
    two spacers alone.  Only for a headline and body lines for which the
    builder returns [null], which the scanner never collects, is the
    output of the branch the two spacers.  A line that is the quote mark
    alone is not a blockquote line: it is rendered by the plain-text rule
    as a paragraph holding the quote mark (the cover subtitle when one is
    due, a body paragraph otherwise). *)
Theorem callout_spacers_unconditional (st : ScanState) (line : str) (rest : list str)
  (headline : str) (bodyLines : list str) :
  (startsWith (trim line) (lit "> ") = true ->
   existsb (fun pfx => startsWith (trim (slice_from 2 (trim line))) pfx) STATUS_PREFIXES
   = false ->
   let calloutLines :=
     map (fun l => trim (slice_from 2 (trim l)))
         (line :: take_while is_quote_line rest) in
   step st line rest
   = (NParagraph {| heading := None; alignment := None; spacing := Some (80, 0)%Z;
                   bullet := None; numbering := None; indent := None;
                   border_bottom := None; children := [] |}
        :: match createCTABox (Some (fst (callout_parts calloutLines)))
                   (snd (callout_parts calloutLines)) with
           | Some box => [NTable box]
           | None => []
           end
        ++ [NParagraph {| heading := None; alignment := None; spacing := Some (0, 120)%Z;
                   bullet := None; numbering := None; indent := None;
                   border_bottom := None; children := [] |}],
      st, drop_while is_quote_line rest)
   /\ exists box,
        createCTABox (Some (fst (callout_parts calloutLines)))
          (snd (callout_parts calloutLines)) = Some box
        /\ fst (fst (step st line rest))
           = [NParagraph {| heading := None; alignment := None; spacing := Some (80, 0)%Z;
                   bullet := None; numbering := None; indent := None;
                   border_bottom := None; children := [] |};
              NTable box;
              NParagraph {| heading := None; alignment := None; spacing := Some (0, 120)%Z;
                   bullet := None; numbering := None; indent := None;
                   border_bottom := None; children := [] |}])
  /\ (createCTABox (Some headline) bodyLines = None ->
      calloutNodes headline bodyLines
      = [NParagraph {| heading := None; alignment := None; spacing := Some (80, 0)%Z;
                   bullet := None; numbering := None; indent := None;
                   border_bottom := None; children := [] |};
         NParagraph {| heading := None; alignment := None; spacing := Some (0, 120)%Z;
                   bullet := None; numbering := None; indent := None;
                   border_bottom := None; children := [] |}])
  /\ (trim line = lit ">" ->
      step st line rest
      = if inCover st && coverH1Done st && negb (coverSubtitleDone st) then
          ([NParagraph {| heading := None; alignment := Some CENTER;
                          spacing := Some (0, 200)%Z;
                          bullet := None; numbering := None; indent := None;
                          border_bottom := None;
                          children := [Run (mkTextRun (lit ">") None (Some true)
                                              MEDIUM_GRAY 26%Z (lit "Calibri"))] |}],
           {| h2Count := h2Count st; inCover := inCover st;
              coverH1Done := coverH1Done st; coverSubtitleDone := true |},
           rest)
        else
          ([NParagraph {| heading := None; alignment := None;
                          spacing := Some (0, 80)%Z;
                          bullet := None; numbering := None; indent := None;
                          border_bottom := None;
                          children := [Run (mkTextRun (lit ">") (Some false)
                                              (Some false) BLACK 22%Z
                                              (lit "Calibri"))] |}],
           st, rest)).
Proof.
  split; [|split].
  - intros Hq Hs calloutLines.
    pose proof (scanner_callout_box_not_null line rest Hq) as Hn. cbv zeta in Hn.
    rewrite (step_quote st line rest Hq), Hs. cbv zeta. fold calloutLines in Hn |- *.
    unfold calloutNodes. cbn [fst].
    destruct (createCTABox (Some (fst (callout_parts calloutLines)))
                (snd (callout_parts calloutLines))) as [box|]; [|congruence].
    split; [reflexivity|]. exists box. split; reflexivity.
  - intro E. unfold calloutNodes. rewrite E. reflexivity.
  - intro E. rewrite (step_lone_quote_mark st line rest E).
    destruct (inCover st && coverH1Done st && negb (coverSubtitleDone st)); reflexivity.
Qed.

Lemma callout_spacers_unconditional_witness :
  let line := lit "> Ready to grow?" in
  let rest := [lit "> - Call us today"; lit "Thanks"] in
  (startsWith (trim line) (lit "> ") = true
   /\ existsb (fun pfx => startsWith (trim (slice_from 2 (trim line))) pfx)
        STATUS_PREFIXES = false
   /\ exists box,
        createCTABox (Some []) [lit "Ready to grow?"; lit "- Call us today"] = Some box
        /\ fst (fst (step initial_state line rest))
           = [NParagraph {| heading := None; alignment := None; spacing := Some (80, 0)%Z;
                   bullet := None; numbering := None; indent := None;
                   border_bottom := None; children := [] |};
              NTable box;
              NParagraph {| heading := None; alignment := None; spacing := Some (0, 120)%Z;
                   bullet := None; numbering := None; indent := None;
                   border_bottom := None; children := [] |}])
  /\ (createCTABox (Some []) [lit "  "; []] = None
      /\ calloutNodes [] [lit "  "; []]
         = [NParagraph {| heading := None; alignment := None; spacing := Some (80, 0)%Z;
                   bullet := None; numbering := None; indent := None;
                   border_bottom := None; children := [] |};
            NParagraph {| heading := None; alignment := None; spacing := Some (0, 120)%Z;
                   bullet := None; numbering := None; indent := None;
                   border_bottom := None; children := [] |}])
  /\ (trim (lit " > ") = lit ">"
      /\ step initial_state (lit " > ") rest
         = ([NParagraph {| heading := None; alignment := None;
                           spacing := Some (0, 80)%Z;
                           bullet := None; numbering := None; indent := None;
                           border_bottom := None;
                           children := [Run (mkTextRun (lit ">") (Some false)
                                               (Some false) BLACK 22%Z
                                               (lit "Calibri"))] |}],
            initial_state, rest)).
Proof.
  intros line rest.
  assert (H1 : startsWith (trim line) (lit "> ") = true) by (vm_compute; reflexivity).
  assert (H2 : existsb (fun pfx => startsWith (trim (slice_from 2 (trim line))) pfx)
                 STATUS_PREFIXES = false) by (vm_compute; reflexivity).
  assert (H3 : createCTABox (Some []) [lit "  "; []] = None) by (vm_compute; reflexivity).
  assert (H4 : trim (lit " > ") = lit ">") by (vm_compute; reflexivity).
  split; [|split].
  - split; [exact H1|]. split; [exact H2|].
    exact (proj2 (proj1 (callout_spacers_unconditional initial_state line rest [] [])
                    H1 H2)).
  - split; [exact H3|].
    exact (proj1 (proj2 (callout_spacers_unconditional initial_state line rest
                           [] [lit "  "; []])) H3).
  - split; [exact H4|].
    exact (proj2 (proj2 (callout_spacers_unconditional initial_state (lit " > ") rest
                           [] [])) H4).
Defined.

(* ================================================================= *)
(** ** More on strings *)

Lemma skipn_length_app {A} (a b : list A) : skipn (length a) (a ++ b) = b.
Proof. induction a as [|x a IH]; [reflexivity | exact IH]. Qed.

Lemma firstn_length_app {A} (a b : list A) : firstn (length a) (a ++ b) = a.
Proof. induction a as [|x a IH]; [reflexivity | cbn; now rewrite IH]. Qed.

Lemma startsWith_app (p s : str) : startsWith (p ++ s) p = true.
Proof.
  induction p as [|x p IH]; [apply startsWith_nil|].
  cbn [app startsWith]. unfold char_eqb. now rewrite N.eqb_refl, IH.
Qed.

Lemma take_while_app_stop {A} (p : A -> bool) (a r : list A) (x : A) :
  forallb p a = true -> p x = false -> take_while p (a ++ x :: r) = a.
Proof.
  intros Ha Hx. induction a as [|y a IH]; cbn [app take_while forallb] in *.
  - now rewrite Hx.
  - apply andb_true_iff in Ha as [Hy Ha]. rewrite Hy. now rewrite IH.
Qed.

Lemma nowhere_skipn (m : matcher) (s : str) :
  nowhere m s = true -> forall k, m (skipn k s) = None.
Proof.
  induction s as [|x s IH]; intros H k.
  - cbn [nowhere] in H. destruct k; cbn [skipn]; destruct (m []); congruence.
  - cbn [nowhere] in H. destruct (m (x :: s)) eqn:E; [discriminate|].
    destruct k as [|k]; [exact E | cbn [skipn]; now apply IH].
Qed.

Lemma match_emph_head (k : nat) (x : char) (s : str) :
  not_star x = true -> match_emph (S k) (x :: s) = None.
Proof.
  intro H. unfold match_emph. cbn [repeat startsWith].
  unfold not_star in H. apply negb_true_iff in H.
  unfold char_eqb in *. rewrite N.eqb_sym, H. reflexivity.
Qed.

Lemma match_emph_nil (k : nat) : match_emph (S k) [] = None.
Proof. reflexivity. Qed.

(** No emphasis pattern matches inside a text without star. *)
Lemma nowhere_no_star_app (k : nat) (a r : str) :
  no_star a = true ->
  nowhere (match_emph (S k)) (a ++ r) = nowhere (match_emph (S k)) r.
Proof.
  intro Ha. induction a as [|x a IH]; [reflexivity|].
  unfold no_star in Ha. cbn [forallb] in Ha. apply andb_true_iff in Ha as [Hx Ha].
  cbn [app nowhere]. rewrite (match_emph_head k x (a ++ r) Hx). now apply IH.
Qed.

Lemma nowhere_no_star (k : nat) (a : str) :
  no_star a = true -> nowhere (match_emph (S k)) a = true.
Proof.
  intro Ha. rewrite <- (app_nil_r a). rewrite (nowhere_no_star_app k a [] Ha).
  reflexivity.
Qed.

Lemma no_star_no_match (k : nat) (a r : str) :
  no_star a = true ->
  forall j, j < length a -> match_emph (S k) (skipn j (a ++ r)) = None.
Proof.
  induction a as [|x a IH]; intros Ha j Hj; [simpl in Hj; lia|].
  unfold no_star in Ha. cbn [forallb] in Ha. apply andb_true_iff in Ha as [Hx Ha].
  destruct j as [|j].
  - cbn [skipn app]. now apply match_emph_head.
  - cbn [skipn app]. apply IH; [exact Ha | cbn [length] in Hj; lia].
Qed.

(** A span: the delimiter, a non-empty body without star, the delimiter. *)
Lemma match_emph_span (k : nat) (b c : str) :
  no_star b = true -> b <> [] ->
  match_emph (S k) (stars (S k) ++ b ++ stars (S k) ++ c)
  = Some (S k + length b + S k).
Proof.
  intros Hb Hne. unfold match_emph. fold (stars (S k)).
  rewrite startsWith_app.
  replace (skipn (S k) (stars (S k) ++ b ++ stars (S k) ++ c))
    with (b ++ stars (S k) ++ c).
  2:{ symmetry. replace (S k) with (length (stars (S k))) at 1
        by apply repeat_length. apply skipn_length_app. }
  assert (Et : take_while not_star (b ++ stars (S k) ++ c) = b).
  { unfold stars. cbn [repeat app]. apply take_while_app_stop; [exact Hb|].
    unfold not_star, char_eqb. now rewrite N.eqb_refl. }
  rewrite Et. destruct b as [|x b]; [congruence|].
  replace (skipn (S k + length (x :: b)) (stars (S k) ++ (x :: b) ++ stars (S k) ++ c))
    with (stars (S k) ++ c).
  2:{ symmetry. rewrite app_assoc.
      replace (S k + length (x :: b)) with (length (stars (S k) ++ x :: b))
        by (rewrite length_app; unfold stars; now rewrite repeat_length).
      apply skipn_length_app. }
  now rewrite startsWith_app.
Qed.

(** The scan up to the first match: the piece before it, the matched
    text when it is captured, and the scan of what follows. *)
Lemma split_with_first_match (m : matcher) (cap : bool) (a r : str) (n : nat) :
  (forall j, j < length a -> m (skipn j (a ++ r)) = None) ->
  m r = Some (S n) -> S n <= length r ->
  split_with m cap (a ++ r)
  = a :: (if cap then [firstn (S n) r] else []) ++ split_with m cap (skipn (S n) r).
Proof.
  intros Ha Hm Hn. unfold split_with.
  rewrite (split_go_skip m cap a r _ [] Ha).
  rewrite length_app.
  replace (S (length a + length r) - length a) with (S (length r)) by lia.
  destruct r as [|c r]; [simpl in Hn; lia|].
  remember (split_go m cap (S (length (skipn (S n) (c :: r)))) []
              (skipn (S n) (c :: r))) as rhs eqn:Er.
  cbn [split_go]. rewrite Hm. rewrite app_nil_r, rev_involutive.
  f_equal. f_equal. subst rhs. apply split_go_fuel.
  - rewrite length_skipn. cbn [length]. lia.
  - lia.
Qed.

Lemma split_with_nowhere (m : matcher) (cap : bool) (s : str) :
  nowhere m s = true -> split_with m cap s = [s].
Proof.
  intro H. unfold split_with. rewrite split_go_no_match; [reflexivity|].
  now apply nowhere_skipn.
Qed.

Lemma length_stars (k : nat) : length (stars k) = k.
Proof. apply repeat_length. Qed.

Lemma split_with_span (k : nat) (a b c : str) :
  no_star a = true -> no_star b = true -> b <> [] ->
  split_with (match_emph (S k)) true (a ++ stars (S k) ++ b ++ stars (S k) ++ c)
  = a :: (stars (S k) ++ b ++ stars (S k)) :: split_with (match_emph (S k)) true c.
Proof.
  intros Ha Hb Hne.
  rewrite (split_with_first_match (match_emph (S k)) true a _ (k + length b + S k)).
  - cbn [app]. f_equal.
    replace (S (k + length b + S k)) with (length (stars (S k) ++ b ++ stars (S k)))
      by (rewrite !length_app, !length_stars; lia).
    replace (stars (S k) ++ b ++ stars (S k) ++ c)
      with ((stars (S k) ++ b ++ stars (S k)) ++ c) by (now rewrite <- !app_assoc).
    now rewrite firstn_length_app, skipn_length_app.
  - apply no_star_no_match. exact Ha.
  - rewrite (match_emph_span k b c Hb Hne). f_equal.
  - rewrite !length_app, !length_stars. lia.
Qed.

Lemma is_emph_part_span (k : nat) (b : str) :
  b <> [] -> is_emph_part (S k) (stars (S k) ++ b ++ stars (S k)) = true.
Proof.
  intro Hne. unfold is_emph_part. fold (stars (S k)).
  rewrite startsWith_app. unfold endsWith.
  rewrite !rev_app_distr, <- app_assoc.
  assert (Er : rev (stars (S k)) = stars (S k)).
  { unfold stars. generalize (S k). intro n. induction n as [|n IH]; [reflexivity|].
    cbn [repeat rev]. rewrite IH. clear IH.
    induction n as [|n IH]; [reflexivity | cbn [repeat app]; now rewrite IH]. }
  rewrite Er, startsWith_app. cbn [andb].
  apply Nat.ltb_lt. rewrite !length_app, !length_stars.
  destruct b; [congruence | cbn [length]; lia].
Qed.

Lemma slice_between_span (k : nat) (b : str) :
  slice_between k k (stars k ++ b ++ stars k) = b.
Proof.
  unfold slice_between. rewrite !length_app, !length_stars.
  replace (skipn k (stars k ++ b ++ stars k)) with (b ++ stars k).
  2:{ symmetry. replace k with (length (stars k)) at 1 by apply length_stars.
      apply skipn_length_app. }
  replace (k + (length b + k) - k - k) with (length b) by lia.
  apply firstn_length_app.
Qed.

(** The inner function of [parseInline], on one piece of the bold split. *)
Lemma parseInline_single_piece (txt : str) (opts : InlineOpts) :
  split_with re_bold true txt = [txt] ->
  parseInline txt opts
  = if is_emph_part 2 txt then
      [mkTextRun (slice_between 2 2 txt) (Some true)
         (Some (or_default false (o_italic opts)))
         (or_default BLACK (o_color opts)) (or_default 22%Z (o_size opts))
         (or_default (lit "Calibri") (o_font opts))]
    else
      flat_map (fun sub =>
        if is_emph_part 1 sub then
          [mkTextRun (slice_between 1 1 sub) (Some (or_default false (o_bold opts)))
             (Some true)
             (or_default BLACK (o_color opts)) (or_default 22%Z (o_size opts))
             (or_default (lit "Calibri") (o_font opts))]
        else if negb (is_empty sub) then [base_run sub opts]
        else [])
        (split_with re_italic true txt).
Proof.
  intro H. unfold parseInline. rewrite H. cbn [flat_map]. now rewrite app_nil_r.
Qed.

(** X2: a bold span in a text: when the text before the span and the
    body of the span have no star and the body is not empty,
    [parseInline] returns the runs of the text before (one plain run, or
    none when it is empty), then one bold run holding the body without its
    delimiters, in the base colour, size, font and italic flag, then the
    runs of whatever follows the span. *)
Theorem parseInline_bold_span (a b c : str) (opts : InlineOpts) :
  no_star a = true -> no_star b = true -> b <> [] ->
  parseInline (a ++ stars 2 ++ b ++ stars 2 ++ c) opts
  = (if is_empty a then [] else [base_run a opts])
    ++ [mkTextRun b (Some true) (Some (or_default false (o_italic opts)))
          (or_default BLACK (o_color opts)) (or_default 22%Z (o_size opts))
          (or_default (lit "Calibri") (o_font opts))]
    ++ parseInline c opts.
Proof.
  intros Ha Hb Hne. unfold parseInline at 1.
  change re_bold with (match_emph 2).
  rewrite (split_with_span 1 a b c Ha Hb Hne). cbn [flat_map].
  rewrite (is_emph_part_span 1 b Hne), (slice_between_span 2 b).
  rewrite (is_emph_part_no_star 1 a Ha).
  f_equal.
  change re_italic with (match_emph 1).
  rewrite (split_emph_no_star 0 a Ha). cbn [flat_map].
  rewrite (is_emph_part_no_star 0 a Ha). rewrite app_nil_r.
  destruct a; reflexivity.
Qed.

Lemma parseInline_bold_span_witness :
  no_star (lit "Score: ") = true /\ no_star (lit "63/100") = true /\ lit "63/100" <> []
  /\ parseInline (lit "Score: **63/100** overall") size22
     = [mkTextRun (lit "Score: ") (Some false) (Some false) BLACK 22%Z (lit "Calibri");
        mkTextRun (lit "63/100") (Some true) (Some false) BLACK 22%Z (lit "Calibri");
        mkTextRun (lit " overall") (Some false) (Some false) BLACK 22%Z (lit "Calibri")].
Proof.
  assert (H1 : no_star (lit "Score: ") = true) by (vm_compute; reflexivity).
  assert (H2 : no_star (lit "63/100") = true) by (vm_compute; reflexivity).
  assert (H3 : lit "63/100" <> []) by (vm_compute; discriminate).
  split; [exact H1|]. split; [exact H2|]. split; [exact H3|].
  change (lit "Score: **63/100** overall")
    with (lit "Score: " ++ stars 2 ++ lit "63/100" ++ stars 2 ++ lit " overall").
  rewrite (parseInline_bold_span (lit "Score: ") (lit "63/100") (lit " overall")
             size22 H1 H2 H3).
  vm_compute. reflexivity.
Defined.

Lemma slice_between_nonempty (k : nat) (s : str) :
  2 * k < length s -> slice_between k k s <> [].
Proof.
  intros H E. apply (f_equal (@length _)) in E. unfold slice_between in E.
  rewrite length_firstn, length_skipn in E. cbn [length] in E. lia.
Qed.

(** X1: every run [parseInline] returns has a non-empty text and the base
    colour, size and font of the call (given or defaulted): emphasis only
    changes the bold and italic flags, and empty segments give no run. *)
Theorem parseInline_runs_styled (txt : str) (opts : InlineOpts) :
  Forall (fun r =>
            text r <> []
            /\ color r = or_default BLACK (o_color opts)
            /\ size r = or_default 22%Z (o_size opts)
            /\ font r = or_default (lit "Calibri") (o_font opts)
            /\ (bold r = Some true \/ bold r = Some (or_default false (o_bold opts)))
            /\ (italics r = Some true
                \/ italics r = Some (or_default false (o_italic opts))))
         (parseInline txt opts).
Proof.
  unfold parseInline. apply Forall_flat_map. apply Forall_forall. intros part _.
  destruct (is_emph_part 2 part) eqn:E2.
  - constructor; [|constructor]. cbn [text color size font bold italics].
    repeat split; auto.
    apply slice_between_nonempty. unfold is_emph_part in E2.
    apply andb_true_iff in E2 as [_ E2]. now apply Nat.ltb_lt in E2.
  - apply Forall_flat_map. apply Forall_forall. intros sub _.
    destruct (is_emph_part 1 sub) eqn:E1.
    + constructor; [|constructor]. cbn [text color size font bold italics].
      repeat split; auto.
      apply slice_between_nonempty. unfold is_emph_part in E1.
      apply andb_true_iff in E1 as [_ E1]. now apply Nat.ltb_lt in E1.
    + destruct sub as [|x sub]; cbn [is_empty negb]; constructor; [|constructor].
      cbn [text color size font bold italics]. repeat split; auto. discriminate.
Qed.

Lemma is_emph_part2_single_stars (a b c : str) :
  no_star a = true -> b <> [] -> no_star b = true ->
  is_emph_part 2 (a ++ stars 1 ++ b ++ stars 1 ++ c) = false.
Proof.
  intros Ha Hne Hb. unfold is_emph_part.
  destruct a as [|x a].
  - destruct b as [|y b]; [congruence|].
    unfold no_star in Hb. cbn [forallb] in Hb. apply andb_true_iff in Hb as [Hy _].
    unfold not_star in Hy. apply negb_true_iff in Hy.
    cbn [app stars repeat startsWith]. unfold char_eqb in *.
    rewrite N.eqb_refl, (N.eqb_sym STAR y), Hy. reflexivity.
  - unfold no_star in Ha. cbn [forallb] in Ha. apply andb_true_iff in Ha as [Hx _].
    unfold not_star in Hx. apply negb_true_iff in Hx.
    cbn [app repeat startsWith]. unfold char_eqb in *.
    rewrite (N.eqb_sym STAR x), Hx. reflexivity.
Qed.

Lemma nowhere_bold_single_stars (a b c : str) :
  no_star a = true -> b <> [] -> no_star b = true -> no_star c = true ->
  nowhere (match_emph 2) (a ++ stars 1 ++ b ++ stars 1 ++ c) = true.
Proof.
  intros Ha Hne Hb Hc. rewrite (nowhere_no_star_app 1 a _ Ha).
  assert (Hs : forall t, (match t with [] => True | x :: _ => not_star x = true end) ->
               match_emph 2 (STAR :: t) = None).
  { intros t Ht. unfold match_emph.
    destruct t as [|x t]; cbn [repeat startsWith]; [now rewrite andb_false_r|].
    unfold not_star in Ht. apply negb_true_iff in Ht. unfold char_eqb in *.
    rewrite N.eqb_refl, (N.eqb_sym STAR x), Ht. reflexivity. }
  cbn [stars repeat app nowhere]. rewrite Hs.
  2:{ destruct b as [|y b]; [congruence|]. cbn [app].
      unfold no_star in Hb. cbn [forallb] in Hb. now apply andb_true_iff in Hb as [Hy _]. }
  destruct b as [|y b]; [congruence|].
  change ((y :: b) ++ STAR :: c) with ((y :: b) ++ [STAR] ++ c).
  cbn [app]. fold (nowhere (match_emph 2) (y :: b ++ STAR :: c)).
  change (y :: b ++ STAR :: c) with ((y :: b) ++ STAR :: c).
  rewrite (nowhere_no_star_app 1 (y :: b) _ Hb).
  cbn [nowhere]. rewrite Hs.
  2:{ destruct c as [|z c]; [exact I|].
      unfold no_star in Hc. cbn [forallb] in Hc. now apply andb_true_iff in Hc as [Hz _]. }
  now apply nowhere_no_star.
Qed.

(** X3: an italic span in a text without any other star: [parseInline]
    returns the plain run of the text before the span (none when it is
    empty), one italic run holding the body without its delimiters, with
    the base bold flag, and the plain run of the text after the span (none
    when it is empty). *)
Theorem parseInline_italic_span (a b c : str) (opts : InlineOpts) :
  no_star a = true -> no_star b = true -> b <> [] -> no_star c = true ->
  parseInline (a ++ stars 1 ++ b ++ stars 1 ++ c) opts
  = (if is_empty a then [] else [base_run a opts])
    ++ [mkTextRun b (Some (or_default false (o_bold opts))) (Some true)
          (or_default BLACK (o_color opts)) (or_default 22%Z (o_size opts))
          (or_default (lit "Calibri") (o_font opts))]
    ++ (if is_empty c then [] else [base_run c opts]).
Proof.
  intros Ha Hb Hne Hc.
  rewrite parseInline_single_piece
    by (apply split_with_nowhere; now apply nowhere_bold_single_stars).
  rewrite (is_emph_part2_single_stars a b c Ha Hne Hb).
  change re_italic with (match_emph 1).
  rewrite (split_with_span 0 a b c Ha Hb Hne).
  rewrite (split_emph_no_star 0 c Hc). cbn [flat_map].
  rewrite (is_emph_part_no_star 0 a Ha), (is_emph_part_no_star 0 c Hc).
  rewrite (is_emph_part_span 0 b Hne), (slice_between_span 1 b).
  rewrite app_nil_r. destruct a, c; reflexivity.
Qed.

Lemma parseInline_italic_span_witness :
  no_star (lit "see ") = true /\ no_star (lit "note") = true /\ lit "note" <> []
  /\ no_star (lit " below") = true
  /\ parseInline (lit "see *note* below") no_opts
     = [mkTextRun (lit "see ") (Some false) (Some false) BLACK 22%Z (lit "Calibri");
        mkTextRun (lit "note") (Some false) (Some true) BLACK 22%Z (lit "Calibri");
        mkTextRun (lit " below") (Some false) (Some false) BLACK 22%Z (lit "Calibri")].
Proof.
  assert (H1 : no_star (lit "see ") = true) by (vm_compute; reflexivity).
  assert (H2 : no_star (lit "note") = true) by (vm_compute; reflexivity).
  assert (H3 : lit "note" <> []) by (vm_compute; discriminate).
  assert (H4 : no_star (lit " below") = true) by (vm_compute; reflexivity).
  split; [exact H1|]. split; [exact H2|]. split; [exact H3|]. split; [exact H4|].
  change (lit "see *note* below")
    with (lit "see " ++ stars 1 ++ lit "note" ++ stars 1 ++ lit " below").
  rewrite (parseInline_italic_span (lit "see ") (lit "note") (lit " below")
             no_opts H1 H2 H3 H4).
  vm_compute. reflexivity.
Defined.

(* ================================================================= *)
(** ** Stripping emphasis *)

Lemma replace_go_no_match (m : matcher) (f : str -> str) (s : str) :
  forall fuel, (forall k, m (skipn k s) = None) -> replace_go m f fuel s = s.
Proof.
  induction s as [|c s IH]; intros fuel Hm.
  - destruct fuel; reflexivity.
  - destruct fuel as [|fuel]; [reflexivity|].
    pose proof (Hm 0) as H0. cbn [skipn] in H0. cbn [replace_go]. rewrite H0.
    f_equal. apply IH. intro k. exact (Hm (S k)).
Qed.

Lemma replace_go_skip (m : matcher) (f : str -> str) (a r : str) :
  forall fuel,
  (forall k, k < length a -> m (skipn k (a ++ r)) = None) ->
  replace_go m f fuel (a ++ r) = a ++ replace_go m f (fuel - length a) r.
Proof.
  induction a as [|x a IH]; intros fuel Hm.
  - cbn [app length]. now rewrite Nat.sub_0_r.
  - destruct fuel as [|fuel]; [reflexivity|].
    cbn [app length Nat.sub replace_go].
    pose proof (Hm 0 (Nat.lt_0_succ _)) as H0. cbn [skipn app] in H0. rewrite H0.
    f_equal. apply IH. intros k Hk. apply (Hm (S k)). cbn [length]. lia.
Qed.

Lemma replace_all_nowhere (m : matcher) (f : str -> str) (s : str) :
  nowhere m s = true -> replace_all m f s = s.
Proof.
  intro H. unfold replace_all. apply replace_go_no_match. now apply nowhere_skipn.
Qed.

Lemma replace_all_first_match (m : matcher) (f : str -> str) (a r : str) (n : nat) :
  (forall j, j < length a -> m (skipn j (a ++ r)) = None) ->
  m r = Some (S n) -> S n <= length r ->
  replace_all m f (a ++ r)
  = a ++ f (firstn (S n) r) ++ replace_all m f (skipn (S n) r).
Proof.
  intros Ha Hm Hn. unfold replace_all.
  rewrite (replace_go_skip m f a r _ Ha). f_equal.
  rewrite length_app.
  replace (S (length a + length r) - length a) with (S (length r)) by lia.
  destruct r as [|c r]; [simpl in Hn; lia|].
  remember (replace_go m f (S (length (skipn (S n) (c :: r)))) (skipn (S n) (c :: r)))
    as rhs eqn:Er.
  cbn [replace_go]. rewrite Hm. f_equal. subst rhs. apply replace_go_fuel.
  - rewrite length_skipn. cbn [length]. lia.
  - lia.
Qed.

Lemma replace_all_span (k : nat) (a b c : str) :
  no_star a = true -> no_star b = true -> b <> [] -> no_star c = true ->
  replace_all (match_emph (S k)) (slice_between (S k) (S k))
    (a ++ stars (S k) ++ b ++ stars (S k) ++ c)
  = a ++ b ++ c.
Proof.
  intros Ha Hb Hne Hc.
  rewrite (replace_all_first_match _ _ a _ (k + length b + S k)).
  - f_equal.
    replace (S (k + length b + S k)) with (length (stars (S k) ++ b ++ stars (S k)))
      by (rewrite !length_app, !length_stars; lia).
    replace (stars (S k) ++ b ++ stars (S k) ++ c)
      with ((stars (S k) ++ b ++ stars (S k)) ++ c) by (now rewrite <- !app_assoc).
    rewrite firstn_length_app, skipn_length_app, slice_between_span.
    f_equal. apply replace_all_nowhere. now apply nowhere_no_star.
  - apply no_star_no_match. exact Ha.
  - rewrite (match_emph_span k b c Hb Hne). f_equal.
  - rewrite !length_app, !length_stars. lia.
Qed.

Lemma no_star_app (a b : str) :
  no_star a = true -> no_star b = true -> no_star (a ++ b) = true.
Proof. unfold no_star. intros Ha Hb. rewrite forallb_app. now rewrite Ha, Hb. Qed.

Lemma stripMd_no_star (s : str) : no_star s = true -> stripMd s = trim s.
Proof.
  intro H. unfold stripMd.
  change re_bold with (match_emph 2). change re_italic with (match_emph 1).
  rewrite (replace_all_nowhere (match_emph 2)) by now apply nowhere_no_star.
  rewrite (replace_all_nowhere (match_emph 1)) by now apply nowhere_no_star.
  reflexivity.
Qed.

Lemma stripMd_span (k : nat) (a b c : str) :
  k = 1 \/ k = 2 ->
  no_star a = true -> no_star b = true -> b <> [] -> no_star c = true ->
  stripMd (a ++ stars k ++ b ++ stars k ++ c) = trim (a ++ b ++ c).
Proof.
  intros Hk Ha Hb Hne Hc. unfold stripMd.
  change re_bold with (match_emph 2). change re_italic with (match_emph 1).
  destruct Hk as [-> | ->].
  - rewrite (replace_all_nowhere (match_emph 2))
      by now apply nowhere_bold_single_stars.
    now rewrite (replace_all_span 0 a b c Ha Hb Hne Hc).
  - rewrite (replace_all_span 1 a b c Ha Hb Hne Hc).
    rewrite (replace_all_nowhere (match_emph 1)); [reflexivity|].
    apply nowhere_no_star. repeat apply no_star_app; assumption.
Qed.

(** X4: [stripMd] on a text with one bold or italic span and no other
    star removes the two delimiters and trims the result; a text without
    star is only trimmed. *)
Theorem stripMd_removes_span (k : nat) (a b c : str) :
  k = 1 \/ k = 2 ->
  no_star a = true -> no_star b = true -> b <> [] -> no_star c = true ->
  stripMd (a ++ stars k ++ b ++ stars k ++ c) = trim (a ++ b ++ c)
  /\ stripMd (a ++ b ++ c) = trim (a ++ b ++ c).
Proof.
  intros Hk Ha Hb Hne Hc. split.
  - now apply stripMd_span.
  - apply stripMd_no_star. repeat apply no_star_app; assumption.
Qed.

Lemma stripMd_removes_span_witness :
  (2 = 1 \/ 2 = 2) /\ no_star (lit " Total ") = true /\ no_star (lit "42") = true
  /\ lit "42" <> [] /\ no_star (lit " leads ") = true
  /\ stripMd (lit " Total **42** leads ") = lit "Total 42 leads".
Proof.
  assert (H1 : no_star (lit " Total ") = true) by (vm_compute; reflexivity).
  assert (H2 : no_star (lit "42") = true) by (vm_compute; reflexivity).
  assert (H3 : lit "42" <> []) by (vm_compute; discriminate).
  assert (H4 : no_star (lit " leads ") = true) by (vm_compute; reflexivity).
  split; [now right|]. split; [exact H1|]. split; [exact H2|]. split; [exact H3|].
  split; [exact H4|].
  change (lit " Total **42** leads ")
    with (lit " Total " ++ stars 2 ++ lit "42" ++ stars 2 ++ lit " leads ").
  rewrite (proj1 (stripMd_removes_span 2 (lit " Total ") (lit "42") (lit " leads ")
                    (or_intror eq_refl) H1 H2 H3 H4)).
  vm_compute. reflexivity.
Defined.

Lemma no_star_trim (s : str) : no_star s = true -> no_star (trim s) = true.
Proof.
  unfold no_star. rewrite !forallb_forall. intros H x Hx. apply H.
  unfold trim in Hx. apply in_rev in Hx.
  destruct (drop_while_suffix is_space (rev (drop_while is_space s))) as [p1 [E1 _]].
  destruct (drop_while_suffix is_space s) as [p2 [E2 _]].
  rewrite E2. apply in_or_app. right. apply in_rev. rewrite E1.
  apply in_or_app. now right.
Qed.

(** X5: a table cell that is one bold or italic span is rendered by
    [createDataRow] as a single plain run of the trimmed body: the
    emphasis is stripped before the text is tokenized, so the run is
    neither bold nor italic. *)
Theorem data_cell_emphasis_stripped (k : nat) (b : str) (ws : list Z) (o : RowOptions) :
  k = 1 \/ k = 2 -> no_star b = true -> trim b <> [] ->
  createDataRow [stars k ++ b ++ stars k] ws o
  = mkTableRow
      [ {| fill := or_default WHITE (bgColor o);
           width := Some (width_or_2000 ws 0);
           margins := None;
           cell_children :=
             [ {| heading := None; alignment := None; spacing := Some (60, 60)%Z;
                  bullet := None; numbering := None; indent := None;
                  border_bottom := None;
                  children :=
                    [Run (mkTextRun (trim b) (Some false) (Some false)
                            (or_default BLACK (textColor o)) 20%Z (lit "Calibri"))]
               |} ] |} ].
Proof.
  intros Hk Hb Hne. unfold createDataRow, mapi. cbn [mapi_from].
  assert (Hb' : b <> []) by (intros ->; apply Hne; reflexivity).
  pose proof (stripMd_span k [] b [] Hk eq_refl Hb Hb' eq_refl) as E.
  cbn [app] in E. rewrite !app_nil_r in E. rewrite E.
  rewrite parseInline_no_star by now apply no_star_trim.
  destruct (trim b) as [|x t]; [congruence|]. reflexivity.
Qed.

Lemma data_cell_emphasis_stripped_witness :
  (2 = 1 \/ 2 = 2) /\ no_star (lit "Rewire") = true /\ trim (lit "Rewire") <> []
  /\ map (fun c => map children (cell_children c))
       (cells (createDataRow [lit "**Rewire**"] [9360%Z]
                 {| bgColor := None; textColor := None |}))
     = [[[Run (mkTextRun (lit "Rewire") (Some false) (Some false) BLACK 20%Z
                 (lit "Calibri"))]]].
Proof.
  assert (H1 : no_star (lit "Rewire") = true) by (vm_compute; reflexivity).
  assert (H2 : trim (lit "Rewire") <> []) by (vm_compute; discriminate).
  split; [now right|]. split; [exact H1|]. split; [exact H2|].
  exact (f_equal (fun r => map (fun c => map children (cell_children c)) (cells r))
           (data_cell_emphasis_stripped 2 (lit "Rewire") [9360%Z]
              {| bgColor := None; textColor := None |} (or_intror eq_refl) H1 H2)).
Defined.

(* ================================================================= *)
(** ** More on the table parser *)

Lemma table_line_skipped (acc : list str * list (list str)) (line : str) :
  is_table_row line = false -> table_line acc line = acc.
Proof.
  unfold is_table_row, table_line. destruct acc as [hs rs]. intro H.
  destruct (startsWith (trim line) (lit "|")); [|reflexivity].
  cbn [andb negb] in *. apply negb_false_iff in H. now rewrite H.
Qed.

Lemma table_line_data_row (hs : list str) (rs : list (list str)) (line : str) :
  hs <> [] -> is_table_row line = true ->
  table_line (hs, rs) line = (hs, rs ++ [row_cells line]).
Proof.
  unfold is_table_row, row_cells, table_line. intros Hne H.
  apply andb_true_iff in H as [H1 H2]. apply negb_true_iff in H2.
  rewrite H1, H2. cbn [negb]. destruct hs; [congruence | reflexivity].
Qed.

Lemma fold_table_line_rows (post : list str) :
  forall hs rs, hs <> [] ->
  fold_left table_line post (hs, rs)
  = (hs, rs ++ map row_cells (filter is_table_row post)).
Proof.
  induction post as [|l post IH]; intros hs rs Hne; cbn [fold_left filter].
  - now rewrite app_nil_r.
  - destruct (is_table_row l) eqn:E.
    + rewrite (table_line_data_row hs rs l Hne E), (IH hs _ Hne).
      cbn [map]. now rewrite <- app_assoc.
    + rewrite (table_line_skipped (hs, rs) l E). now apply IH.
Qed.

Lemma fold_table_line_filter (lines : list str) :
  forall acc,
  fold_left table_line (filter is_table_row lines) acc = fold_left table_line lines acc.
Proof.
  induction lines as [|l lines IH]; intro acc; [reflexivity|].
  cbn [filter fold_left]. destruct (is_table_row l) eqn:E.
  - cbn [fold_left]. apply IH.
  - rewrite (table_line_skipped acc l E). apply IH.
Qed.

(** X6: the parse of a list of table lines: the header list is the cell
    list of the first line that is read as a row and has a cell, every
    later line that is read as a row gives one data row, in order, and
    the other later lines (separator rows, lines without leading pipe)
    give nothing. *)
Theorem parseMarkdownTable_result (pre post : list str) (hdr : str) :
  Forall (fun l => no_header_cells l = true) pre ->
  is_table_row hdr = true ->
  row_cells hdr <> [] ->
  parseMarkdownTable (pre ++ hdr :: post)
  = {| headers := row_cells hdr;
       rows := map row_cells (filter is_table_row post);
       isInfoTable := Nat.eqb (length (row_cells hdr)) 2
                      && forallb is_empty (row_cells hdr) |}.
Proof.
  intros Hpre Hrow Hne. unfold parseMarkdownTable.
  rewrite fold_left_app, (fold_table_line_no_header pre [] Hpre).
  cbn [fold_left]. rewrite (table_line_header [] hdr Hrow).
  rewrite (fold_table_line_rows post (row_cells hdr) [] Hne). reflexivity.
Qed.

Lemma parseMarkdownTable_result_witness :
  Forall (fun l => no_header_cells l = true) [lit "Top keywords"]
  /\ is_table_row (lit "| Keyword | Volume |") = true
  /\ row_cells (lit "| Keyword | Volume |") <> []
  /\ parseMarkdownTable
       ([lit "Top keywords"] ++ lit "| Keyword | Volume |"
          :: [lit "|---|---|"; lit "| panel upgrade | 210 |"; lit "| ev charger | 170 |"])
     = {| headers := [lit "Keyword"; lit "Volume"];
          rows := [[lit "panel upgrade"; lit "210"]; [lit "ev charger"; lit "170"]];
          isInfoTable := false |}.
Proof.
  assert (H1 : Forall (fun l => no_header_cells l = true) [lit "Top keywords"])
    by (constructor; [vm_compute; reflexivity | constructor]).
  assert (H2 : is_table_row (lit "| Keyword | Volume |") = true)
    by (vm_compute; reflexivity).
  assert (H3 : row_cells (lit "| Keyword | Volume |") <> [])
    by (vm_compute; discriminate).
  split; [exact H1|]. split; [exact H2|]. split; [exact H3|].
  rewrite (parseMarkdownTable_result [lit "Top keywords"]
             [lit "|---|---|"; lit "| panel upgrade | 210 |"; lit "| ev charger | 170 |"]
             (lit "| Keyword | Volume |") H1 H2 H3).
  vm_compute. reflexivity.
Defined.

(** X7: lines that are not read as rows (separator rows and lines whose
    trimmed form does not start with a pipe) do not count: removing them
    from the input, wherever they stand, leaves the parse unchanged.  In
    particular an input without any row parses to no header, no row and
    [isInfoTable = false]. *)
Theorem parseMarkdownTable_ignores_non_rows (tableLines : list str) :
  parseMarkdownTable (filter is_table_row tableLines) = parseMarkdownTable tableLines
  /\ (filter is_table_row tableLines = [] ->
      parseMarkdownTable tableLines
      = {| headers := []; rows := []; isInfoTable := false |}).
Proof.
  assert (E : parseMarkdownTable (filter is_table_row tableLines)
              = parseMarkdownTable tableLines).
  { unfold parseMarkdownTable. now rewrite fold_table_line_filter. }
  split; [exact E|]. intro H. rewrite <- E, H. reflexivity.
Qed.

Lemma parseMarkdownTable_ignores_non_rows_witness :
  filter is_table_row [lit "|---|---|"; lit "notes"; lit "| : | : |"] = []
  /\ parseMarkdownTable [lit "|---|---|"; lit "notes"; lit "| : | : |"]
     = {| headers := []; rows := []; isInfoTable := false |}.
Proof.
  assert (H : filter is_table_row [lit "|---|---|"; lit "notes"; lit "| : | : |"] = [])
    by (vm_compute; reflexivity).
  split; [exact H|].
  exact (proj2 (parseMarkdownTable_ignores_non_rows
                  [lit "|---|---|"; lit "notes"; lit "| : | : |"]) H).
Defined.

Lemma rtrim_snoc (x : str) (d : char) : is_space d = false -> rtrim (x ++ [d]) = x ++ [d].
Proof.
  intro Hd. unfold rtrim. rewrite rev_app_distr. cbn [rev app drop_while].
  rewrite Hd. change (d :: rev x) with ([d] ++ rev x).
  now rewrite rev_app_distr, rev_involutive.
Qed.

Lemma pipe_not_space : is_space PIPE = false.
Proof. reflexivity. Qed.

Lemma trim_pipe_row (cs : list str) : trim (pipe_row cs) = pipe_row cs.
Proof.
  unfold pipe_row. rewrite (trim_cons PIPE _ pipe_not_space). f_equal.
  destruct cs as [|c cs] using rev_ind; [reflexivity|].
  rewrite flat_map_app. cbn [flat_map]. rewrite app_nil_r, app_assoc.
  apply rtrim_snoc. exact pipe_not_space.
Qed.

Lemma split_char_app_sep (c s : str) :
  no_pipe c = true -> split_char PIPE (c ++ PIPE :: s) = c :: split_char PIPE s.
Proof.
  intro Hc. induction c as [|x c IH]; cbn [app split_char].
  - unfold char_eqb. now rewrite N.eqb_refl.
  - unfold no_pipe in Hc. cbn [forallb] in Hc. apply andb_true_iff in Hc as [Hx Hc].
    apply negb_true_iff in Hx. unfold char_eqb in *. rewrite N.eqb_sym, Hx.
    now rewrite (IH Hc).
Qed.

Lemma split_char_cells (cs : list str) :
  Forall (fun c => no_pipe c = true) cs ->
  split_char PIPE (flat_map (fun c => c ++ [PIPE]) cs) = cs ++ [[]].
Proof.
  induction 1 as [|c cs Hc _ IH]; [reflexivity|].
  cbn [flat_map app]. rewrite <- app_assoc. cbn [app].
  rewrite (split_char_app_sep c _ Hc), IH. reflexivity.
Qed.

Lemma row_cells_pipe_row (cs : list str) :
  Forall (fun c => no_pipe c = true) cs -> row_cells (pipe_row cs) = map trim cs.
Proof.
  intro H. unfold row_cells, table_cells. rewrite trim_pipe_row.
  change (lit "|") with [PIPE]. rewrite split_single. unfold pipe_row.
  cbn [split_char]. unfold char_eqb at 1. rewrite N.eqb_refl.
  rewrite (split_char_cells cs H). unfold slice_inner. cbn [tl].
  now rewrite removelast_last.
Qed.

Lemma forallb_false_intro {A} (p : A -> bool) (l : list A) (x : A) :
  In x l -> p x = false -> forallb p l = false.
Proof.
  intros Hin Hx. destruct (forallb p l) eqn:E; [|reflexivity].
  rewrite forallb_forall in E. rewrite (E x Hin) in Hx. discriminate.
Qed.

Lemma has_content_witness (cs : list str) :
  has_content cs = true ->
  exists c x, In c cs /\ In x c /\ sep_char x = false.
Proof.
  unfold has_content. intro H. apply existsb_exists in H as [c [Hc H]].
  apply existsb_exists in H as [x [Hx H]]. apply negb_true_iff in H.
  now exists c, x.
Qed.

Lemma is_table_row_pipe_row (cs : list str) :
  has_content cs = true -> is_table_row (pipe_row cs) = true.
Proof.
  intro H. unfold is_table_row. rewrite trim_pipe_row.
  unfold pipe_row at 1. change (lit "|") with [PIPE]. cbn [startsWith].
  unfold char_eqb at 1. rewrite N.eqb_refl, startsWith_nil. cbn [andb].
  apply negb_true_iff. unfold pipe_row, is_separator_row.
  unfold char_eqb at 1. rewrite N.eqb_refl. cbn [andb].
  destruct (has_content_witness cs H) as [c [x [Hc [Hx Hs]]]].
  assert (Hin : In x (flat_map (fun c => c ++ [PIPE]) cs)).
  { apply in_flat_map. exists c. split; [exact Hc | apply in_or_app; now left]. }
  destruct (rev (flat_map (fun c => c ++ [PIPE]) cs)) as [|d mid] eqn:Er.
  - reflexivity.
  - destruct (char_eqb d PIPE) eqn:Ed; [|reflexivity]. cbn [andb].
    apply char_eqb_eq in Ed. subst d.
    apply in_rev in Hin. rewrite Er in Hin. destruct Hin as [E | Hin].
    + subst x. vm_compute in Hs. discriminate Hs.
    + rewrite (forallb_false_intro sep_char mid x Hin Hs). now rewrite andb_false_r.
Qed.

Lemma has_content_not_info (cs : list str) :
  has_content cs = true -> forallb is_empty (map trim cs) = false.
Proof.
  intro H. destruct (has_content_witness cs H) as [c [x [Hc [Hx Hs]]]].
  apply (forallb_false_intro is_empty _ (trim c)); [now apply in_map|].
  destruct (trim c) eqn:E; [|reflexivity].
  apply trim_nil in E. rewrite forallb_forall in E. specialize (E x Hx).
  unfold sep_char in Hs. rewrite E in Hs. cbn in Hs.
  now rewrite !orb_true_r in Hs.
Qed.

(** The loop of the parser over rows written as pipe-separated cells. *)
Lemma fold_pipe_rows (hs : list str) (sep : str) (rs : list (list str)) :
  Forall (fun c => no_pipe c = true) hs -> has_content hs = true ->
  is_table_row sep = false ->
  Forall (fun r => Forall (fun c => no_pipe c = true) r /\ has_content r = true) rs ->
  fold_left table_line (pipe_row hs :: sep :: map pipe_row rs) ([], [])
  = (map trim hs, map (map trim) rs).
Proof.
  intros Hp Hc Hsep Hrs. cbn [fold_left].
  rewrite (table_line_header [] _ (is_table_row_pipe_row hs Hc)).
  rewrite (row_cells_pipe_row hs Hp).
  assert (Hne : map trim hs <> []).
  { destruct hs; [discriminate Hc | discriminate]. }
  rewrite (table_line_skipped _ sep Hsep).
  rewrite (fold_table_line_rows _ (map trim hs) [] Hne). cbn [app]. f_equal.
  induction Hrs as [|r rs [Hr1 Hr2] _ IH]; [reflexivity|].
  cbn [map filter]. rewrite (is_table_row_pipe_row r Hr2). cbn [map].
  now rewrite (row_cells_pipe_row r Hr1), IH.
Qed.

(** X8: writing a table out and parsing it gives the table back, cells
    trimmed: for a header row and data rows written as pipe-separated
    cells (no pipe inside a cell, and in every row a cell with a character
    other than hyphen, colon, white space), with any separator line after
    the header row, [parseMarkdownTable] returns the trimmed header cells,
    the trimmed cells of every data row in order, and
    [isInfoTable = false]. *)
Theorem parseMarkdownTable_round_trip (hs : list str) (sep : str) (rs : list (list str)) :
  Forall (fun c => no_pipe c = true) hs -> has_content hs = true ->
  is_table_row sep = false ->
  Forall (fun r => Forall (fun c => no_pipe c = true) r /\ has_content r = true) rs ->
  parseMarkdownTable (pipe_row hs :: sep :: map pipe_row rs)
  = {| headers := map trim hs; rows := map (map trim) rs; isInfoTable := false |}.
Proof.
  intros Hp Hc Hsep Hrs. unfold parseMarkdownTable.
  rewrite (fold_pipe_rows hs sep rs Hp Hc Hsep Hrs).
  assert (Hinfo : Nat.eqb (length (map trim hs)) 2 && forallb is_empty (map trim hs)
                  = false).
  { rewrite (has_content_not_info hs Hc). apply andb_false_r. }
  rewrite Hinfo. reflexivity.
Qed.

Lemma parseMarkdownTable_round_trip_witness :
  let hs := [lit " Keyword "; lit " Volume "] in
  let rs := [[lit " panel upgrade "; lit " 210 "]; [lit " ev charger "; lit ""]] in
  Forall (fun c => no_pipe c = true) hs /\ has_content hs = true
  /\ is_table_row (lit "|---|---|") = false
  /\ Forall (fun r => Forall (fun c => no_pipe c = true) r /\ has_content r = true) rs
  /\ parseMarkdownTable (pipe_row hs :: lit "|---|---|" :: map pipe_row rs)
     = {| headers := [lit "Keyword"; lit "Volume"];
          rows := [[lit "panel upgrade"; lit "210"]; [lit "ev charger"; lit ""]];
          isInfoTable := false |}.
Proof.
  intros hs rs.
  assert (H1 : Forall (fun c => no_pipe c = true) hs)
    by (repeat constructor).
  assert (H2 : has_content hs = true) by (vm_compute; reflexivity).
  assert (H3 : is_table_row (lit "|---|---|") = false) by (vm_compute; reflexivity).
  assert (H4 : Forall (fun r => Forall (fun c => no_pipe c = true) r
                               /\ has_content r = true) rs).
  { repeat constructor. }
  split; [exact H1|]. split; [exact H2|]. split; [exact H3|]. split; [exact H4|].
  rewrite (parseMarkdownTable_round_trip hs (lit "|---|---|") rs H1 H2 H3 H4).
  vm_compute. reflexivity.
Defined.

(* ================================================================= *)
(** ** The rows of a brand table *)

Lemma nth_error_mapi_from {A B} (f : A -> nat -> B) (l : list A) :
  forall k i, nth_error (mapi_from k f l) i
              = option_map (fun x => f x (k + i)) (nth_error l i).
Proof.
  induction l as [|x l IH]; intros k i; destruct i as [|i]; cbn; try reflexivity.
  - now rewrite Nat.add_0_r.
  - rewrite IH. now replace (S k + i) with (k + S i) by lia.
Qed.

Lemma mod2_odd (i : nat) : Nat.eqb (i mod 2) 1 = Nat.odd i.
Proof. now rewrite <- Nat.bit0_eqb, Nat.bit0_odd. Qed.

Lemma zebra_even (i : nat) : zebra i = if Nat.even i then WHITE else LIGHT_GRAY.
Proof.
  unfold zebra. rewrite (mod2_odd i), <- Nat.negb_even. now destruct (Nat.even i).
Qed.

Lemma map_const_repeat {A B} (b : B) (l : list A) :
  map (fun _ => b) l = repeat b (length l).
Proof. induction l as [|x l IH]; [reflexivity | cbn; now rewrite IH]. Qed.

Lemma row_fills_header (hs : list str) (ws : list Z) (c : str) :
  row_fills (createHeaderRow hs ws c) = repeat c (length hs).
Proof.
  unfold row_fills, createHeaderRow, mapi. cbn [cells]. rewrite map_mapi_from.
  cbn [fill]. rewrite mapi_from_const_index. apply map_const_repeat.
Qed.

Lemma row_fills_data (cs : list str) (ws : list Z) (o : RowOptions) :
  row_fills (createDataRow cs ws o) = repeat (or_default WHITE (bgColor o)) (length cs).
Proof.
  unfold row_fills, createDataRow, mapi. cbn [cells]. rewrite map_mapi_from.
  cbn [fill]. rewrite mapi_from_const_index. apply map_const_repeat.
Qed.

(** X9: [buildBrandTable] returns [null] exactly when there is no header.
    Otherwise its table has one row more than there are data rows: first
    the header row, every cell filled with the header colour, then for
    the data row of index [i] a row whose cells are all white when [i] is
    even and all light gray when [i] is odd. *)
Theorem brand_table_zebra (hs : list str) (rs : list (list str)) (c : str) :
  (buildBrandTable hs rs c = None <-> hs = [])
  /\ (forall t, buildBrandTable hs rs c = Some t ->
      length (tbl_rows t) = S (length rs)
      /\ (exists hrow, nth_error (tbl_rows t) 0 = Some hrow
                       /\ row_fills hrow = repeat c (length hs))
      /\ (forall i row, nth_error rs i = Some row ->
          exists r, nth_error (tbl_rows t) (S i) = Some r
                    /\ row_fills r
                       = repeat (if Nat.even i then WHITE else LIGHT_GRAY)
                           (Nat.max (length row) (length hs)))).
Proof.
  split.
  - split.
    + intro H. destruct hs; [reflexivity | discriminate H].
    + intros ->. reflexivity.
  - intros t H. pose proof (buildBrandTable_headers hs rs c t H) as Hne.
    rewrite (buildBrandTable_some hs rs c Hne) in H. injection H as <-.
    cbn [tbl_rows]. split; [|split].
    + cbn [length]. now rewrite mapi_length.
    + eexists. split; [reflexivity | apply row_fills_header].
    + intros i row Hi. cbn [nth_error]. unfold mapi.
      rewrite nth_error_mapi_from, Hi. cbn [option_map]. cbv beta zeta.
      change (0 + i) with i.
      eexists. split; [reflexivity|].
      rewrite row_fills_data, padRow_length.
      change (or_default WHITE (bgColor {| bgColor := Some (zebra i); textColor := None |}))
        with (zebra i).
      f_equal. apply zebra_even.
Qed.

Lemma brand_table_zebra_witness :
  let hs := [lit "Service"; lit "Price"] in
  let rs := [[lit "Rewire"; lit "$400"]; [lit "Panel"]; [lit "EV charger"; lit "$900"]] in
  exists t, buildBrandTable hs rs DARK_BLUE = Some t
  /\ nth_error rs 1 = Some [lit "Panel"]
  /\ map row_fills (tbl_rows t)
     = [[DARK_BLUE; DARK_BLUE]; [WHITE; WHITE]; [LIGHT_GRAY; LIGHT_GRAY]; [WHITE; WHITE]].
Proof.
  intros hs rs.
  destruct (buildBrandTable hs rs DARK_BLUE) as [t|] eqn:E; [|discriminate E].
  exists t. split; [reflexivity|]. split; [reflexivity|].
  destruct (proj2 (brand_table_zebra hs rs DARK_BLUE) t E) as [_ [_ H]].
  destruct (H 1 [lit "Panel"] eq_refl) as [r [Hr Hf]].
  injection E as <-. vm_compute. reflexivity.
Defined.

(* ================================================================= *)
(** ** The cell widths of a brand table *)

Lemma map_nth_error_seq {A} (l : list A) :
  map (nth_error l) (seq 0 (length l)) = map Some l.
Proof.
  induction l as [|x l IH]; [reflexivity|].
  cbn [length seq map nth_error]. f_equal.
  rewrite <- seq_shift, map_map. exact IH.
Qed.

Lemma row_widths_header (hs : list str) (ws : list Z) (c : str) :
  length ws = length hs ->
  row_widths (createHeaderRow hs ws c) = map Some ws.
Proof.
  intro H. unfold row_widths, createHeaderRow, mapi. cbn [cells].
  rewrite map_mapi_from. cbn [width].
  rewrite (mapi_from_seq (nth_error ws)). rewrite <- H. apply map_nth_error_seq.
Qed.

Lemma row_widths_data (cs : list str) (ws : list Z) (o : RowOptions) :
  length cs = length ws -> Forall (fun w => (0 < w)%Z) ws ->
  row_widths (createDataRow cs ws o) = map Some ws.
Proof.
  intros H Hpos. unfold row_widths, createDataRow, mapi. cbn [cells].
  rewrite map_mapi_from. cbn [width].
  rewrite (mapi_from_seq (fun i => Some (width_or_2000 ws i))). rewrite H.
  rewrite <- map_nth_error_seq. apply map_ext_in. intros i Hi.
  apply in_seq in Hi. unfold width_or_2000.
  destruct (nth_error ws i) as [w|] eqn:E.
  - rewrite Forall_forall in Hpos. specialize (Hpos w (nth_error_In _ _ E)).
    destruct (Z.eqb_spec w 0); [lia | reflexivity].
  - apply nth_error_None in E. lia.
Qed.

Lemma Forall_mapi_from {A B} (P : B -> Prop) (f : A -> nat -> B) (l : list A) :
  (forall x i, In x l -> P (f x i)) -> forall k, Forall P (mapi_from k f l).
Proof.
  induction l as [|x l IH]; intros H k; cbn [mapi_from]; constructor.
  - apply H. now left.
  - apply IH. intros y i Hy. apply H. now right.
Qed.

Lemma brandColWidths_positive (hs : list str) :
  1 <= length hs -> (Z.of_nat (length hs) <= totalWidth)%Z ->
  Forall (fun w => (0 < w)%Z) (brandColWidths hs).
Proof.
  intros Hn Hmax.
  assert (Hne : hs <> []) by (destruct hs; [simpl in Hn; lia | discriminate]).
  rewrite (brandColWidths_shape hs Hne). cbv zeta. unfold totalWidth in *.
  set (n := Z.of_nat (length hs)) in *.
  assert (Hn' : (1 <= n <= 9360)%Z) by (unfold n; lia).
  assert (Hq : (0 < 9360 / n)%Z) by (apply Z.div_str_pos; lia).
  assert (Hm : (n * (9360 / n) <= 9360)%Z) by (apply Z.mul_div_le; lia).
  apply Forall_app. split.
  - apply Forall_forall. intros w Hw. apply repeat_spec in Hw. now subst w.
  - constructor; [nia | constructor].
Qed.

(** X10: in a brand table of at most 9360 columns (the total width, so
    that the integer quotient is not zero) every column width is
    positive, and when no data row has more cells than there are headers
    every row, the header row and the data rows alike, gives its cells
    exactly the column widths, in order. *)
Theorem brand_table_cell_widths (hs : list str) (rs : list (list str)) (c : str) :
  1 <= length hs -> (Z.of_nat (length hs) <= totalWidth)%Z ->
  Forall (fun row => length row <= length hs) rs ->
  exists t, buildBrandTable hs rs c = Some t
  /\ Forall (fun w => (0 < w)%Z) (columnWidths t)
  /\ Forall (fun r => row_widths r = map Some (columnWidths t)) (tbl_rows t).
Proof.
  intros Hn Hmax Hrs.
  assert (Hne : hs <> []) by (destruct hs; [simpl in Hn; lia | discriminate]).
  eexists. split; [apply (buildBrandTable_some hs rs c Hne)|].
  cbn [columnWidths tbl_rows].
  pose proof (brandColWidths_positive hs Hn Hmax) as Hpos.
  assert (Hlen : length (brandColWidths hs) = length hs)
    by (unfold brandColWidths; apply mapi_length).
  split; [exact Hpos|]. constructor.
  - now apply row_widths_header.
  - unfold mapi. apply Forall_mapi_from. intros row i Hin.
    rewrite Forall_forall in Hrs. specialize (Hrs row Hin).
    cbv zeta. apply row_widths_data; [|exact Hpos].
    rewrite padRow_length, Hlen. lia.
Qed.

Lemma brand_table_cell_widths_witness :
  let hs := [lit "Keyword"; lit "Volume"; lit "Rank"; lit "URL"; lit "Intent";
             lit "CPC"; lit "Trend"] in
  let rs := [[lit "panel upgrade"; lit "210"]] in
  1 <= length hs /\ (Z.of_nat (length hs) <= totalWidth)%Z
  /\ Forall (fun row => length row <= length hs) rs
  /\ exists t, buildBrandTable hs rs ELECTRIC_BLUE = Some t
     /\ map row_widths (tbl_rows t)
        = [map Some [1337; 1337; 1337; 1337; 1337; 1337; 1338]%Z;
           map Some [1337; 1337; 1337; 1337; 1337; 1337; 1338]%Z].
Proof.
  intros hs rs.
  assert (H1 : 1 <= length hs) by (simpl; lia).
  assert (H1' : (Z.of_nat (length hs) <= totalWidth)%Z) by (vm_compute; discriminate).
  assert (H2 : Forall (fun row => length row <= length hs) rs)
    by (repeat constructor; simpl; lia).
  split; [exact H1|]. split; [exact H1'|]. split; [exact H2|].
  destruct (brand_table_cell_widths hs rs ELECTRIC_BLUE H1 H1' H2) as [t [E _]].
  exists t. split; [exact E|].
  injection E as <-. vm_compute. reflexivity.
Defined.

(* ================================================================= *)
(** ** What a callout box holds *)

Lemma cta_body_line_length (l : str) :
  length (cta_body_line l) = if is_blank l then 0 else 1.
Proof. unfold cta_body_line, is_blank. destruct (is_empty (trim l)); reflexivity. Qed.

Lemma cta_body_lines_length (b : list str) :
  length (flat_map cta_body_line b) = length (filter (fun l => negb (is_blank l)) b).
Proof.
  induction b as [|l b IH]; [reflexivity|].
  cbn [flat_map filter]. rewrite length_app, cta_body_line_length, IH.
  destruct (is_blank l); reflexivity.
Qed.

Lemma cta_children_length (h : option str) (b : list str) :
  length (cta_children h b)
  = (if truthy h then 1 else 0) + length (filter (fun l => negb (is_blank l)) b).
Proof.
  unfold cta_children. rewrite length_app, cta_body_lines_length.
  destruct (truthy h); reflexivity.
Qed.

Lemma createCTABox_some (h : option str) (b : list str) (t : Table) :
  createCTABox h b = Some t ->
  t = {| columnWidths := [9360%Z];
         tbl_rows :=
           [ mkTableRow
               [ {| fill := DARK_BLUE; width := Some 9360%Z;
                    margins := Some (mkMargins 120 120 160 160);
                    cell_children := cta_children h b |} ] ] |}.
Proof.
  unfold createCTABox. destruct (Nat.eqb (length (cta_children h b)) 0); [discriminate|].
  intro H. now injection H as <-.
Qed.

Lemma filter_nil_forallb {A} (p : A -> bool) (l : list A) :
  filter (fun x => negb (p x)) l = [] <-> forallb p l = true.
Proof.
  induction l as [|x l IH]; cbn [filter forallb]; [tauto|].
  destruct (p x); cbn [negb andb]; [exact IH | split; discriminate].
Qed.

Lemma createCTABox_none_iff (h : option str) (b : list str) :
  createCTABox h b = None <-> truthy h = false /\ forallb is_blank b = true.
Proof.
  unfold createCTABox. pose proof (cta_children_length h b) as L.
  destruct (Nat.eqb_spec (length (cta_children h b)) 0) as [E | E]; split.
  - intros _. rewrite E in L. destruct (truthy h); [lia|]. split; [reflexivity|].
    apply filter_nil_forallb. apply length_zero_iff_nil. cbn in L. lia.
  - reflexivity.
  - discriminate.
  - intros [Hh Hb]. exfalso. apply E. rewrite L, Hh.
    apply filter_nil_forallb in Hb. now rewrite Hb.
Qed.

(** X11: [createCTABox] returns [null] exactly when there is no headline
    and every body line is blank.  Otherwise the box is a table of one
    column of width 9360 with one row of one dark blue cell, and the
    cell holds one paragraph for the headline, if there is one, followed
    by one paragraph for each body line that is not blank. *)
Theorem createCTABox_paragraphs (h : option str) (b : list str) :
  (createCTABox h b = None <-> truthy h = false /\ forallb is_blank b = true)
  /\ (forall t, createCTABox h b = Some t ->
      columnWidths t = [9360%Z]
      /\ map cell_count (tbl_rows t) = [1]
      /\ map row_fills (tbl_rows t) = [[DARK_BLUE]]
      /\ length (table_paragraphs t)
         = (if truthy h then 1 else 0)
           + length (filter (fun l => negb (is_blank l)) b)).
Proof.
  split; [apply createCTABox_none_iff|].
  intros t H. apply createCTABox_some in H. subst t.
  cbn [columnWidths tbl_rows map cell_count row_fills cells fill length].
  repeat split.
  unfold table_paragraphs. cbn [tbl_rows flat_map cells cell_children].
  rewrite !app_nil_r. apply cta_children_length.
Qed.

Lemma createCTABox_paragraphs_witness :
  exists t,
    createCTABox (Some (lit "Act Now")) [lit "- Call us today"; lit "  "; lit "Limited spots"]
    = Some t
    /\ length (table_paragraphs t) = 3.
Proof.
  destruct (createCTABox (Some (lit "Act Now"))
              [lit "- Call us today"; lit "  "; lit "Limited spots"]) as [t|] eqn:E;
    [|discriminate E].
  exists t. split; [reflexivity|].
  destruct (proj2 (createCTABox_paragraphs (Some (lit "Act Now"))
                     [lit "- Call us today"; lit "  "; lit "Limited spots"]) t E)
    as [_ [_ [_ H]]].
  rewrite H. vm_compute. reflexivity.
Defined.

Lemma take_while_Forall {A} (p : A -> bool) (l : list A) :
  Forall (fun x => p x = true) (take_while p l).
Proof.
  induction l as [|x l IH]; cbn [take_while]; [constructor|].
  destruct (p x) eqn:E; constructor; assumption.
Qed.

Lemma is_blank_snoc (u : str) (c : char) : is_space c = false -> is_blank (u ++ [c]) = false.
Proof.
  intro Hc. unfold is_blank. rewrite (trim_snoc u c Hc).
  destruct (drop_while is_space u); reflexivity.
Qed.

(** Every line the scanner collects for a callout is not blank. *)
Lemma callout_lines_not_blank (run : list str) :
  Forall (fun l => is_quote_line l = true) run ->
  Forall (fun x => is_blank x = false)
    (map (fun l => trim (slice_from 2 (trim l))) run).
Proof.
  induction 1 as [|l run Hl _ IH]; cbn [map]; constructor; [|exact IH].
  destruct (quote_content_not_blank l Hl) as [u [c [E Hc]]]. rewrite E.
  now apply is_blank_snoc.
Qed.

Lemma filter_not_blank (xs : list str) :
  Forall (fun x => is_blank x = false) xs ->
  filter (fun l => negb (is_blank l)) xs = xs.
Proof.
  induction 1 as [|x xs Hx _ IH]; [reflexivity|].
  cbn [filter]. now rewrite Hx, IH.
Qed.

(** The paragraphs of the box of a collected callout: one per line. *)
Lemma callout_children_length (first : str) (others : list str) :
  Forall (fun x => is_blank x = false) (first :: others) ->
  length (cta_children (Some (fst (callout_parts (first :: others))))
            (snd (callout_parts (first :: others))))
  = S (length others).
Proof.
  intro H. rewrite cta_children_length. unfold callout_parts.
  destruct (is_bold_line first) eqn:Hb; cbn [fst snd].
  - pose proof (is_bold_line_inner first Hb) as Hne.
    destruct (slice_between 2 2 first); [congruence|]. cbn [truthy].
    rewrite filter_not_blank; [reflexivity | now inversion H].
  - cbn [truthy]. rewrite (filter_not_blank _ H). reflexivity.
Qed.

(** X12: a blockquote run whose first line is not status-prefixed always
    yields exactly three nodes, a spacer, one callout box and a spacer,
    and the box holds exactly one paragraph per line of the run (a
    status-prefixed line later in the run included); the scanner moves
    past the whole run with its state unchanged. *)
Theorem blockquote_run_box (st : ScanState) (line : str) (rest : list str) :
  startsWith (trim line) (lit "> ") = true ->
  is_status_line line = false ->
  exists box,
    step st line rest
    = ([spacer 80 0; NTable box; spacer 0 120], st, drop_while is_quote_line rest)
    /\ columnWidths box = [9360%Z]
    /\ length (table_paragraphs box) = S (length (take_while is_quote_line rest)).
Proof.
  intros Hq Hs. unfold is_status_line in Hs. rewrite Hq in Hs. cbn [andb] in Hs.
  rewrite (step_quote st line rest Hq), Hs. cbv zeta. cbn [map].
  set (first := trim (slice_from 2 (trim line))).
  set (others := map (fun l => trim (slice_from 2 (trim l))) (take_while is_quote_line rest)).
  assert (Hnb : Forall (fun x => is_blank x = false) (first :: others)).
  { apply (callout_lines_not_blank (line :: take_while is_quote_line rest)).
    constructor; [exact Hq | apply take_while_Forall]. }
  pose proof (callout_children_length first others Hnb) as Hlen.
  unfold calloutNodes.
  destruct (createCTABox (Some (fst (callout_parts (first :: others))))
              (snd (callout_parts (first :: others)))) as [box|] eqn:E.
  - exists box. split; [reflexivity|].
    apply createCTABox_some in E. subst box. cbn [columnWidths].
    split; [reflexivity|].
    unfold table_paragraphs. cbn [tbl_rows flat_map cells cell_children].
    rewrite !app_nil_r, Hlen. unfold others. now rewrite length_map.
  - exfalso. unfold createCTABox in E. rewrite Hlen in E. discriminate E.
Qed.

Lemma blockquote_run_box_witness :
  let line := lit "> **Act Now**" in
  let rest := [lit "> - Call us today"; lit "> Loading offers"; lit "Thanks"] in
  startsWith (trim line) (lit "> ") = true
  /\ is_status_line line = false
  /\ exists box,
       step initial_state line rest
       = ([spacer 80 0; NTable box; spacer 0 120], initial_state, [lit "Thanks"])
       /\ length (table_paragraphs box) = 3.
Proof.
  intros line rest.
  assert (H1 : startsWith (trim line) (lit "> ") = true) by (vm_compute; reflexivity).
  assert (H2 : is_status_line line = false) by (vm_compute; reflexivity).
  split; [exact H1|]. split; [exact H2|].
  destruct (blockquote_run_box initial_state line rest H1 H2) as [box [E [_ L]]].
  exists box. split; [exact E | exact L].
Defined.

(* ================================================================= *)
(** ** More on the scanner *)

Ltac step_branches :=
  unfold step; cbv zeta;
  repeat match goal with
  | |- context [if ?c then _ else _] => destruct c eqn:?
  | |- context [match re_numbered ?l with _ => _ end] => destruct (re_numbered l)
  | |- context [let '(_, _) := ?p in _] => destruct p
  end;
  cbn [fst snd];
  unfold calloutNodes, tableNodes;
  repeat match goal with
  | |- context [if ?c then _ else _] => destruct c eqn:?
  | |- context [match ?o with Some _ => _ | None => _ end] => destruct o
  end.

(** A status line outside a callout run adds nothing. *)
Lemma step_status_line (st : ScanState) (line : str) (rest : list str) :
  is_status_line line = true -> step st line rest = ([], st, rest).
Proof.
  unfold is_status_line. intro H. apply andb_true_iff in H as [Hq Hs].
  now rewrite (step_quote st line rest Hq), Hs.
Qed.

(** X13: a blockquote line that starts with a status prefix (Pulling,
    Fetching, Researching, Building, Loading, Analyzing, Computing,
    Gathering, Checking), met where no callout run is being collected,
    produces no node and changes no state: the document is rendered as if
    the line were not there. *)
Theorem status_line_dropped (st : ScanState) (line : str) (rest : list str) :
  is_status_line line = true ->
  step st line rest = ([], st, rest)
  /\ scan (S (length rest)) st (line :: rest) = scan (length rest) st rest.
Proof.
  intro H. split; [now apply step_status_line|].
  rewrite scan_cons, (step_status_line st line rest H). reflexivity.
Qed.

Lemma status_line_dropped_witness :
  is_status_line (lit "> Loading rankings...") = true
  /\ scan 2 initial_state [lit "> Loading rankings..."; lit "Done"]
     = [bodyParagraph (lit "Done")].
Proof.
  assert (H : is_status_line (lit "> Loading rankings...") = true)
    by (vm_compute; reflexivity).
  split; [exact H|].
  refine (eq_trans (proj2 (status_line_dropped initial_state
                             (lit "> Loading rankings...") [lit "Done"] H)) _).
  vm_compute. reflexivity.
Defined.

(** One iteration and the subtitle: none once the subtitle is done, at
    most one before, and a subtitle sets the flag, which is never
    cleared. *)
Lemma step_subtitle (st : ScanState) (line : str) (rest : list str) :
  (coverSubtitleDone st = true ->
     count_subtitles (fst (fst (step st line rest))) = 0
     /\ coverSubtitleDone (snd (fst (step st line rest))) = true)
  /\ (count_subtitles (fst (fst (step st line rest))) = 0
      \/ count_subtitles (fst (fst (step st line rest))) = 1
         /\ coverSubtitleDone (snd (fst (step st line rest))) = true).
Proof.
  unfold step. cbv zeta.
  destruct (coverSubtitleDone st) eqn:Hd; cbn [negb]; rewrite ?andb_false_r;
  repeat match goal with
  | |- context [if ?c then _ else _] => destruct c
  | |- context [match re_numbered ?l with _ => _ end] => destruct (re_numbered l)
  | |- context [let '(_, _) := ?p in _] => destruct p
  end; cbn [fst snd coverSubtitleDone];
  unfold calloutNodes, tableNodes;
  repeat match goal with
  | |- context [if ?c then _ else _] => destruct c
  | |- context [match ?o with Some _ => _ | None => _ end] => destruct o
  end;
  (split;
   [ intro; try discriminate; split; first [reflexivity | assumption]
   | first [ left; reflexivity
           | right; repeat split; first [reflexivity | assumption] ] ]).
Qed.

Lemma count_subtitles_app (a b : list Node) :
  count_subtitles (a ++ b) = count_subtitles a + count_subtitles b.
Proof. unfold count_subtitles. now rewrite filter_app, length_app. Qed.

Lemma scan_subtitle_done (fuel : nat) :
  forall st lines, coverSubtitleDone st = true ->
  count_subtitles (scan fuel st lines) = 0.
Proof.
  induction fuel as [|fuel IH]; intros st lines Hd; [reflexivity|].
  destruct lines as [|line rest]; [reflexivity|].
  cbn [scan]. destruct (step_subtitle st line rest) as [H _].
  destruct (H Hd) as [H0 H1].
  destruct (step st line rest) as [[out st'] rest']. cbn [fst snd] in *.
  rewrite count_subtitles_app, H0, (IH st' rest' H1). reflexivity.
Qed.

(** X14: the cover subtitle styling (centered, italic, gray, size 26) is
    applied to at most one paragraph per document, whatever the state the
    scan starts from. *)
Theorem subtitle_at_most_once (content : str) (fuel : nat) (st : ScanState)
  (lines : list str) :
  count_subtitles (renderMarkdown content) <= 1
  /\ count_subtitles (scan fuel st lines) <= 1.
Proof.
  assert (G : forall fuel st lines, count_subtitles (scan fuel st lines) <= 1).
  { clear. induction fuel as [|fuel IH]; intros st lines; [cbv; lia|].
    destruct lines as [|line rest]; [cbv; lia|].
    cbn [scan]. destruct (step_subtitle st line rest) as [_ H].
    destruct (step st line rest) as [[out st'] rest']. cbn [fst snd] in *.
    rewrite count_subtitles_app.
    destruct H as [H0 | [H1 Hd]].
    - rewrite H0. apply IH.
    - rewrite H1, (scan_subtitle_done fuel st' rest' Hd). lia. }
  split; apply G.
Qed.

Lemma is_subtitle_paragraph (t : str) :
  is_subtitle (subtitleParagraph t) = true /\ is_centered (subtitleParagraph t) = true
  /\ is_centered (coverLine1 t) = true /\ is_centered (coverLine2 t) = true.
Proof. repeat split. Qed.

(** A line that starts with the H2 marker reaches the H2 branch. *)
Lemma step_h2 (st : ScanState) (line : str) (rest : list str) :
  is_h2_line line = true ->
  step st line rest
  = ([headingParagraph "Heading2" 300 100 (trim (slice_from 3 line))
        (h2_palette (S (h2Count st))) 36],
     {| h2Count := S (h2Count st); inCover := false; coverH1Done := coverH1Done st;
        coverSubtitleDone := coverSubtitleDone st |},
     rest).
Proof.
  unfold is_h2_line. intro H. unfold step. cbv zeta. rewrite H.
  assert (H1 : startsWith line (lit "# ") = false).
  { change (lit "## ") with (ch "#" :: ch "#" :: lit " ") in H.
    apply startsWith_cons_inv in H as [s1 [-> H]].
    apply startsWith_cons_inv in H as [s2 [-> _]]. vm_compute. reflexivity. }
  rewrite H1.
  change (lit "## ") with (ch "#" :: lit "# ") in H.
  apply trim_head in H as [t E]; [|vm_compute; reflexivity]. rewrite E.
  replace (str_eqb (ch "#" :: t) (lit "[COVER_END]")) with false by (vm_compute; reflexivity).
  replace (startsWith (ch "#" :: t) (lit "> ")) with false by (vm_compute; reflexivity).
  replace (startsWith (ch "#" :: t) (lit "|")) with false by (vm_compute; reflexivity).
  reflexivity.
Qed.

(** Once cover mode is off, an iteration pushes no centered paragraph and
    leaves cover mode off. *)
Lemma step_cover_off (st : ScanState) (line : str) (rest : list str) :
  inCover st = false ->
  filter is_centered (fst (fst (step st line rest))) = []
  /\ inCover (snd (fst (step st line rest))) = false.
Proof.
  intro Hc. unfold step. cbv zeta. rewrite Hc. cbn [andb].
  repeat match goal with
  | |- context [if ?c then _ else _] => destruct c
  | |- context [match re_numbered ?l with _ => _ end] => destruct (re_numbered l)
  | |- context [let '(_, _) := ?p in _] => destruct p
  end; cbn [fst snd inCover];
  unfold calloutNodes, tableNodes;
  repeat match goal with
  | |- context [if ?c then _ else _] => destruct c
  | |- context [match ?o with Some _ => _ | None => _ end] => destruct o
  end;
  (split; first [reflexivity | assumption]).
Qed.

Lemma scan_cover_off (fuel : nat) :
  forall st lines, inCover st = false ->
  filter is_centered (scan fuel st lines) = [].
Proof.
  induction fuel as [|fuel IH]; intros st lines Hc; [reflexivity|].
  destruct lines as [|line rest]; [reflexivity|].
  cbn [scan]. destruct (step_cover_off st line rest Hc) as [H0 H1].
  destruct (step st line rest) as [[out st'] rest']. cbn [fst snd] in *.
  rewrite filter_app, H0, (IH st' rest' H1). reflexivity.
Qed.

(** X15: cover mode never comes back.  A cover-end line and an H2 line
    both switch it off, whatever the state; once it is off, no later line
    is given cover styling: the scanner pushes no centered paragraph
    (neither a split title line nor a subtitle) for the rest of the
    document. *)
Theorem cover_mode_never_returns (st : ScanState) (line : str) (rest : list str)
  (fuel : nat) (lines : list str) :
  (trim line = lit "[COVER_END]" \/ is_h2_line line = true ->
   inCover (snd (fst (step st line rest))) = false)
  /\ (inCover st = false -> filter is_centered (scan fuel st lines) = []).
Proof.
  split; [|apply scan_cover_off].
  intros [H | H].
  - unfold step. cbv zeta. rewrite H. reflexivity.
  - now rewrite (step_h2 st line rest H).
Qed.

Lemma cover_mode_never_returns_witness :
  let st := {| h2Count := 1; inCover := false; coverH1Done := false;
               coverSubtitleDone := false |} in
  is_h2_line (lit "## Findings") = true
  /\ snd (fst (step initial_state (lit "## Findings") [])) = st
  /\ inCover st = false
  /\ filter is_centered (scan 2 st [lit "# Plumbing & Heating"; lit "Subtitle"]) = []
  /\ scan 2 st [lit "# Plumbing & Heating"; lit "Subtitle"]
     = [bodyH1 (lit "Plumbing & Heating"); bodyParagraph (lit "Subtitle")].
Proof.
  intro st.
  assert (H1 : is_h2_line (lit "## Findings") = true) by (vm_compute; reflexivity).
  assert (H2 : inCover st = false) by reflexivity.
  split; [exact H1|]. split; [vm_compute; reflexivity|]. split; [exact H2|].
  split; [|vm_compute; reflexivity].
  exact (proj2 (cover_mode_never_returns st (lit "## Findings") [] 2
                  [lit "# Plumbing & Heating"; lit "Subtitle"]) H2).
Defined.

(* ================================================================= *)
(** ** The colours of the H2 headings *)

Lemma quote_line_not_h2 (l : str) : is_quote_line l = true -> is_h2_line l = false.
Proof.
  unfold is_quote_line, is_h2_line. intro Hq.
  destruct (startsWith l (lit "## ")) eqn:E; [|reflexivity].
  change (lit "## ") with (ch "#" :: lit "# ") in E.
  apply trim_head in E as [t E]; [|vm_compute; reflexivity].
  rewrite E in Hq. vm_compute in Hq. discriminate Hq.
Qed.

Lemma pipe_line_not_h2 (l : str) : is_pipe_line l = true -> is_h2_line l = false.
Proof.
  unfold is_pipe_line, is_h2_line. intro Hq.
  destruct (startsWith l (lit "## ")) eqn:E; [|reflexivity].
  change (lit "## ") with (ch "#" :: lit "# ") in E.
  apply trim_head in E as [t E]; [|vm_compute; reflexivity].
  rewrite E in Hq. vm_compute in Hq. discriminate Hq.
Qed.

Lemma count_h2_drop_while (p : str -> bool) (rest : list str) :
  (forall l, p l = true -> is_h2_line l = false) ->
  count_h2_lines (drop_while p rest) = count_h2_lines rest.
Proof.
  intro Hp. induction rest as [|l rest IH]; [reflexivity|].
  cbn [drop_while]. destruct (p l) eqn:E; [|reflexivity].
  rewrite IH. unfold count_h2_lines. cbn [filter]. now rewrite (Hp l E).
Qed.

(** A line that is no H2 line pushes no H2 heading and leaves the count
    of H2 headings as it is; the lines it consumes hold no H2 line. *)
Lemma step_not_h2 (st : ScanState) (line : str) (rest : list str) :
  is_h2_line line = false ->
  h2_colors (fst (fst (step st line rest))) = []
  /\ h2Count (snd (fst (step st line rest))) = h2Count st
  /\ count_h2_lines (snd (step st line rest)) = count_h2_lines rest.
Proof.
  unfold is_h2_line. intro H. unfold step. cbv zeta. rewrite H.
  repeat match goal with
  | |- context [if ?c then _ else _] => destruct c
  | |- context [match re_numbered ?l with _ => _ end] => destruct (re_numbered l)
  | |- context [let '(_, _) := ?p in _] => destruct p
  end; cbn [fst snd h2Count];
  unfold calloutNodes, tableNodes;
  repeat match goal with
  | |- context [if ?c then _ else _] => destruct c
  | |- context [match ?o with Some _ => _ | None => _ end] => destruct o
  end;
  (split; [reflexivity | split; [reflexivity|]]);
  first [ reflexivity
        | apply count_h2_drop_while; exact quote_line_not_h2
        | apply count_h2_drop_while; exact pipe_line_not_h2 ].
Qed.

Lemma h2_colors_app (a b : list Node) : h2_colors (a ++ b) = h2_colors a ++ h2_colors b.
Proof. unfold h2_colors. apply flat_map_app. Qed.

Lemma scan_h2_colors (fuel : nat) :
  forall st lines, length lines <= fuel ->
  h2_colors (scan fuel st lines) = alternation (h2Count st) (count_h2_lines lines).
Proof.
  induction fuel as [|fuel IH]; intros st lines Hlen.
  - destruct lines; [reflexivity | simpl in Hlen; lia].
  - destruct lines as [|line rest]; [reflexivity|].
    cbn [length] in Hlen. cbn [scan].
    pose proof (step_rest_length st line rest) as Hr.
    destruct (is_h2_line line) eqn:E.
    + rewrite (step_h2 st line rest E). rewrite h2_colors_app, IH by lia.
      unfold count_h2_lines. cbn [filter]. rewrite E. reflexivity.
    + destruct (step_not_h2 st line rest E) as [H0 [H1 H2]].
      destruct (step st line rest) as [[out st'] rest']. cbn [fst snd] in *.
      rewrite h2_colors_app, H0, IH by lia. rewrite H1, H2.
      unfold count_h2_lines. cbn [filter]. now rewrite E.
Qed.

(** X16: the colours of the H2 headings of a document alternate: there is
    one H2 heading for each line that starts with the H2 marker, in
    order, and the heading number [k] (counted from 1) is dark blue when
    [k] is odd and electric blue when [k] is even; nothing else in the
    document resets or advances the count. *)
Theorem h2_colours_alternate (content : str) :
  h2_colors (renderMarkdown content)
  = alternation 0 (count_h2_lines (split content (lit (String "010" EmptyString))))
  /\ (forall k n, length (alternation k n) = n)
  /\ (forall k n i, i < n ->
        nth_error (alternation k n) i
        = Some (if Nat.odd (k + i + 1) then DARK_BLUE else ELECTRIC_BLUE)).
Proof.
  split; [|split].
  - unfold renderMarkdown, renderLines. now rewrite scan_h2_colors.
  - intros k n. revert k. induction n as [|n IH]; intro k; [reflexivity|].
    cbn [alternation length]. now rewrite IH.
  - intros k n. revert k. induction n as [|n IH]; intros k i Hi; [lia|].
    cbn [alternation]. destruct i as [|i]; cbn [nth_error].
    + unfold h2_palette. rewrite mod2_odd.
      now replace (k + 0 + 1) with (S k) by lia.
    + rewrite IH by lia. now replace (S k + i + 1) with (k + S i + 1) by lia.
Qed.

Lemma h2_colours_alternate_witness :
  2 < 3
  /\ h2_colors (renderMarkdown
                 (lit ("## One" ++ String "010" "" ++ "> **Tip**" ++ String "010" ""
                       ++ "## Two" ++ String "010" "" ++ "text" ++ String "010" ""
                       ++ "## Three")%string))
     = [DARK_BLUE; ELECTRIC_BLUE; DARK_BLUE]
  /\ nth_error (alternation 0 3) 2 = Some DARK_BLUE.
Proof.
  split; [lia|]. split.
  - refine (eq_trans (proj1 (h2_colours_alternate _)) _). vm_compute. reflexivity.
  - exact (proj2 (proj2 (h2_colours_alternate [])) 0 3 2 (le_n 3)).
Defined.

(* ================================================================= *)
(** ** Cover titles with one delimiter *)







(* ================================================================= *)
(** ** The number of nodes *)

Lemma step_nodes_bound (st : ScanState) (line : str) (rest : list str) :
  length (fst (fst (step st line rest))) <= 3.
Proof.
  step_branches; cbn [length app]; lia.
Qed.

Lemma scan_nodes_bound (fuel : nat) :
  forall st lines, length (scan fuel st lines) <= 3 * length lines.
Proof.
  induction fuel as [|fuel IH]; intros st lines; [cbn; lia|].
  destruct lines as [|line rest]; [cbn; lia|]. cbn [scan].
  pose proof (step_nodes_bound st line rest) as Hb.
  pose proof (step_rest_length st line rest) as Hr.
  destruct (step st line rest) as [[out st'] rest']. cbn [fst snd] in *.
  rewrite length_app. specialize (IH st' rest'). cbn [length]. lia.
Qed.

(** X18: a document of [n] lines is rendered as at most [3 * n] nodes,
    whatever its lines hold: no rule pushes more than three nodes, and a
    rule that consumes a run of lines pushes no more for it than for one
    line.  The bound is reached by a document of one blockquote line. *)
Theorem renderMarkdown_node_bound (content : str) :
  length (renderMarkdown content) <= 3 * length (split content (lit (String "010" EmptyString)))
  /\ length (renderMarkdown (lit "> Call us"))
     = 3 * length (split (lit "> Call us") (lit (String "010" EmptyString))).
Proof.
  split.
  - unfold renderMarkdown, renderLines. apply scan_nodes_bound.
  - vm_compute. reflexivity.
Qed.

(* ================================================================= *)
(** ** Table runs in the scanner *)

Lemma take_drop_while_app {A} (p : A -> bool) (xs tail : list A) :
  Forall (fun x => p x = true) xs ->
  match tail with [] => True | l :: _ => p l = false end ->
  take_while p (xs ++ tail) = xs /\ drop_while p (xs ++ tail) = tail.
Proof.
  intros Hxs Ht. induction Hxs as [|x xs Hx _ IH]; cbn [app].
  - destruct tail as [|l tail]; [split; reflexivity|].
    cbn [take_while drop_while]. rewrite Ht. split; reflexivity.
  - cbn [take_while drop_while]. rewrite Hx. destruct IH as [-> ->].
    split; reflexivity.
Qed.

Lemma is_pipe_line_pipe_row (cs : list str) : is_pipe_line (pipe_row cs) = true.
Proof.
  unfold is_pipe_line. rewrite trim_pipe_row. unfold pipe_row.
  change (lit "|") with [PIPE]. cbn [startsWith]. unfold char_eqb.
  now rewrite N.eqb_refl, startsWith_nil.
Qed.

(** X19: a table written as a header row, a separator line and data rows
    of pipe-separated cells, followed by a line that does not start with
    a pipe (or by the end of the input), is rendered as exactly one brand
    table and one spacer: the table [buildBrandTable] makes of the
    trimmed header cells and the trimmed data rows, with the header colour
    chosen by the parity of the H2 count (dark blue when odd).  The whole
    run is consumed and the state is unchanged. *)
Theorem table_run_rendered (st : ScanState) (hs : list str) (sep : str)
  (rs : list (list str)) (tail : list str) :
  Forall (fun c => no_pipe c = true) hs -> has_content hs = true ->
  is_pipe_line sep = true -> is_table_row sep = false ->
  Forall (fun r => Forall (fun c => no_pipe c = true) r /\ has_content r = true) rs ->
  match tail with [] => True | l :: _ => is_pipe_line l = false end ->
  exists tbl,
    buildBrandTable (map trim hs) (map (map trim) rs)
      (if Nat.odd (h2Count st) then DARK_BLUE else ELECTRIC_BLUE) = Some tbl
    /\ step st (pipe_row hs) (sep :: map pipe_row rs ++ tail)
       = ([NTable tbl; spacer 0 120], st, tail).
Proof.
  intros Hp Hc Hsp Hsep Hrs Ht.
  assert (Hne : map trim hs <> []) by (destruct hs; [discriminate Hc | discriminate]).
  eexists. split; [rewrite <- mod2_odd; apply (buildBrandTable_some _ _ _ Hne)|].
  pose proof (is_table_row_pipe_row hs Hc) as Hrow. unfold is_table_row in Hrow.
  unfold step. cbv zeta. rewrite Hrow.
  rewrite trim_pipe_row.
  replace (str_eqb (pipe_row hs) (lit "[COVER_END]")) with false
    by (unfold pipe_row; vm_compute; reflexivity).
  replace (startsWith (pipe_row hs) (lit "> ")) with false
    by (unfold pipe_row; vm_compute; reflexivity).
  assert (Hrun : Forall (fun x => is_pipe_line x = true) (sep :: map pipe_row rs)).
  { constructor; [exact Hsp|]. apply Forall_forall. intros x Hx.
    apply in_map_iff in Hx as [r [<- _]]. apply is_pipe_line_pipe_row. }
  destruct (take_drop_while_app is_pipe_line (sep :: map pipe_row rs) tail Hrun Ht)
    as [Etake Edrop].
  cbn [app] in Etake, Edrop. rewrite Etake, Edrop.
  unfold tableNodes, parseMarkdownTable.
  rewrite (fold_pipe_rows hs sep rs Hp Hc Hsep Hrs).
  cbn [isInfoTable headers rows].
  rewrite (has_content_not_info hs Hc), andb_false_r.
  destruct (map trim hs) as [|h0 hs'] eqn:Eh; [congruence|].
  cbn [length Nat.ltb Nat.leb].
  rewrite (buildBrandTable_some (h0 :: hs') _ _ Hne). rewrite mod2_odd. reflexivity.
Qed.

Lemma table_run_rendered_witness :
  let hs := [lit " Keyword "; lit " Volume "] in
  let rs := [[lit " panel upgrade "; lit " 210 "]] in
  let st := {| h2Count := 1; inCover := false; coverH1Done := false;
               coverSubtitleDone := false |} in
  Forall (fun c => no_pipe c = true) hs /\ has_content hs = true
  /\ is_pipe_line (lit "|---|---|") = true /\ is_table_row (lit "|---|---|") = false
  /\ Forall (fun r => Forall (fun c => no_pipe c = true) r /\ has_content r = true) rs
  /\ is_pipe_line (lit "Next") = false
  /\ exists tbl,
       step st (pipe_row hs) (lit "|---|---|" :: map pipe_row rs ++ [lit "Next"])
       = ([NTable tbl; spacer 0 120], st, [lit "Next"])
       /\ map row_fills (tbl_rows tbl) = [[DARK_BLUE; DARK_BLUE]; [WHITE; WHITE]].
Proof.
  intros hs rs st.
  assert (H1 : Forall (fun c => no_pipe c = true) hs) by (repeat constructor).
  assert (H2 : has_content hs = true) by (vm_compute; reflexivity).
  assert (H3 : is_pipe_line (lit "|---|---|") = true) by (vm_compute; reflexivity).
  assert (H4 : is_table_row (lit "|---|---|") = false) by (vm_compute; reflexivity).
  assert (H5 : Forall (fun r => Forall (fun c => no_pipe c = true) r
                               /\ has_content r = true) rs) by (repeat constructor).
  assert (H6 : is_pipe_line (lit "Next") = false) by (vm_compute; reflexivity).
  split; [exact H1|]. split; [exact H2|]. split; [exact H3|]. split; [exact H4|].
  split; [exact H5|]. split; [exact H6|].
  destruct (table_run_rendered st hs (lit "|---|---|") rs [lit "Next"] H1 H2 H3 H4 H5 H6)
    as [tbl [Eb Es]].
  exists tbl. split; [exact Es|].
  injection Eb as <-. vm_compute. reflexivity.
Defined.

(* ================================================================= *)
(** ** Separator rows outside a table *)

(** X20: a separator row does not start a table.  A line whose trimmed
    form is a separator row (a pipe, then hyphens, colons, white space
    and pipes, then a pipe), met outside a table run, falls through to
    the plain-text rule: it is pushed as a paragraph holding the
    separator row itself as text (the cover subtitle when one is due, a
    body paragraph otherwise), and only this line is consumed. *)
Theorem separator_row_rendered_as_text (st : ScanState) (line : str) (rest : list str) :
  is_separator_row (trim line) = true ->
  step st line rest
  = if inCover st && coverH1Done st && negb (coverSubtitleDone st) then
      ([subtitleParagraph (trim line)],
       {| h2Count := h2Count st; inCover := inCover st;
          coverH1Done := coverH1Done st; coverSubtitleDone := true |},
       rest)
    else ([bodyParagraph (trim line)], st, rest).
Proof.
  intro Hsep. destruct (trim line) as [|c t] eqn:E; [discriminate Hsep|].
  assert (Hc : c = PIPE).
  { unfold is_separator_row in Hsep. apply andb_true_iff in Hsep as [Hc _].
    now apply char_eqb_eq in Hc. }
  subst c.
  assert (Hlen : exists x y, t = x :: y).
  { unfold is_separator_row in Hsep. apply andb_true_iff in Hsep as [_ Hs].
    destruct t as [|x y]; [discriminate Hs | now exists x, y]. }
  destruct Hlen as [x [y Ht]].
  unfold step. cbv zeta. rewrite E, Hsep.
  replace (str_eqb (PIPE :: t) (lit "[COVER_END]")) with false by (vm_compute; reflexivity).
  replace (startsWith (PIPE :: t) (lit "> ")) with false by (vm_compute; reflexivity).
  rewrite andb_false_r.
  assert (N1 : forall d p, is_space d = false -> d <> PIPE ->
                 startsWith line (d :: p) = false).
  { intros d p Hd Hne. destruct (startsWith line (d :: p)) eqn:Es; [|reflexivity].
    apply trim_head in Es as [t' Es]; [|exact Hd]. rewrite E in Es. congruence. }
  change (lit "# ") with (ch "#" :: lit " ").
  rewrite (N1 (ch "#") (lit " ")) by (vm_compute; first [reflexivity | discriminate]).
  change (lit "## ") with (ch "#" :: lit "# ").
  rewrite (N1 (ch "#") (lit "# ")) by (vm_compute; first [reflexivity | discriminate]).
  change (lit "### ") with (ch "#" :: lit "## ").
  rewrite (N1 (ch "#") (lit "## ")) by (vm_compute; first [reflexivity | discriminate]).
  change (lit "- ") with (ch "-" :: lit " ").
  rewrite (N1 (ch "-") (lit " ")) by (vm_compute; first [reflexivity | discriminate]).
  change (lit "* ") with (ch "*" :: lit " ").
  rewrite (N1 (ch "*") (lit " ")) by (vm_compute; first [reflexivity | discriminate]).
  cbn [orb].
  destruct (re_numbered line) as [n|] eqn:En.
  { apply re_numbered_head in En as [d [t' [Hd Et]]]. rewrite E in Et.
    injection Et as <- _. vm_compute in Hd. discriminate Hd. }
  replace (str_eqb (PIPE :: t) (lit "---")) with false by (vm_compute; reflexivity).
  cbn [str_eqb]. reflexivity.
Qed.

Lemma separator_row_rendered_as_text_witness :
  is_separator_row (trim (lit "|  |  |")) = true
  /\ scan 3 initial_state [lit "|  |  |"; lit "|---|---|"; lit "Client: Acme"]
     = [bodyParagraph (lit "|  |  |"); bodyParagraph (lit "|---|---|");
        bodyParagraph (lit "Client: Acme")]
  /\ step initial_state (lit "|  |  |") [] = ([bodyParagraph (lit "|  |  |")], initial_state, []).
Proof.
  assert (H : is_separator_row (trim (lit "|  |  |")) = true) by (vm_compute; reflexivity).
  split; [exact H|]. split; [vm_compute; reflexivity|].
  refine (eq_trans (separator_row_rendered_as_text initial_state (lit "|  |  |") [] H) _).
  vm_compute. reflexivity.
Defined.
